(** * MindWhisperAI audio workers: a shallow embedding and its properties

    The development follows the Python workers under
    [worker-script/python/]:

    - [loopback_transcribe.py]: [resample_linear], the rolling buffer of
      [main], [enhance_audio_for_speech], [detect_speech_activity] and
      [transcribe_wav_base64];
    - [deepgram_transcribe.py]: [resample_linear], [transcription_log],
      [keepalive_loop] and [audio_capture_and_stream];
    - [loopback_transcribe_deepgram_safe.py]: the transcription event of
      [main].

    Conventions.  Audio samples are real numbers (exact arithmetic, no
    rounding); Python [int]s are [Z]; Python float constants that only feed
    [int(...)] are rationals; a Python exception is a value of [exn] carried
    by [result]; numpy's non-finite quotients are kept apart in [npfloat]. *)

From Stdlib Require Import String Ascii DecimalString.
From Stdlib Require Import List ZArith QArith Qreals Reals Lra Lia Bool.
From Stdlib Require Lqa.
Import ListNotations.

Set Implicit Arguments.
Local Set Warnings "-register-all".

(* ------------------------------------------------------------------ *)
(** ** Python values: exceptions, integers, slices *)
(* ------------------------------------------------------------------ *)

(** An instance of a subclass of Python's [Exception]: the class name and
    [str(e)].  [KeyboardInterrupt] and [SystemExit], which are not
    [Exception]s and are delivered by the interpreter rather than thrown by
    a call, are not values of this type. *)
Record exn : Type := Exception { exn_class : string; exn_str : string }.

Definition ZeroDivisionError : exn :=
  Exception "ZeroDivisionError" "division by zero".
Definition ValueError (msg : string) : exn := Exception "ValueError" msg.
Definition AttributeError (msg : string) : exn := Exception "AttributeError" msg.

Inductive result (A : Type) : Type :=
| Ok (a : A)
| Raise (e : exn).
Arguments Ok {A} a.
Arguments Raise {A} e.

Definition rbind {A B} (r : result A) (k : A -> result B) : result B :=
  match r with
  | Ok a => k a
  | Raise e => Raise e
  end.

Declare Scope result_scope.
Delimit Scope result_scope with result.
Notation "x <- r ;; k" := (rbind r (fun x => k))
  (at level 61, r at next level, right associativity) : result_scope.

(** [len(l)] as a Python integer. *)
Definition len {A} (l : list A) : Z := Z.of_nat (length l).

(** [int(q)] on a float: truncation towards zero. *)
Definition py_int (q : Q) : Z := Z.quot (Qnum q) (Zpos (Qden q)).

(** [a / b] on two Python integers: true division, [ZeroDivisionError] when
    [b] is [0]. *)
Definition py_truediv (a b : Z) : result Q :=
  if (b =? 0)%Z then Raise ZeroDivisionError
  else Ok (inject_Z a / inject_Z b)%Q.

(** [l[i:]]: a negative start counts from the end and is clamped at the
    front; a start past the end gives the empty list. *)
Definition py_slice_from {A} (i : Z) (l : list A) : list A :=
  let start := if (i <? 0)%Z then Z.max (len l + i) 0 else i in
  skipn (Z.to_nat start) l.

(** [l[:i]] for a start-free slice. *)
Definition py_slice_to {A} (i : Z) (l : list A) : list A :=
  let stop := if (i <? 0)%Z then Z.max (len l + i) 0 else i in
  firstn (Z.to_nat stop) l.

(* ------------------------------------------------------------------ *)
(** ** numpy on real samples *)
(* ------------------------------------------------------------------ *)

Open Scope R_scope.

Definition Rltb (x y : R) : bool := if Rlt_dec x y then true else false.

(** [np.sum] *)
Definition np_sum (l : list R) : R := fold_right Rplus 0 l.

(** [np.zeros((n,))]: a negative dimension is a [ValueError]. *)
Definition np_zeros (n : Z) : result (list R) :=
  if (n <? 0)%Z then Raise (ValueError "negative dimensions are not allowed")
  else Ok (repeat 0 (Z.to_nat n)).

(** [np.linspace(0, 1, num=n, endpoint=False)]: the points [i * (1/n)]. *)
Definition np_linspace01 (n : nat) : list R :=
  map (fun i => INR i * (1 / INR n)) (seq 0 n).

(** One abscissa of [np.interp(x, xp, fp)] on increasing [xp]: constant
    outside [xp], linear between neighbours. *)
Fixpoint interp_from (x : R) (xp fp : list R) : R :=
  match xp, fp with
  | x0 :: ((x1 :: _) as xp'), f0 :: ((f1 :: _) as fp') =>
      if Rlt_dec x x1
      then f0 + (x - x0) * ((f1 - f0) / (x1 - x0))
      else interp_from x xp' fp'
  | _ :: _, f0 :: _ => f0
  | _, _ => 0
  end.

Definition np_interp1 (xp fp : list R) (x : R) : R :=
  match xp, fp with
  | x0 :: _, f0 :: _ => if Rle_dec x x0 then f0 else interp_from x xp fp
  | _, _ => 0
  end.

Definition np_interp (x xp fp : list R) : list R := map (np_interp1 xp fp) x.

(* ------------------------------------------------------------------ *)
(** ** [resample_linear]  (both workers carry the same function) *)
(* ------------------------------------------------------------------ *)

Local Open Scope result_scope.

(** [dst_len = int(len(data) * ratio)] with [ratio = dst_sr / src_sr], in
    exact arithmetic; [rounded_resample_dst_len] below has the two roundings
    of double arithmetic. *)
Definition resample_dst_len (n src_sr dst_sr : Z) : result Z :=
  ratio <- py_truediv dst_sr src_sr ;;
  Ok (py_int (inject_Z n * ratio)%Q).

Definition resample_linear (data : list R) (src_sr dst_sr : Z)
  : result (list R) :=
  if (src_sr =? dst_sr)%Z then Ok data
  else
    dst_len <- resample_dst_len (len data) src_sr dst_sr ;;
    if ((dst_len <=? 1) || (len data <=? 1))%Z then np_zeros dst_len
    else
      let x_old := np_linspace01 (length data) in
      let x_new := np_linspace01 (Z.to_nat dst_len) in
      Ok (np_interp x_new x_old data).

(** The destination length as the specification words it:
    [int(len(data) * dst_rate / src_rate)]. *)
Definition spec_dst_len (n src_sr dst_sr : Z) : Z :=
  py_int (inject_Z n * inject_Z dst_sr / inject_Z src_sr)%Q.

(** The destination length as double arithmetic computes it: the quotient
    [dst_sr / src_sr] and the product with [len(data)] are each rounded by
    [fl] before [int] truncates. *)
Definition rounded_resample_dst_len (fl : Q -> Q) (n src_sr dst_sr : Z)
  : result Z :=
  ratio <- py_truediv dst_sr src_sr ;;
  Ok (py_int (fl (inject_Z n * fl ratio)%Q)).

(** [resample_linear] with that length. *)
Definition rounded_resample_linear (fl : Q -> Q) (data : list R)
  (src_sr dst_sr : Z) : result (list R) :=
  if (src_sr =? dst_sr)%Z then Ok data
  else
    dst_len <- rounded_resample_dst_len fl (len data) src_sr dst_sr ;;
    if ((dst_len <=? 1) || (len data <=? 1))%Z then np_zeros dst_len
    else
      let x_old := np_linspace01 (length data) in
      let x_new := np_linspace01 (Z.to_nat dst_len) in
      Ok (np_interp x_new x_old data).

(** What is used of rounding to the nearest double: zero stays zero, and a
    positive number in the range of the normal doubles moves by at most the
    fraction [2 ^ -53] of itself. *)
Definition double_rounding (fl : Q -> Q) : Prop :=
  (forall q : Q, (q == 0)%Q -> (fl q == 0)%Q) /\
  (forall q : Q,
      ((1 # 2 ^ 1022) <= q)%Q -> (q <= inject_Z (2 ^ 1023))%Q ->
      (q * (1 - (1 # 2 ^ 53)) <= fl q)%Q /\ (fl q <= q * (1 + (1 # 2 ^ 53)))%Q).

(** [np.mean]: the sum over the number of elements.  Every call below is on
    a non-empty array (numpy's mean of an empty array is nan). *)
Definition np_mean (l : list R) : R := np_sum l / IZR (len l).

(** [a ** 2] on an array. *)
Definition np_square (l : list R) : list R := map (fun x => x ^ 2) l.

(** [np.max]: a [ValueError] on the empty array. *)
Definition np_max (l : list R) : result R :=
  match l with
  | [] => Raise (ValueError
      "zero-size array to reduction operation maximum which has no identity")
  | x :: xs => Ok (fold_left Rmax xs x)
  end.

(** [np.max(np.abs(audio))] *)
Definition peak (audio : list R) : result R := np_max (map Rabs audio).

(* ------------------------------------------------------------------ *)
(** ** The rolling buffer of [main]  ([loopback_transcribe.py]) *)
(* ------------------------------------------------------------------ *)

Definition TARGET_SR : Z := 16000.
Definition buffer_duration : Q := 5.0.
Definition max_buffer_samples : Z :=
  py_int (inject_Z TARGET_SR * buffer_duration)%Q.
Definition process_interval : Q := 1.0.
Definition process_samples : Z :=
  py_int (inject_Z TARGET_SR * process_interval)%Q.
Definition silence_threshold : R := 0.001.

(** [audio_buffer.extend(mono16k)] followed by
    [if len(audio_buffer) > max_buffer_samples:
         audio_buffer = audio_buffer[-max_buffer_samples:]]. *)
Definition append_and_trim (audio_buffer mono16k : list R) : list R :=
  let audio_buffer := audio_buffer ++ mono16k in
  if (max_buffer_samples <? len audio_buffer)%Z
  then py_slice_from (- max_buffer_samples) audio_buffer
  else audio_buffer.

(** [window_size = min(int(TARGET_SR * 3.0), len(audio_buffer))] *)
Definition window_size (audio_buffer : list R) : Z :=
  Z.min (py_int (inject_Z TARGET_SR * 3.0)%Q) (len audio_buffer).

(** [overlap_size = int(TARGET_SR * 0.5)] *)
Definition overlap_size : Z := py_int (inject_Z TARGET_SR * 0.5)%Q.

(** [if len(audio_buffer) > remove_samples:
        audio_buffer = audio_buffer[remove_samples:]] *)
Definition remove_front (remove_samples : Z) (audio_buffer : list R) : list R :=
  if (remove_samples <? len audio_buffer)%Z
  then py_slice_from remove_samples audio_buffer
  else audio_buffer.

(** What one pass of the [while True] body decided. *)
Inductive decision : Type :=
| Waiting
| Silence
| SpeechWindow (process_audio : list R).

(** The buffer side of one pass of the loop body, from the resampled frame
    on: the decision taken and the buffer left for the next pass.  Enhancing
    and transcribing the window only write events; an exception there ends
    the loop. *)
Definition capture_iteration (audio_buffer mono16k : list R)
  : decision * list R :=
  let audio_buffer := append_and_trim audio_buffer mono16k in
  if (process_samples <=? len audio_buffer)%Z then
    let recent_audio := py_slice_from (- process_samples) audio_buffer in
    let energy := np_mean (np_square recent_audio) in
    if Rltb silence_threshold energy then
      let window_size := window_size audio_buffer in
      if (window_size <=? len audio_buffer)%Z then
        let process_audio := py_slice_from (- window_size) audio_buffer in
        let remove_samples := (window_size - overlap_size)%Z in
        (SpeechWindow process_audio, remove_front remove_samples audio_buffer)
      else (Waiting, audio_buffer)
    else
      let remove_samples := py_int (inject_Z TARGET_SR * 0.5)%Q in
      (Silence, remove_front remove_samples audio_buffer)
  else (Waiting, audio_buffer).

(** The buffer after a run of frames, starting from [audio_buffer = []]. *)
Definition capture_run (frames : list (list R)) : list R :=
  fold_left (fun buf frame => snd (capture_iteration buf frame)) frames [].

(* ------------------------------------------------------------------ *)
(** ** [detect_speech_activity]  ([loopback_transcribe.py]) *)
(* ------------------------------------------------------------------ *)

(** A numpy float that need not be finite: the result of a float division. *)
Inductive npfloat : Type :=
| Fin (x : R)
| NaN
| Inf.

(** numpy's [a / b] on floats: [0/0] is nan and [a/0] is an infinity, both
    with a warning and without an exception. *)
Definition np_true_divide (a b : R) : npfloat :=
  if Req_dec_T b 0 then (if Req_dec_T a 0 then NaN else Inf) else Fin (a / b).

(** [lo < v < hi] for finite bounds: false on nan and on the infinities. *)
Definition in_band (lo hi : R) (v : npfloat) : bool :=
  match v with
  | Fin x => Rltb lo x && Rltb x hi
  | NaN | Inf => false
  end.

Definition np_sign (x : R) : R :=
  if Rlt_dec x 0 then -1 else if Rlt_dec 0 x then 1 else 0.

(** [np.diff]: [out[i] = a[i+1] - a[i]]. *)
Fixpoint np_diff (l : list R) : list R :=
  match l with
  | a :: ((b :: _) as t) => (b - a) :: np_diff t
  | _ => []
  end.

(** Element-wise product of two arrays of one shape. *)
Fixpoint np_multiply (a b : list R) : list R :=
  match a, b with
  | x :: a', y :: b' => x * y :: np_multiply a' b'
  | _, _ => []
  end.

(** The discrete Fourier transform computed by [np.fft.fft], real and
    imaginary part of bin [k]. *)
Definition dft_re (x : list R) (k : nat) : R :=
  np_sum (map (fun p => snd p * cos (2 * PI * INR k * INR (fst p) / INR (length x)))
              (combine (seq 0 (length x)) x)).

Definition dft_im (x : list R) (k : nat) : R :=
  np_sum (map (fun p => - (snd p * sin (2 * PI * INR k * INR (fst p) / INR (length x))))
              (combine (seq 0 (length x)) x)).

(** [np.abs(np.fft.fft(audio))] *)
Definition np_fft_abs (x : list R) : list R :=
  map (fun k => sqrt ((dft_re x k) ^ 2 + (dft_im x k) ^ 2)) (seq 0 (length x)).

(** [np.arange(a, b)] on integers. *)
Definition np_arange (a b : Z) : list Z :=
  map (fun i => (a + Z.of_nat i)%Z) (seq 0 (Z.to_nat (b - a))).

(** [np.fft.fftfreq(n, d)]: [val = 1.0 / (n * d)] and the bins
    [0, 1, ..., (n-1)//2, -(n//2), ..., -1] times [val]. *)
Definition np_fftfreq (n : Z) (d : R) : result (list R) :=
  if Req_dec_T (IZR n * d) 0 then Raise ZeroDivisionError
  else
    let val := 1 / (IZR n * d) in
    let N := ((n - 1) / 2 + 1)%Z in
    let p1 := np_arange 0 N in
    let p2 := np_arange (- (n / 2)) 0 in
    Ok (map (fun i => IZR i * val) (p1 ++ p2)).

(** [energy = np.mean(audio ** 2)] *)
Definition energy (audio : list R) : R := np_mean (np_square audio).

(** [zero_crossings =
       np.sum(np.abs(np.diff(np.sign(audio)))) / (2 * len(audio))] *)
Definition zero_crossings (audio : list R) : R :=
  np_sum (map Rabs (np_diff (map np_sign audio))) / (2 * IZR (len audio)).

(** [fft[:len(fft)//2]] *)
Definition half_spectrum (audio : list R) : list R :=
  let fft := np_fft_abs audio in
  py_slice_to (len fft / 2) fft.

(** [fft_sum = np.sum(fft[:len(fft)//2])] *)
Definition fft_sum (audio : list R) : R := np_sum (half_spectrum audio).

(** The numerator [np.sum(freqs[:len(freqs)//2] * fft[:len(fft)//2])]. *)
Definition centroid_numerator (audio freqs : list R) : R :=
  np_sum (np_multiply (py_slice_to (len freqs / 2) freqs) (half_spectrum audio)).

(** The arm of [if fft_sum > 0: ... else: ...] that runs. *)
Inductive centroid_branch : Type := Divides | Defaults.

Definition centroid_branch_of (audio : list R) : centroid_branch :=
  if Rlt_dec 0 (fft_sum audio) then Divides else Defaults.

(** [if fft_sum > 0: spectral_centroid = ... / fft_sum
     else: spectral_centroid = 0] *)
Definition spectral_centroid (audio freqs : list R) : npfloat :=
  match centroid_branch_of audio with
  | Divides => np_true_divide (centroid_numerator audio freqs) (fft_sum audio)
  | Defaults => Fin 0
  end.

(** The quotient without the guard, as the copy of the detector in
    [test_enhanced_transcription.py] computes it. *)
Definition unguarded_centroid (audio freqs : list R) : npfloat :=
  np_true_divide (centroid_numerator audio freqs) (fft_sum audio).

(** [freqs = np.fft.fftfreq(len(audio), 1/sample_rate)]; [1/sample_rate] is
    a division of Python integers. *)
Definition fft_freqs (audio : list R) (sample_rate : Z) : result (list R) :=
  d <- py_truediv 1 sample_rate ;;
  np_fftfreq (len audio) (Q2R d).

(** The centroid of a window at a sample rate, for stating properties:
    nan where the frequency bins cannot be computed. *)
Definition centroid_of (audio : list R) (sample_rate : Z) : npfloat :=
  match fft_freqs audio sample_rate with
  | Ok freqs => spectral_centroid audio freqs
  | Raise _ => NaN
  end.

(** [v] is a finite number strictly between [lo] and [hi]. *)
Definition strictly_between (lo hi : R) (v : npfloat) : Prop :=
  exists x, v = Fin x /\ lo < x < hi.

Definition energy_threshold : R := 0.001.
Definition zcr_min : R := 0.01.
Definition zcr_max : R := 0.3.
Definition centroid_min : R := 200.
Definition centroid_max : R := 4000.

Definition detect_speech_activity (audio : list R) (sample_rate : Z)
  : result bool :=
  if (len audio =? 0)%Z then Ok false
  else
    let energy := energy audio in
    let zero_crossings := zero_crossings audio in
    freqs <- fft_freqs audio sample_rate ;;
    let spectral_centroid := spectral_centroid audio freqs in
    let has_energy := Rltb energy_threshold energy in
    let has_speech_zcr :=
      Rltb zcr_min zero_crossings && Rltb zero_crossings zcr_max in
    let has_speech_spectrum :=
      in_band centroid_min centroid_max spectral_centroid in
    Ok (has_energy && (has_speech_zcr || has_speech_spectrum)).

(* ------------------------------------------------------------------ *)
(** ** [enhance_audio_for_speech]  ([loopback_transcribe.py]) *)
(* ------------------------------------------------------------------ *)

Definition IndexError (msg : string) : exn := Exception "IndexError" msg.

(** [a / b] on Python floats. *)
Definition py_float_div (a b : Q) : result Q :=
  if Qeq_bool b 0 then Raise (Exception "ZeroDivisionError" "float division by zero")
  else Ok (a / b)%Q.

Definition Qltb (a b : Q) : bool := negb (Qle_bool b a).

(** Python's [min(a, b)]: [b] only when it is strictly smaller. *)
Definition py_min (a b : Q) : Q := if Qltb b a then b else a.

(** [try: r except Exception: handler] on a pure computation. *)
Definition try_result {A} (r : result A) (handler : exn -> result A) : result A :=
  match r with
  | Ok a => Ok a
  | Raise e => handler e
  end.

Inductive btype : Type := highpass | lowpass.

(** The signal-processing library calls of the enhancer; each may raise.
    - [butter n wn bt]: [signal.butter(n, wn, btype=bt)], the pair [(b, a)];
    - [filtfilt ba x]: [signal.filtfilt(b, a, x)];
    - [reduce_noise y sr prop_decrease]: [nr.reduce_noise(y=y, sr=sr,
      stationary=False, prop_decrease=..., n_grad_freq=1, n_grad_time=2)];
    - [percentile a q]: [np.percentile(a, q)]. *)
Record dsp_libs : Type := {
  butter : nat -> Q -> btype -> result (list R * list R);
  filtfilt : list R * list R -> list R -> result (list R);
  reduce_noise : list R -> Z -> Q -> result (list R);
  percentile : list R -> Q -> result R
}.

(** [max_val = np.max(np.abs(audio))
     if max_val > 0: audio = audio / max_val * headroom] *)
Definition peak_normalize (headroom : R) (audio : list R) : result (list R) :=
  max_val <- peak audio ;;
  Ok (if Rlt_dec 0 max_val
      then map (fun x => x / max_val * headroom) audio
      else audio).

(** Stage 9, the final normalization with headroom for Whisper. *)
Definition final_normalize (audio : list R) : result (list R) :=
  peak_normalize 0.85 audio.

(** The normalization with every quotient and product rounded by [fl], as
    floating-point arithmetic computes [audio / max_val * headroom]. *)
Definition rounded_peak_normalize (fl : R -> R) (headroom : R) (audio : list R)
  : result (list R) :=
  max_val <- peak audio ;;
  Ok (if Rlt_dec 0 max_val
      then map (fun x => fl (fl (x / max_val) * headroom)) audio
      else audio).

(** What is used of a rounding to the nearest float: it keeps the order and
    the sign, and leaves 1 and every rounded number as they are. *)
Definition rounding (fl : R -> R) : Prop :=
  (forall x y, x <= y -> fl x <= fl y) /\
  (forall x, fl (- x) = - fl x) /\
  fl 1 = 1 /\
  (forall x, fl (fl x) = fl x).

(** Stage 6: samples above the threshold keep their sign and have their
    excess divided by the ratio. *)
Definition compress (audio : list R) : list R :=
  let threshold := 0.4 in
  let ratio := 2.0 in
  map (fun x =>
         if Rlt_dec threshold (Rabs x)
         then np_sign x * (threshold + (Rabs x - threshold) / ratio)
         else x) audio.

(** Element-wise difference of two arrays of one shape. *)
Fixpoint np_subtract (a b : list R) : list R :=
  match a, b with
  | x :: a', y :: b' => x - y :: np_subtract a' b'
  | _, _ => []
  end.

(** Stage 8:
    [np.append(audio[0], audio[1:] - pre_emphasis * audio[:-1])]. *)
Definition pre_emphasize (audio : list R) : result (list R) :=
  let pre_emphasis := 0.95 in
  match audio with
  | [] => Raise (IndexError "index 0 is out of bounds for axis 0 with size 0")
  | a0 :: rest =>
      Ok (a0 :: np_subtract rest (map (fun x => pre_emphasis * x) (removelast audio)))
  end.

(** Stage 5: noise reduction on windows longer than half a second, and the
    noise gate of the [except] branch. *)
Definition suppress_noise (L : dsp_libs) (audio : list R) (sample_rate : Z)
  : result (list R) :=
  try_result
    (if Qltb (inject_Z sample_rate * 0.5)%Q (inject_Z (len audio))
     then reduce_noise L audio sample_rate 0.3%Q
     else Ok audio)
    (fun _ =>
       noise_floor <- percentile L (map Rabs audio) 10%Q ;;
       Ok (map (fun x => if Rlt_dec (noise_floor * 1.5) (Rabs x) then x else x * 0.8)
               audio)).

(** Stage 10: [np.pad] with trailing zeros up to half a second. *)
Definition pad_min_length (audio : list R) (sample_rate : Z) : list R :=
  let min_length := py_int (inject_Z sample_rate * 0.5)%Q in
  if (len audio <? min_length)%Z
  then audio ++ repeat 0 (Z.to_nat (min_length - len audio))
  else audio.

Definition enhance_audio_for_speech (L : dsp_libs) (audio : list R)
  (sample_rate : Z) : result (list R) :=
  if (len audio =? 0)%Z then Ok audio
  else
    let mean := np_mean audio in
    let audio := map (fun x => x - mean) audio in
    audio <- peak_normalize 0.95 audio ;;
    let nyquist := (inject_Z sample_rate / 2)%Q in
    low_cutoff <- py_float_div 85 nyquist ;;
    audio <- (if Qltb low_cutoff 1.0
              then ba <- butter L 5 low_cutoff highpass ;; filtfilt L ba audio
              else Ok audio) ;;
    c <- py_float_div 7500 nyquist ;;
    let high_cutoff := py_min c 0.95 in
    ba <- butter L 5 high_cutoff lowpass ;;
    audio <- filtfilt L ba audio ;;
    audio <- suppress_noise L audio sample_rate ;;
    let audio := compress audio in
    audio <- pre_emphasize audio ;;
    audio <- final_normalize audio ;;
    Ok (pad_min_length audio sample_rate).

(* ------------------------------------------------------------------ *)
(** ** Events on standard output *)
(* ------------------------------------------------------------------ *)

(** The values [json.dumps] serialises. *)
Inductive json : Type :=
| JNull
| JBool (b : bool)
| JInt (z : Z)
| JFloat (q : Q)
| JStr (s : string)
| JList (l : list json)
| JDict (kv : list (string * json)).

(** [d.get(key)] on a dict literal: the first binding of the key. *)
Fixpoint assoc (key : string) (kv : list (string * json)) : option json :=
  match kv with
  | [] => None
  | (k, v) :: kv' => if String.eqb k key then Some v else assoc key kv'
  end.

Definition dict_lookup (key : string) (d : json) : option json :=
  match d with
  | JDict kv => assoc key kv
  | _ => None
  end.

(** [d.get(key, default)] *)
Definition dict_get (key : string) (default : json) (d : json) : json :=
  match dict_lookup key d with
  | Some v => v
  | None => default
  end.

(** [str(n)] on an integer. *)
Definition str_of_int (n : Z) : string := NilZero.string_of_int (Z.to_int n).

(** [str(int(time.time() * 1000))] from the clock reading [now]. *)
Definition event_id (now : Q) : string := str_of_int (py_int (now * 1000)%Q).

(** [deepgram_transcribe.py], [transcription_log(text, confidence)]. *)
Definition transcription_log (now : Q) (text : string) (confidence : Q) : json :=
  JDict [ ("type", JStr "transcription");
          ("id", JStr (event_id now));
          ("text", JStr text);
          ("confidence", JFloat confidence) ]%string.

(** [loopback_transcribe.py], the event printed by [main] for a non-empty
    [text] out of [result]. *)
Definition loopback_transcription_event (now : Q) (text : string) (result : json)
  : json :=
  JDict [ ("type", JStr "transcription");
          ("id", JStr (event_id now));
          ("text", JStr text);
          ("words", dict_get "words" (JList []) result);
          ("confidence", dict_get "language_probability" (JFloat 0.9) result) ]%string.

(** [loopback_transcribe_deepgram_safe.py], the event printed by [main]. *)
Definition safe_transcription_event (now : Q) (text : string) : json :=
  JDict [ ("type", JStr "transcription");
          ("text", JStr text);
          ("timestamp", JFloat now) ]%string.

Definition is_str (v : option json) : bool :=
  match v with Some (JStr _) => true | _ => false end.
Definition is_float (v : option json) : bool :=
  match v with Some (JFloat _) => true | _ => false end.
Definition is_list_or_absent (v : option json) : bool :=
  match v with Some (JList _) | None => true | _ => false end.

(** The record the event protocol gives for a transcription:
    [{"type":"transcription", "id": <string>, "text": <string>,
      "confidence": <float>, optional "words": [...]}]. *)
Definition transcription_record (e : json) : bool :=
  match dict_lookup "type" e with
  | Some (JStr t) => String.eqb t "transcription"
  | _ => false
  end
  && is_str (dict_lookup "id" e)
  && is_str (dict_lookup "text" e)
  && is_float (dict_lookup "confidence" e)
  && is_list_or_absent (dict_lookup "words" e).

(* ------------------------------------------------------------------ *)
(** ** [transcribe_wav_base64]  ([loopback_transcribe.py]) *)
(* ------------------------------------------------------------------ *)

(** Computations that print events and may raise: the lines written so far
    are threaded, and are kept when an exception passes. *)
Definition stdout : Type := list json.
Definition M (A : Type) : Type := stdout -> result A * stdout.

Definition mret {A} (a : A) : M A := fun out => (Ok a, out).
Definition mraise {A} (e : exn) : M A := fun out => (Raise e, out).
Definition mbind {A B} (c : M A) (k : A -> M B) : M B :=
  fun out =>
    match c out with
    | (Ok a, out') => k a out'
    | (Raise e, out') => (Raise e, out')
    end.
Definition lift {A} (r : result A) : M A := fun out => (r, out).

(** [print(json.dumps(event))] *)
Definition print (event : json) : M unit := fun out => (Ok tt, out ++ [event]).

(** [try: body except Exception as e: handler(e)] *)
Definition try_except {A} (body : M A) (handler : exn -> M A) : M A :=
  fun out =>
    match body out with
    | (Ok a, out') => (Ok a, out')
    | (Raise e, out') => handler e out'
    end.

Declare Scope io_scope.
Delimit Scope io_scope with io.
Notation "x <- c ;; k" := (mbind c (fun x => k))
  (at level 61, c at next level, right associativity) : io_scope.
Notation "c ;; k" := (mbind c (fun _ => k))
  (at level 61, right associativity) : io_scope.

(** Whitespace for [str.strip()] on ASCII text. *)
Definition py_isspace (c : ascii) : bool :=
  let n := nat_of_ascii c in
  ((9 <=? n) && (n <=? 13) || (28 <=? n) && (n <=? 32))%nat.

Fixpoint lstrip (s : string) : string :=
  match s with
  | String c s' => if py_isspace c then lstrip s' else s
  | EmptyString => EmptyString
  end.

Fixpoint rstrip (s : string) : string :=
  match s with
  | String c s' =>
      match rstrip s' with
      | EmptyString => if py_isspace c then EmptyString else String c EmptyString
      | r => String c r
      end
  | EmptyString => EmptyString
  end.

(** [s.strip()] *)
Definition strip (s : string) : string := rstrip (lstrip s).

(** [np.frombuffer(buf, dtype=np.int16)]: little-endian signed 16-bit
    samples; a buffer of odd size is a [ValueError]. *)
Definition int16_of (lo hi : Byte.byte) : Z :=
  let u := (Z.of_N (Byte.to_N lo) + 256 * Z.of_N (Byte.to_N hi))%Z in
  if (u <? 32768)%Z then u else (u - 65536)%Z.

Fixpoint np_frombuffer_int16 (buf : list Byte.byte) : result (list Z) :=
  match buf with
  | [] => Ok []
  | lo :: hi :: rest =>
      match np_frombuffer_int16 rest with
      | Ok samples => Ok (int16_of lo hi :: samples)
      | Raise e => Raise e
      end
  | [_] => Raise (ValueError "buffer size must be a multiple of element size")
  end.

(** A word of a faster-whisper segment. *)
Record fw_word : Type := {
  fw_word_text : string;
  fw_start : Q;
  fw_end : Q;
  fw_probability : Q
}.

(** A faster-whisper segment; [seg_words] is [None] when the segment has no
    [words] attribute or an empty one. *)
Record fw_segment : Type := {
  seg_text : string;
  seg_words : option (list fw_word)
}.

Record fw_info : Type := {
  info_language : string;
  info_language_probability : Q
}.

(** The lazy [segments] generator: the segments it yields and the exception
    that ends the iteration, if one does. *)
Definition fw_segments : Type := (list fw_segment * option exn)%type.

(** A word, a segment and the result dict of OpenAI Whisper; an absent key
    is [None]. *)
Record ow_word : Type := {
  ow_word_text : option string;
  ow_start : option Q;
  ow_end : option Q;
  ow_probability : option Q
}.

Record ow_segment : Type := { ow_words : option (list ow_word) }.

Record ow_result : Type := {
  ow_text : option string;
  ow_segments : option (list ow_segment);
  ow_language : option string
}.

(** What the module holds when [transcribe_wav_base64] runs: the engine
    choice, the two model globals ([None] until loaded), and the library
    calls.  [device] is [str(next(model.parameters()).device)]. *)
Record whisper_env : Type := {
  WHISPER_ENGINE : string;
  faster_model : option (list R -> result (fw_segments * fw_info));
  model : option (result string * (list R -> bool -> result ow_result));
  b64decode : string -> result (list Byte.byte);
  dsp : dsp_libs
}.

Definition none_has_no_attribute (attr : string) : exn :=
  AttributeError ("'NoneType' object has no attribute '" ++ attr ++ "'").

Definition fw_word_json (w : fw_word) : json :=
  JDict [ ("word", JStr (fw_word_text w));
          ("start", JFloat (fw_start w));
          ("end", JFloat (fw_end w));
          ("probability", JFloat (fw_probability w)) ]%string.

Definition opt_float (default : json) (v : option Q) : json :=
  match v with Some q => JFloat q | None => default end.

Definition ow_word_json (w : ow_word) : json :=
  JDict [ ("word", JStr (match ow_word_text w with Some s => s | None => EmptyString end));
          ("start", opt_float (JInt 0) (ow_start w));
          ("end", opt_float (JInt 0) (ow_end w));
          ("probability", opt_float (JInt 0) (ow_probability w)) ]%string.

(** The [for segment in segments] loop of the faster-whisper branch. *)
Definition collect_fw (segments : fw_segments)
  : result (list string * list json) :=
  let texts := map seg_text (fst segments) in
  let words :=
    flat_map (fun s => match seg_words s with
                       | Some ws => map fw_word_json ws
                       | None => []
                       end) (fst segments) in
  match snd segments with
  | None => Ok (texts, words)
  | Some e => Raise e
  end.

(** The [if 'segments' in result] loop of the OpenAI branch. *)
Definition collect_ow (r : ow_result) : list json :=
  match ow_segments r with
  | Some segs =>
      flat_map (fun s => match ow_words s with
                         | Some ws => map ow_word_json ws
                         | None => []
                         end) segs
  | None => []
  end.

(** The body of the outer [try]. *)
Definition transcribe_body (env : whisper_env) (b64_data : string) : M json :=
  (wav_bytes <- lift (b64decode env b64_data) ;;
   audio_int16 <- lift (np_frombuffer_int16 (py_slice_from 44 wav_bytes)) ;;
   let audio_float := map (fun z => IZR z / 32768) audio_int16 in
   audio_enhanced <- lift (enhance_audio_for_speech (dsp env) audio_float TARGET_SR) ;;
   if String.eqb (WHISPER_ENGINE env) "faster" then
     si <- try_except
             (lift (match faster_model env with
                    | Some transcribe => transcribe audio_enhanced
                    | None => Raise (none_has_no_attribute "transcribe")
                    end))
             (fun transcribe_error =>
                print (JDict [ ("type", JStr "error");
                               ("message", JStr ("Unexpected faster-whisper error: "
                                                 ++ exn_str transcribe_error)) ]%string) ;;
                mraise transcribe_error) ;;
     tw <- lift (collect_fw (fst si)) ;;
     mret (JDict [ ("text", JStr (strip (String.concat " " (fst tw))));
                   ("words", JList (snd tw));
                   ("language", JStr (info_language (snd si)));
                   ("language_probability",
                    JFloat (info_language_probability (snd si))) ]%string)
   else
     m <- lift (match model env with
                | Some m => Ok m
                | None => Raise (none_has_no_attribute "parameters")
                end) ;;
     device_name <- lift (fst m) ;;
     let fp16_enabled := String.eqb device_name "cuda" in
     result <- lift (snd m audio_enhanced fp16_enabled) ;;
     let words := collect_ow result in
     mret (JDict [ ("text", JStr (strip (match ow_text result with
                                         | Some t => t
                                         | None => EmptyString
                                         end)));
                   ("words", JList words);
                   ("language", JStr (match ow_language result with
                                      | Some l => l
                                      | None => "en"
                                      end)) ]%string))%io.

(** The dict of the [except] branch: an empty text, no words and
    [str(e)] under ["error"]. *)
Definition error_result (e : exn) : json :=
  JDict [ ("text", JStr EmptyString); ("words", JList []); ("error", JStr (exn_str e)) ]%string.

Definition transcribe_wav_base64 (env : whisper_env) (b64_data : string) : M json :=
  try_except (transcribe_body env b64_data) (fun e => mret (error_result e)).

Definition is_list (v : option json) : bool :=
  match v with Some (JList _) => true | _ => false end.
Definition is_float_or_absent (v : option json) : bool :=
  match v with Some (JFloat _) | None => true | _ => false end.

(** What [main] reads from the dict [transcribe_wav_base64] returns: a
    string under ["text"], a list under ["words"], and a float under
    ["language_probability"] when the key is there. *)
Definition well_formed_result (r : json) : bool :=
  is_str (dict_lookup "text" r)
  && is_list (dict_lookup "words" r)
  && is_float_or_absent (dict_lookup "language_probability" r).

(* ------------------------------------------------------------------ *)
(** ** The keepalive and the audio thread  ([deepgram_transcribe.py]) *)
(* ------------------------------------------------------------------ *)

(** [keepalive_loop] and [audio_capture_and_stream] run as two threads over
    the shared [connection] and the event [audio_streaming_started].  The
    model interleaves them one call at a time: a schedule names the thread
    that moves and what its call to the connection did. *)
Module Keepalive.

(** Where [keepalive_loop] stands. *)
Inductive keepalive_pc : Type :=
| K_initial_sleep      (* time.sleep(0.3) *)
| K_test               (* while not audio_streaming_started.is_set() *)
| K_send               (* connection.send_media(silent_audio.tobytes()) *)
| K_sleep              (* time.sleep(0.5) *)
| K_stopped.           (* after the loop *)

(** Where [audio_capture_and_stream] stands. *)
Inductive audio_pc : Type :=
| A_capture            (* reading, buffering, connection.send_media(pcm_data) *)
| A_sent               (* if not audio_streaming_started.is_set(): ...set() *)
| A_exited.            (* after the outer loop *)

Inductive frame : Type := Silent | RealAudio.

(** What the connection and the event have seen, oldest first. *)
Inductive event : Type :=
| Sent (f : frame)
| StreamingStarted.

(** What a call did: the frame went out; the connection has neither
    [send_media] nor a usable fallback ([AttributeError]); nothing was tried
    (no connection, no chunk ready); the call raised another exception; or
    the loop condition ended the thread. *)
Inductive outcome : Type := Delivered | NoSender | Skipped | Raised | Ended.

Inductive action : Type :=
| KeepaliveMoves (o : outcome)
| AudioMoves (o : outcome).

Record state : Type := {
  keepalive : keepalive_pc;
  audio : audio_pc;
  audio_streaming_started : bool;
  count : Z;
  history : list event
}.

(** Both threads started, nothing sent, the event clear. *)
Definition initial : state :=
  {| keepalive := K_initial_sleep; audio := A_capture;
     audio_streaming_started := false; count := 0; history := [] |}.

Definition keepalive_step (o : outcome) (s : state) : option state :=
  match keepalive s with
  | K_initial_sleep =>
      Some {| keepalive := K_test; audio := audio s;
              audio_streaming_started := audio_streaming_started s;
              count := count s; history := history s |}
  | K_test =>
      Some {| keepalive := if audio_streaming_started s then K_stopped else K_send;
              audio := audio s;
              audio_streaming_started := audio_streaming_started s;
              count := count s; history := history s |}
  | K_send =>
      match o with
      | Delivered =>
          Some {| keepalive := K_sleep; audio := audio s;
                  audio_streaming_started := audio_streaming_started s;
                  count := (count s + 1)%Z;
                  history := history s ++ [Sent Silent] |}
      | NoSender =>
          Some {| keepalive := K_sleep; audio := audio s;
                  audio_streaming_started := audio_streaming_started s;
                  count := (count s + 1)%Z; history := history s |}
      | Skipped =>
          Some {| keepalive := K_sleep; audio := audio s;
                  audio_streaming_started := audio_streaming_started s;
                  count := count s; history := history s |}
      | Raised =>
          Some {| keepalive := K_stopped; audio := audio s;
                  audio_streaming_started := audio_streaming_started s;
                  count := count s; history := history s |}
      | Ended => None
      end
  | K_sleep =>
      Some {| keepalive := K_test; audio := audio s;
              audio_streaming_started := audio_streaming_started s;
              count := count s; history := history s |}
  | K_stopped => None
  end.

Definition audio_step (o : outcome) (s : state) : option state :=
  match audio s with
  | A_capture =>
      match o with
      | Delivered =>
          Some {| keepalive := keepalive s; audio := A_sent;
                  audio_streaming_started := audio_streaming_started s;
                  count := count s;
                  history := history s ++ [Sent RealAudio] |}
      | NoSender | Skipped | Raised =>
          Some {| keepalive := keepalive s; audio := A_capture;
                  audio_streaming_started := audio_streaming_started s;
                  count := count s; history := history s |}
      | Ended =>
          Some {| keepalive := keepalive s; audio := A_exited;
                  audio_streaming_started := audio_streaming_started s;
                  count := count s; history := history s |}
      end
  | A_sent =>
      Some {| keepalive := keepalive s; audio := A_capture;
              audio_streaming_started := true;
              count := count s;
              history := if audio_streaming_started s then history s
                         else history s ++ [StreamingStarted] |}
  | A_exited => None
  end.

Definition step (a : action) (s : state) : option state :=
  match a with
  | KeepaliveMoves o => keepalive_step o s
  | AudioMoves o => audio_step o s
  end.

(** Run a schedule; [None] when it asks a finished thread to move. *)
Fixpoint run (schedule : list action) (s : state) : option state :=
  match schedule with
  | [] => Some s
  | a :: rest =>
      match step a s with
      | Some s' => run rest s'
      | None => None
      end
  end.

(** No silent frame once real audio has been sent or the event is set. *)
Fixpoint silence_first (h : list event) : bool :=
  match h with
  | [] => true
  | Sent Silent :: h' => silence_first h'
  | _ :: h' => forallb (fun e => match e with Sent Silent => false | _ => true end) h'
  end.

(** The silent frames of a history. *)
Definition silent_sends (h : list event) : nat :=
  List.length (filter (fun e => match e with Sent Silent => true | _ => false end) h).

(** A schedule in which the keepalive passes its loop test, the audio
    thread then sends its first chunk and sets the event, and the keepalive
    sends the silent frame it had been about to send. *)
Definition late_keepalive_schedule : list action :=
  [ KeepaliveMoves Skipped;      (* time.sleep(0.3) returns *)
    KeepaliveMoves Skipped;      (* is_set() is False: enter the loop body *)
    AudioMoves Delivered;        (* connection.send_media(pcm_data) *)
    AudioMoves Skipped;          (* audio_streaming_started.set() *)
    KeepaliveMoves Delivered ].  (* connection.send_media(silent_audio...) *)

(** A schedule in which the keepalive runs a whole pass of its loop between
    the first real-audio send and the setting of the event. *)
Definition keepalive_before_set_schedule : list action :=
  [ KeepaliveMoves Skipped;      (* time.sleep(0.3) returns *)
    AudioMoves Delivered;        (* connection.send_media(pcm_data) *)
    KeepaliveMoves Skipped;      (* is_set() is still False *)
    KeepaliveMoves Delivered;    (* connection.send_media(silent_audio...) *)
    AudioMoves Skipped ].        (* audio_streaming_started.set() *)

(** The state the first schedule reaches before its last move: the event is
    set and the keepalive stands between its loop test and its send. *)
Definition test_passed_event_set : state :=
  {| keepalive := K_send; audio := A_capture;
     audio_streaming_started := true; count := 0;
     history := [Sent RealAudio; StreamingStarted] |}.

(** The keepalive after its loop, the audio thread streaming. *)
Definition keepalive_finished : state :=
  {| keepalive := K_stopped; audio := A_capture;
     audio_streaming_started := true; count := 1;
     history := [Sent RealAudio; StreamingStarted; Sent Silent] |}.

End Keepalive.

(* ------------------------------------------------------------------ *)
(** ** A run for the examples *)
(* ------------------------------------------------------------------ *)

(** Library calls that pass the signal through. *)
Definition example_dsp : dsp_libs :=
  {| butter := fun _ _ _ => Ok ([1], [1]);
     filtfilt := fun _ x => Ok x;
     reduce_noise := fun y _ _ => Ok y;
     percentile := fun _ _ => Ok 0 |}.

(** The faster-whisper engine, a model that hears one segment, and a
    base64 input that decodes to no bytes. *)
Definition example_env : whisper_env :=
  {| WHISPER_ENGINE := "faster";
     faster_model :=
       Some (fun _ =>
               Ok (([ {| seg_text := " hello world"; seg_words := None |} ], None),
                   {| info_language := "en";
                      info_language_probability := 0.98%Q |}));
     model := None;
     b64decode := fun _ => Ok [];
     dsp := example_dsp |}.

Definition example_result : json :=
  JDict [ ("text", JStr "hello world");
          ("words", JList []);
          ("language", JStr "en");
          ("language_probability", JFloat 0.98) ]%string.

(* ------------------------------------------------------------------ *)
(** ** Finding the loopback device  ([main] of [loopback_transcribe.py],
       [preinitialize_audio_device] of [deepgram_transcribe.py]) *)
(* ------------------------------------------------------------------ *)

(** [needle in hay] on strings. *)
Fixpoint contains (hay needle : string) : bool :=
  String.prefix needle hay
  || match hay with
     | String _ hay' => contains hay' needle
     | EmptyString => false
     end.

(** What [pa.get_device_info_by_index(i)] returns; a key read with [.get]
    may be missing. *)
Record device_info : Type := {
  dev_name : string;                       (* di['name'] *)
  dev_hostApi : option Z;                  (* di.get('hostApi') *)
  dev_isLoopbackDevice : option bool;      (* di.get('isLoopbackDevice', False) *)
  dev_defaultSampleRate : option Q;        (* .get('defaultSampleRate', 48000) *)
  dev_maxInputChannels : option Z          (* .get('maxInputChannels', 0) *)
}.

(** What [pa.get_host_api_info_by_type(pyaudio.paWASAPI)] returns. *)
Record host_api_info : Type := {
  api_index : Z;                           (* wasapi_info['index'] *)
  api_defaultOutputDevice : option Z       (* .get('defaultOutputDevice', -1) *)
}.

(** [pa.get_device_info_by_index(i)]: an index off the device list raises. *)
Definition get_device_info_by_index (devices : list device_info) (i : Z)
  : result device_info :=
  if (i <? 0)%Z then Raise (Exception "OSError" "Invalid device info")
  else match nth_error devices (Z.to_nat i) with
       | Some di => Ok di
       | None => Raise (Exception "OSError" "Invalid device info")
       end.

(** [for i in range(n): if p(devices[i]): index = i; break] *)
Fixpoint first_index (p : device_info -> bool) (devices : list device_info)
  : option nat :=
  match devices with
  | [] => None
  | di :: rest =>
      if p di then Some 0%nat
      else match first_index p rest with
           | Some i => Some (S i)
           | None => None
           end
  end.

(** [di.get('isLoopbackDevice', False) and di.get('hostApi') == wasapi_info['index']] *)
Definition is_wasapi_loopback (wasapi : host_api_info) (di : device_info) : bool :=
  match dev_isLoopbackDevice di with Some b => b | None => false end
  && match dev_hostApi di with
     | Some h => (h =? api_index wasapi)%Z
     | None => false
     end.

(** The test of the first loop: a loopback device of the host API whose
    name holds the name of the default output. *)
Definition is_default_loopback (wasapi : host_api_info) (default_output_name : string)
  (di : device_info) : bool :=
  is_wasapi_loopback wasapi di && contains (dev_name di) default_output_name.

(** The two loops: the loopback of the default output, else any loopback
    device of the host API. *)
Definition find_loopback_index (wasapi : host_api_info)
  (default_output_name : string) (devices : list device_info) : option nat :=
  match first_index (is_default_loopback wasapi default_output_name) devices with
  | Some i => Some i
  | None => first_index (is_wasapi_loopback wasapi) devices
  end.

(** [src_sr = int(dev_info.get('defaultSampleRate', 48000))] *)
Definition device_sample_rate (di : device_info) : Z :=
  match dev_defaultSampleRate di with
  | Some r => py_int r
  | None => 48000%Z
  end.

(** [channels = 2 if dev_info.get('maxInputChannels', 0) >= 2 else 1] *)
Definition device_channels (di : device_info) : Z :=
  let n := match dev_maxInputChannels di with Some n => n | None => 0%Z end in
  if (2 <=? n)%Z then 2%Z else 1%Z.

Inductive resolution : Type :=
| NoDefaultOutput                          (* "WASAPI not available ..." *)
| NoLoopbackDevice                         (* "No WASAPI loopback device found" *)
| Resolved (device_index : nat) (src_sr channels : Z).

(** The device search up to the stream parameters. *)
Definition resolve_loopback_device (wasapi : host_api_info)
  (devices : list device_info) : result resolution :=
  match api_defaultOutputDevice wasapi with
  | None => Ok NoDefaultOutput
  | Some d =>
      if (d =? -1)%Z then Ok NoDefaultOutput
      else
        default_output_device <- get_device_info_by_index devices d ;;
        let default_output_name := dev_name default_output_device in
        match find_loopback_index wasapi default_output_name devices with
        | None => Ok NoLoopbackDevice
        | Some i =>
            dev_info <- get_device_info_by_index devices (Z.of_nat i) ;;
            Ok (Resolved i (device_sample_rate dev_info) (device_channels dev_info))
        end
  end.

(* ------------------------------------------------------------------ *)
(** ** Stereo to mono *)
(* ------------------------------------------------------------------ *)

(** The rows of [audio.reshape(-1, channels)]; [fuel] bounds the number of
    rows.  The last row is short when the length is no multiple. *)
Fixpoint rows (fuel channels : nat) (audio : list R) : list (list R) :=
  match fuel, audio with
  | O, _ => []
  | _, [] => []
  | S fuel', _ => firstn channels audio :: rows fuel' channels (skipn channels audio)
  end.

(** [audio.reshape(-1, channels)]: a [ValueError] when the samples do not
    fill whole rows. *)
Definition np_reshape_rows (channels : Z) (audio : list R) : result (list (list R)) :=
  if ((channels <=? 0) || negb (len audio mod channels =? 0))%Z
  then Raise (ValueError "cannot reshape array")
  else Ok (rows (length audio) (Z.to_nat channels) audio).

(** [if channels > 1: audio = audio.reshape(-1, channels).mean(axis=1)] *)
Definition to_mono (channels : Z) (audio : list R) : result (list R) :=
  if (1 <? channels)%Z
  then r <- np_reshape_rows channels audio ;; Ok (map np_mean r)
  else Ok audio.

(** The frame of one pass of the capture loop: downmixed, then resampled to
    [TARGET_SR]. *)
Definition normalize_frame (channels src_sr : Z) (audio : list R)
  : result (list R) :=
  audio <- to_mono channels audio ;;
  resample_linear audio src_sr TARGET_SR.

(** A machine with one output and two loopback devices, the second one the
    loopback of the default output. *)
Definition example_wasapi : host_api_info :=
  {| api_index := 2; api_defaultOutputDevice := Some 0%Z |}.

Definition example_devices : list device_info :=
  [ {| dev_name := "Speakers (Realtek Audio)"; dev_hostApi := Some 2%Z;
       dev_isLoopbackDevice := Some false;
       dev_defaultSampleRate := Some 48000%Q; dev_maxInputChannels := Some 0%Z |};
    {| dev_name := "Headphones (USB) [Loopback]"; dev_hostApi := Some 2%Z;
       dev_isLoopbackDevice := Some true;
       dev_defaultSampleRate := Some 44100%Q; dev_maxInputChannels := Some 2%Z |};
    {| dev_name := "Speakers (Realtek Audio) [Loopback]"; dev_hostApi := Some 2%Z;
       dev_isLoopbackDevice := Some true;
       dev_defaultSampleRate := Some 48000%Q; dev_maxInputChannels := Some 2%Z |} ]%string.

(* ------------------------------------------------------------------ *)
(** ** 16-bit PCM and the WAV container
       ([float_to_wav_base64], [convert_to_pcm16]) *)
(* ------------------------------------------------------------------ *)

(** [np.clip(x, lo, hi)] is [minimum(maximum(x, lo), hi)]. *)
Definition np_clip (lo hi x : R) : R := Rmin (Rmax x lo) hi.

(** The integer part of a real, towards zero. *)
Definition R_trunc (x : R) : Z :=
  if Rle_dec 0 x then Int_part x else (- Int_part (- x))%Z.

(** A 16-bit pattern read as a signed integer. *)
Definition wrap_int16 (z : Z) : Z :=
  let u := (z mod 65536)%Z in
  if (u <? 32768)%Z then u else (u - 65536)%Z.

(** [.astype(np.int16)] on a float: truncation towards zero when the result
    fits.  numpy leaves the cast of a float that does not fit undefined;
    [overflow] stands for what the platform then gives. *)
Definition np_astype_int16 (overflow : R -> Z) (x : R) : Z :=
  let z := R_trunc x in
  if ((-32768 <=? z) && (z <=? 32767))%Z then z else wrap_int16 (overflow x).

(** The byte with the low eight bits of [z]. *)
Definition byte_of_Z (z : Z) : Byte.byte :=
  match Byte.of_N (Z.to_N (z mod 256)) with
  | Some b => b
  | None => Byte.x00
  end.

(** One [int16] of [.tobytes()]: two's complement, low byte first. *)
Definition int16_tobytes (z : Z) : list Byte.byte :=
  [byte_of_Z z; byte_of_Z (z / 256)].

Definition np_tobytes_int16 (a : list Z) : list Byte.byte :=
  flat_map int16_tobytes a.

(** [struct.pack('<H', n)] for [width = 2] and [struct.pack('<L', n)] for
    [width = 4]: [struct.error] when [n] does not fit. *)
Definition struct_pack_le (width : nat) (n : Z) : result (list Byte.byte) :=
  if ((0 <=? n) && (n <? 256 ^ Z.of_nat width))%Z
  then Ok (map (fun i => byte_of_Z (n / 256 ^ Z.of_nat i)) (seq 0 width))
  else Raise (Exception "struct.error" "argument out of range").

(** What is used of rounding to the nearest float of the array's type: it
    keeps the order, and the integers of up to 25 bits stay as they are
    ([float32] holds them exactly). *)
Definition float_rounding (fl : R -> R) : Prop :=
  (forall x y : R, x <= y -> fl x <= fl y) /\
  (forall n : Z, (- 16777216 <= n <= 16777216)%Z -> fl (IZR n) = IZR n).

(** [pcm16 = (np.clip(mono_float32, -1.0, 1.0) * 32767.0).astype(np.int16)]:
    the product is a float again, rounded by [fl], before the cast. *)
Definition pcm16_of_float (fl : R -> R) (overflow : R -> Z) (audio : list R)
  : list Z :=
  map (fun x => np_astype_int16 overflow (fl (np_clip (-1) 1 x * 32767))) audio.

(** The header [wave.open(buf, 'wb')] writes before the frames, for
    [nchannels] channels of [sampwidth] bytes at [framerate] and [datalength]
    bytes of frames: the RIFF and fmt chunks and the head of the data chunk;
    [setframerate] refuses a rate that is not positive. *)
Definition wave_header (nchannels sampwidth framerate datalength : Z)
  : result (list Byte.byte) :=
  if (framerate <=? 0)%Z then Raise (Exception "wave.Error" "bad frame rate")
  else
    form_length <- struct_pack_le 4 (36 + datalength) ;;
    fmt_length <- struct_pack_le 4 16 ;;
    format_tag <- struct_pack_le 2 1 ;;
    channels <- struct_pack_le 2 nchannels ;;
    rate <- struct_pack_le 4 framerate ;;
    byte_rate <- struct_pack_le 4 (nchannels * framerate * sampwidth) ;;
    block_align <- struct_pack_le 2 (nchannels * sampwidth) ;;
    bits <- struct_pack_le 2 (sampwidth * 8) ;;
    data_length <- struct_pack_le 4 datalength ;;
    Ok (list_byte_of_string "RIFF" ++ form_length
        ++ list_byte_of_string "WAVE" ++ list_byte_of_string "fmt "
        ++ fmt_length ++ format_tag ++ channels ++ rate ++ byte_rate
        ++ block_align ++ bits
        ++ list_byte_of_string "data" ++ data_length).

(** The bytes [float_to_wav_base64] hands to [base64.b64encode]: a mono,
    16-bit WAV file. *)
Definition wav_file_bytes (fl : R -> R) (overflow : R -> Z)
  (mono_float32 : list R)
  (sample_rate : Z) : result (list Byte.byte) :=
  let frames := np_tobytes_int16 (pcm16_of_float fl overflow mono_float32) in
  header <- wave_header 1 2 sample_rate (len frames) ;;
  Ok (header ++ frames).

Definition float_to_wav_base64 (b64encode : list Byte.byte -> string)
  (fl : R -> R) (overflow : R -> Z) (mono_float32 : list R) (sample_rate : Z) : result string :=
  wav <- wav_file_bytes fl overflow mono_float32 sample_rate ;;
  Ok (b64encode wav).

(** [deepgram_transcribe.py], [convert_to_pcm16]. *)
Definition convert_to_pcm16 (fl : R -> R) (overflow : R -> Z)
  (audio_float32 : list R)
  : list Byte.byte :=
  np_tobytes_int16 (pcm16_of_float fl overflow audio_float32).

(** The samples [transcribe_wav_base64] reads out of the decoded bytes:
    [np.frombuffer(wav_bytes[44:], dtype=np.int16)] over 32768. *)
Definition wav_payload_samples (wav_bytes : list Byte.byte) : result (list R) :=
  audio_int16 <- np_frombuffer_int16 (py_slice_from 44 wav_bytes) ;;
  Ok (map (fun z => IZR z / 32768) audio_int16).

(* ------------------------------------------------------------------ *)
(** ** The volume gate of [main] and [enhance_audio_for_deepgram] *)
(* ------------------------------------------------------------------ *)

(** [loopback_transcribe.py], [main]:
    [max_audio_val = np.max(np.abs(enhanced_audio))] and the test
    [if max_audio_val > 0.01] that lets the window be transcribed. *)
Definition volume_gate (enhanced_audio : list R) : result bool :=
  max_audio_val <- peak enhanced_audio ;;
  Ok (Rltb 0.01 max_audio_val).

(** [deepgram_transcribe.py], [enhance_audio_for_deepgram].
    [has_sci_libs] is the module flag [_HAS_SCI_LIBS];
    [nr_reduce_noise y sr prop_decrease n_grad_freq n_grad_time] is
    [nr.reduce_noise(y=y, sr=sr, stationary=False, ...)]; [float_mean] is
    [np.mean] as the float arithmetic of the array computes it, of which
    the exact [np_mean] is one possible value. *)
Definition enhance_audio_for_deepgram (has_sci_libs : bool) (L : dsp_libs)
  (nr_reduce_noise : list R -> Z -> Q -> Z -> Z -> result (list R))
  (float_mean : list R -> R) (audio : list R) (sample_rate : Z)
  : result (list R) :=
  if (len audio =? 0)%Z then Ok audio
  else if negb has_sci_libs then
    let mean := float_mean audio in
    let audio := map (fun x => x - mean) audio in
    peak_normalize 0.95 audio
  else
    let mean := float_mean audio in
    let audio := map (fun x => x - mean) audio in
    audio <- peak_normalize 0.95 audio ;;
    let nyquist := (inject_Z sample_rate / 2)%Q in
    low_cutoff <- py_float_div 80 nyquist ;;
    audio <- (if Qltb low_cutoff 1.0
              then ba <- butter L 4 low_cutoff highpass ;; filtfilt L ba audio
              else Ok audio) ;;
    c <- py_float_div 8000 nyquist ;;
    let high_cutoff := py_min c 0.95 in
    ba <- butter L 4 high_cutoff lowpass ;;
    audio <- filtfilt L ba audio ;;
    audio <- try_result
               (if Qltb (inject_Z sample_rate * 0.3)%Q (inject_Z (len audio))
                then nr_reduce_noise audio sample_rate 0.2%Q 1%Z 1%Z
                else Ok audio)
               (fun _ =>
                  noise_floor <- percentile L (map Rabs audio) 5%Q ;;
                  Ok (map (fun x => if Rlt_dec (noise_floor * 2) (Rabs x)
                                    then x else x * 0.7) audio)) ;;
    peak_normalize 0.9 audio.

(* ------------------------------------------------------------------ *)
(** ** The compressor of the safe worker *)
(* ------------------------------------------------------------------ *)

(** [loopback_transcribe_deepgram_safe.py], [preprocess_audio_for_whisper]:
    [np.where(np.abs(a) > threshold,
              threshold + (np.abs(a) - threshold) / ratio * np.sign(a), a)]. *)
Definition safe_compress (audio_data : list R) : list R :=
  let threshold := 0.3 in
  let ratio := 4.0 in
  map (fun x =>
         if Rlt_dec threshold (Rabs x)
         then threshold + (Rabs x - threshold) / ratio * np_sign x
         else x) audio_data.

(* ------------------------------------------------------------------ *)
(** ** The streaming loop of [audio_capture_and_stream] *)
(* ------------------------------------------------------------------ *)

(** [deepgram_transcribe.py]: [min_send_samples = TARGET_SR // 10]. *)
Definition min_send_samples : Z := (TARGET_SR / 10)%Z.

Definition chunk_samples : nat := Z.to_nat min_send_samples.

(** [(chunk * 32767).astype(np.int16).tobytes()]: the samples are not
    clipped first; the product is rounded by [fl] as above. *)
Definition stream_pcm16 (fl : R -> R) (overflow : R -> Z) (chunk : list R)
  : list Byte.byte :=
  np_tobytes_int16 (map (fun x => np_astype_int16 overflow (fl (x * 32767))) chunk).

(** What the loop works on: the global [connection] ([None] or the Deepgram
    connection, whose state is a [C]), the local [audio_buffer], the event
    [audio_streaming_started], the counter [send_count] kept on the
    function, and the frames [send_media] has accepted, oldest first. *)
Record stream_state (C : Type) : Type := {
  connection : option C;
  audio_buffer : list R;
  streaming_started : bool;
  send_count : Z;
  sent : list (list Byte.byte)
}.

Definition initial_stream {C} (c : C) : stream_state C :=
  {| connection := Some c; audio_buffer := []; streaming_started := false;
     send_count := 0; sent := [] |}.

(** [while len(audio_buffer) >= min_send_samples:] with the chunk cut off
    the front, converted and handed to [connection.send_media]; a send that
    raises ends the loop ([break]) after the chunk has left the buffer.
    [fuel] bounds the number of passes; the log lines are left out. *)
Fixpoint send_chunks_loop {C} (fl : R -> R) (overflow : R -> Z)
  (send_media : C -> list Byte.byte -> result unit * C)
  (fuel : nat) (st : stream_state C) : stream_state C :=
  match fuel with
  | O => st
  | S fuel' =>
      if (min_send_samples <=? len (audio_buffer st))%Z then
        let chunk := py_slice_to min_send_samples (audio_buffer st) in
        let audio_buffer' := py_slice_from min_send_samples (audio_buffer st) in
        let pcm_data := stream_pcm16 fl overflow chunk in
        match (0 <? len pcm_data)%Z, connection st with
        | true, Some c =>
            match send_media c pcm_data with
            | (Ok _, c') =>
                send_chunks_loop fl overflow send_media fuel'
                  {| connection := Some c';
                     audio_buffer := audio_buffer';
                     streaming_started := true;
                     send_count := send_count st + 1;
                     sent := sent st ++ [pcm_data] |}
            | (Raise _, c') =>
                {| connection := Some c';
                   audio_buffer := audio_buffer';
                   streaming_started := streaming_started st;
                   send_count := send_count st;
                   sent := sent st |}
            end
        | _, _ =>
            send_chunks_loop fl overflow send_media fuel'
              {| connection := connection st;
                 audio_buffer := audio_buffer';
                 streaming_started := streaming_started st;
                 send_count := send_count st;
                 sent := sent st |}
        end
      else st
  end.

(** Every pass takes [min_send_samples] samples, so one pass more than the
    length of the buffer is never used up. *)
Definition send_chunks {C} (fl : R -> R) (overflow : R -> Z)
  (send_media : C -> list Byte.byte -> result unit * C)
  (st : stream_state C) : stream_state C :=
  send_chunks_loop fl overflow send_media (S (length (audio_buffer st))) st.

(** One read turned into samples at [TARGET_SR]:
    [if channels > 1: audio = audio.reshape(-1, channels).mean(axis=1)]
    [if src_sr != TARGET_SR: resampled = resample_linear(...)]. *)
Definition stream_frame (channels src_sr : Z) (audio : list R) : result (list R) :=
  audio <- to_mono channels audio ;;
  if negb (src_sr =? TARGET_SR)%Z
  then resample_linear audio src_sr TARGET_SR
  else Ok audio.

(** One pass of [while is_running and connection:] on the samples [audio] of
    a read; an exception leaves the outer loop. *)
Definition stream_iteration {C} (fl : R -> R) (overflow : R -> Z)
  (send_media : C -> list Byte.byte -> result unit * C)
  (channels src_sr : Z) (audio : list R) (st : stream_state C)
  : result (stream_state C) :=
  resampled <- stream_frame channels src_sr audio ;;
  Ok (send_chunks fl overflow send_media
        {| connection := connection st;
           audio_buffer := audio_buffer st ++ resampled;
           streaming_started := streaming_started st;
           send_count := send_count st;
           sent := sent st |}).

(** The loop over the reads that arrive while [is_running] holds. *)
Fixpoint stream_run {C} (fl : R -> R) (overflow : R -> Z)
  (send_media : C -> list Byte.byte -> result unit * C)
  (channels src_sr : Z) (reads : list (list R)) (st : stream_state C)
  : stream_state C :=
  match reads with
  | [] => st
  | audio :: rest =>
      match connection st with
      | None => st
      | Some _ =>
          match stream_iteration fl overflow send_media channels src_sr audio st with
          | Ok st' => stream_run fl overflow send_media channels src_sr rest st'
          | Raise _ => st
          end
      end
  end.

(** A text of ASCII characters only.  Each character of the string is then
    one code point of the Python string, [String.length] is [len], and
    [py_isspace] is the white space that [str.strip] removes. *)
Definition ascii_text (s : string) : bool :=
  forallb (fun c => (nat_of_ascii c <? 128)%nat) (list_ascii_of_string s).

(** A debug or an error line of the event protocol. *)
Definition log_line (event : json) : bool :=
  match dict_lookup "type" event with
  | Some (JStr t) => String.eqb t "debug" || String.eqb t "error"
  | _ => false
  end.

(* ------------------------------------------------------------------ *)
(** ** [handle_transcript]  ([deepgram_transcribe.py]) *)
(* ------------------------------------------------------------------ *)

(** [debug_log(message)] and [error_log(error)]. *)
Definition debug_log (message : string) : M unit :=
  print (JDict [ ("type", JStr "debug"); ("message", JStr message) ]%string).

Definition error_log (error : string) : M unit :=
  print (JDict [ ("type", JStr "error"); ("error", JStr error) ]%string).

(** One alternative of a Deepgram result; [confidence] is [None] when the
    object has no such attribute. *)
Record dg_alternative : Type := {
  transcript : string;
  confidence : option Q
}.

(** A message of the socket as [handle_transcript] looks at it: [channel]
    is [None] without the attribute and [Some None] when the channel has no
    [alternatives]; [is_final] and [speech_final] are [None] without the
    attribute, and their truth value otherwise. *)
Record dg_message : Type := {
  channel : option (option (list dg_alternative));
  is_final : option bool;
  speech_final : option bool
}.

(** [hasattr(result, name) and result.name] *)
Definition has_true (attr : option bool) : bool :=
  match attr with
  | Some b => b
  | None => false
  end.

(** The truth value of a string: it is not empty. *)
Definition py_bool_str (s : string) : bool :=
  match s with
  | EmptyString => false
  | String _ _ => true
  end.

(** The handler registered for [EventType.MESSAGE] in
    [initialize_deepgram_and_stream]; [now] is the clock read by
    [transcription_log]. *)
Definition handle_transcript (now : Q) (result : dg_message) : M unit :=
  try_except
    (match channel result with
     | Some (Some alternatives) =>
         match alternatives with
         | [] => mraise (IndexError "list index out of range")
         | alternative :: _ =>
             let sentence := transcript alternative in
             if (String.length sentence =? 0)%nat then mret tt
             else
               let confidence :=
                 match confidence alternative with
                 | Some c => c
                 | None => 0.9%Q
                 end in
               let is_final := has_true (is_final result) in
               let speech_final := has_true (speech_final result) in
               let clean_text := strip sentence in
               if py_bool_str clean_text then
                 (print (transcription_log now clean_text confidence) ;;
                  if is_final || speech_final
                  then debug_log ("Final: " ++ substring 0 50 clean_text ++ "...")
                  else mret tt)%io
               else mret tt
         end
     | _ => mret tt
     end)
    (fun e => error_log ("Error processing transcript: " ++ exn_str e)).

(* ------------------------------------------------------------------ *)
(** ** A speech window in [main]  ([loopback_transcribe.py]) *)
(* ------------------------------------------------------------------ *)

(** What [main] does with the window [process_audio] once speech has been
    detected: enhance, test the volume, encode, transcribe and report.
    [fmt_4f] is the format [{:.4f}] of a float and [py_str] the text of a
    dict in an f-string; [now] is the clock read for the event id. *)
Definition process_window (env : whisper_env)
  (b64encode : list Byte.byte -> string) (fl : R -> R) (overflow : R -> Z)
  (fmt_4f : R -> string) (py_str : json -> string) (now : Q)
  (process_audio : list R) : M unit :=
  (debug_log "Speech activity detected, processing..." ;;
   enhanced_audio <-
     lift (enhance_audio_for_speech (dsp env) process_audio TARGET_SR) ;;
   max_audio_val <- lift (peak enhanced_audio) ;;
   debug_log ("Max audio value: " ++ fmt_4f max_audio_val ++ ", threshold: 0.01") ;;
   if Rltb 0.01 max_audio_val then
     debug_log "Audio volume sufficient, transcribing..." ;;
     b64 <- lift (float_to_wav_base64 b64encode fl overflow enhanced_audio TARGET_SR) ;;
     result <- transcribe_wav_base64 env b64 ;;
     debug_log ("Transcription result: " ++ py_str result) ;;
     text <- lift (match dict_get "text" (JStr EmptyString) result with
                   | JStr t => Ok (strip t)
                   | _ => Raise (AttributeError "object has no attribute 'strip'")
                   end) ;;
     if py_bool_str text && (2 <? String.length text)%nat then
       debug_log ("Valid text found: '" ++ text ++ "'") ;;
       print (loopback_transcription_event now text result)
     else
       debug_log ("No valid text: '" ++ text ++ "' (length: "
                  ++ str_of_int (if py_bool_str text
                                 then Z.of_nat (String.length text) else 0%Z)
                  ++ ")")
   else debug_log "Audio volume too low, skipping transcription")%io.

(** A computation that prints debug and error lines only, whatever it
    returns. *)
Definition prints_only_logs {A} (c : M A) : Prop :=
  forall out, exists events,
    snd (c out) = out ++ events /\ forallb log_line events = true.

(** Engines whose texts are ASCII: the segments of faster-whisper and the
    text of OpenAI Whisper. *)
Definition ascii_engines (env : whisper_env) : Prop :=
  (forall transcribe audio segments info,
      faster_model env = Some transcribe ->
      transcribe audio = Ok (segments, info) ->
      forallb (fun s => ascii_text (seg_text s)) (fst segments) = true) /\
  (forall m audio fp16 r t,
      model env = Some m ->
      snd m audio fp16 = Ok r ->
      ow_text r = Some t ->
      ascii_text t = true).

(* ------------------------------------------------------------------ *)
(** ** The message loop of [moonshine_transcribe.py] *)
(* ------------------------------------------------------------------ *)

(** The truth value of a parsed JSON value. *)
Definition py_truthy (v : json) : bool :=
  match v with
  | JNull => false
  | JBool b => b
  | JInt z => negb (z =? 0)%Z
  | JFloat q => negb (Qeq_bool q 0)
  | JStr s => py_bool_str s
  | JList l => match l with [] => false | _ => true end
  | JDict kv => match kv with [] => false | _ => true end
  end.

(** [v == s] for the value [v] of [msg.get(key)] and a string literal. *)
Definition py_eq_str (v : option json) (s : string) : bool :=
  match v with
  | Some (JStr t) => String.eqb t s
  | _ => false
  end.

Fixpoint bytes_eqb (a b : list Byte.byte) : bool :=
  match a, b with
  | [], [] => true
  | x :: a', y :: b' => Byte.eqb x y && bytes_eqb a' b'
  | _, _ => false
  end.

(** [text.split()]: the runs of characters between white space. *)
Fixpoint py_split_from (word s : string) : list string :=
  match s with
  | EmptyString => if py_bool_str word then [word] else []
  | String c s' =>
      if py_isspace c
      then (if py_bool_str word then word :: py_split_from EmptyString s'
            else py_split_from EmptyString s')
      else py_split_from (word ++ String c EmptyString) s'
  end.

Definition py_split (s : string) : list string := py_split_from EmptyString s.

(** What the worker calls outside itself: [json.loads], [base64.b64decode],
    the temporary file written with the decoded bytes or, through the
    [wave] module, with the samples (each gives the path of the file), and
    [moonshine_onnx.transcribe], whose value is [None] here when it is not a
    list.  The files themselves are not modelled. *)
Record moonshine_env : Type := {
  json_loads : string -> result json;
  moon_b64decode : json -> result (list Byte.byte);
  write_temp_file : list Byte.byte -> result string;
  write_wave_file : list Z -> result string;
  moonshine_transcribe : string -> result (option (list string))
}.

Definition moon_error (error : string) : json :=
  JDict [ ("type", JStr "error"); ("error", JStr error) ]%string.

(** [decode_wav_base64]: the path of a WAV file with the audio, or [None]
    after an error line. *)
Definition decode_wav_base64 (env : moonshine_env) (b64 : json) : M (option string) :=
  try_except
    (data <- lift (moon_b64decode env b64) ;;
     if (44 <=? len data)%Z
        && bytes_eqb (py_slice_to 4 data) (list_byte_of_string "RIFF")
        && bytes_eqb (py_slice_to 4 (py_slice_from 8 data))
                     (list_byte_of_string "WAVE")
     then
       tmp_path <- lift (write_temp_file env data) ;;
       mret (Some tmp_path)
     else
       try_except
         (let data := if negb (len data mod 2 =? 0)%Z
                      then py_slice_to (-1) data else data in
          audio_int16 <- lift (np_frombuffer_int16 data) ;;
          tmp_path <- lift (write_wave_file env audio_int16) ;;
          mret (Some tmp_path))
         (fun e =>
            print (moon_error ("PCM conversion failed: " ++ exn_str e)) ;;
            mret None))%io
    (fun e =>
       print (moon_error ("Base64 decode failed: " ++ exn_str e)) ;;
       mret None)%io.

(** [transcribe_audio]: the text and the word objects, which carry no
    time stamps. *)
Definition moon_transcribe_audio (env : moonshine_env) (audio_path : string)
  : result (string * list json) :=
  try_result
    (result <- moonshine_transcribe env audio_path ;;
     match result with
     | Some (_ :: _ as result) =>
         let text := strip (String.concat " " result) in
         let words :=
           if py_bool_str text
           then map (fun word => JDict [ ("word", JStr word);
                                         ("start", JFloat 0.0);
                                         ("end", JFloat 0.0) ]%string)
                    (py_split text)
           else [] in
         Ok (text, words)
     | _ => Ok (EmptyString, [])
     end)
    (fun e => Raise (Exception "Exception"
                       ("Moonshine transcription failed: " ++ exn_str e))).

Inductive loop_control : Type := Continue | Break.

(** [type(v).__name__] for a parsed JSON value. *)
Definition py_type_name (v : json) : string :=
  match v with
  | JNull => "NoneType"
  | JBool _ => "bool"
  | JInt _ => "int"
  | JFloat _ => "float"
  | JStr _ => "str"
  | JList _ => "list"
  | JDict _ => "dict"
  end.

(** The body of [while True:] on a line [raw] read from standard input.  An
    exception that leaves the body ends the worker. *)
Definition handle_line (env : moonshine_env) (raw : string) : M loop_control :=
  match json_loads env raw with
  | Raise e =>
      (print (moon_error ("Invalid JSON: " ++ exn_str e)) ;; mret Continue)%io
  | Ok msg =>
      match msg with
      | JDict _ =>
          let mtype := dict_lookup "type" msg in
          if py_eq_str mtype "shutdown" then mret Break
          else if py_eq_str mtype "keepalive" then mret Continue
          else if py_eq_str mtype "transcribe" then
            let uid := dict_get "id" (JStr EmptyString) msg in
            match dict_lookup "audio_base64" msg with
            | Some b64 =>
                if py_truthy b64 then
                  try_except
                    (audio_path <- decode_wav_base64 env b64 ;;
                     match audio_path with
                     | Some (String _ _ as audio_path) =>
                         result <- lift (moon_transcribe_audio env audio_path) ;;
                         print (JDict [ ("type", JStr "result");
                                        ("id", uid);
                                        ("text", JStr (fst result));
                                        ("words", JList (snd result)) ]%string) ;;
                         mret Continue
                     | _ =>
                         print (JDict [ ("type", JStr "result");
                                        ("id", uid);
                                        ("text", JStr EmptyString);
                                        ("words", JList []) ]%string) ;;
                         mret Continue
                     end)%io
                    (fun e =>
                       print (JDict [ ("type", JStr "error");
                                      ("id", uid);
                                      ("error", JStr (exn_str e)) ]%string) ;;
                       mret Continue)%io
                else
                  (print (JDict [ ("type", JStr "error");
                                  ("id", uid);
                                  ("error", JStr "Missing audio_base64") ]%string) ;;
                   mret Continue)%io
            | None =>
                (print (JDict [ ("type", JStr "error");
                                ("id", uid);
                                ("error", JStr "Missing audio_base64") ]%string) ;;
                 mret Continue)%io
            end
          else mret Continue
      | _ => mraise (AttributeError ("'" ++ py_type_name msg
                                     ++ "' object has no attribute 'get'"))
      end
  end.


(* ================================================================== *)
(** * Properties *)
(* ================================================================== *)

Unset Implicit Arguments.

(** ** Lists, slices and comparisons *)

Lemma len_nonneg {A} (l : list A) : (0 <= len l)%Z.
Proof. unfold len; lia. Qed.

Lemma len_app {A} (l1 l2 : list A) : len (l1 ++ l2) = (len l1 + len l2)%Z.
Proof. unfold len; rewrite length_app; lia. Qed.

Lemma len_repeat {A} (x : A) (n : nat) : len (repeat x n) = Z.of_nat n.
Proof. unfold len; now rewrite repeat_length. Qed.

Lemma len_skipn {A} (n : nat) (l : list A) :
  len (skipn n l) = Z.max 0 (len l - Z.of_nat n).
Proof. unfold len; rewrite length_skipn; lia. Qed.

Lemma len_py_slice_from {A} (i : Z) (l : list A) :
  len (py_slice_from i l) =
  if (i <? 0)%Z then Z.min (len l) (- i) else Z.max 0 (len l - i).
Proof.
  unfold py_slice_from.
  rewrite len_skipn.
  pose proof (len_nonneg l).
  destruct (Z.ltb_spec i 0); lia.
Qed.

Lemma Rltb_true x y : Rltb x y = true <-> x < y.
Proof. unfold Rltb; destruct (Rlt_dec x y); split; intros; auto; discriminate. Qed.

Lemma Rltb_false x y : Rltb x y = false <-> ~ x < y.
Proof. unfold Rltb; destruct (Rlt_dec x y); split; intros; auto; try discriminate; contradiction. Qed.

Lemma len_py_slice_from_le {A} (i : Z) (l : list A) :
  (len (py_slice_from i l) <= len l)%Z.
Proof.
  rewrite len_py_slice_from.
  pose proof (len_nonneg l).
  destruct (Z.ltb_spec i 0); lia.
Qed.

(** [int] does not depend on how the rational is written. *)
Lemma py_int_Qeq (q q' : Q) : (q == q')%Q -> py_int q = py_int q'.
Proof.
  unfold Qeq, py_int; intros E.
  rewrite <- (Z.quot_mul_cancel_r (Qnum q) (Zpos (Qden q)) (Zpos (Qden q')))
    by discriminate.
  rewrite <- (Z.quot_mul_cancel_r (Qnum q') (Zpos (Qden q')) (Zpos (Qden q)))
    by discriminate.
  rewrite E; f_equal; apply Z.mul_comm.
Qed.

(** ** [resample_linear] *)

(** The length the code computes is the length the specification words. *)
Lemma resample_dst_len_spec (n src_sr dst_sr : Z) :
  src_sr <> 0%Z ->
  resample_dst_len n src_sr dst_sr = Ok (spec_dst_len n src_sr dst_sr).
Proof.
  intros Hsrc. unfold resample_dst_len, py_truediv, spec_dst_len.
  destruct (Z.eqb_spec src_sr 0) as [E | _]; [contradiction |].
  cbn [rbind]. f_equal. apply py_int_Qeq.
  unfold Qdiv. now rewrite Qmult_assoc.
Qed.

Lemma resample_linear_zero_source_rate (data : list R) (dst_sr : Z) :
  dst_sr <> 0%Z -> resample_linear data 0 dst_sr = Raise ZeroDivisionError.
Proof.
  intros H. unfold resample_linear.
  destruct (Z.eqb_spec 0 dst_sr) as [E | _]; [congruence | reflexivity].
Qed.

(** C3, as the claim states it, fails when the two rates are equal: a
    one-sample input comes back as it is, not as a buffer of zeros.  It also
    fails off the sample rates a device reports: a source rate of zero
    raises [ZeroDivisionError], a negative length a [ValueError]. *)
Lemma resample_linear_short_equal_rates :
  (len [0.5%R] <= 1)%Z /\
  resample_linear [0.5] 16000 16000 = Ok [0.5] /\
  resample_linear [0.5] 16000 16000 <>
    Ok (repeat 0 (Z.to_nat (spec_dst_len (len [0.5]) 16000 16000))) /\
  resample_linear [0.5] 0 16000 = Raise ZeroDivisionError /\
  resample_linear [0.5] (-16000) 16000 =
    Raise (ValueError "negative dimensions are not allowed").
Proof.
  split; [cbn; lia |].
  split; [reflexivity |].
  split; [| split; reflexivity].
  cbn. intros E. injection E as E. lra.
Qed.

(** C3 (amended): for an input of at most one sample, two different rates,
    a source rate that is not zero and a destination length that is not
    negative, [resample_linear] raises nothing and returns zeros, as many
    as [int(len(data) * dst_rate / src_rate)]. *)
Theorem resample_linear_short_input (data : list R) (src_sr dst_sr : Z) :
  (len data <= 1)%Z ->
  src_sr <> dst_sr ->
  src_sr <> 0%Z ->
  (0 <= spec_dst_len (len data) src_sr dst_sr)%Z ->
  resample_linear data src_sr dst_sr =
    Ok (repeat 0 (Z.to_nat (spec_dst_len (len data) src_sr dst_sr))).
Proof.
  intros Hlen Hne Hsrc Hpos. unfold resample_linear.
  destruct (Z.eqb_spec src_sr dst_sr) as [E | _]; [contradiction |].
  rewrite resample_dst_len_spec by assumption. cbn [rbind].
  replace (len data <=? 1)%Z with true by (symmetry; now apply Z.leb_le).
  rewrite orb_true_r. unfold np_zeros.
  destruct (Z.ltb_spec (spec_dst_len (len data) src_sr dst_sr) 0); [lia | reflexivity].
Qed.

Lemma resample_linear_short_input_witness :
  resample_linear [0.5] 16000 48000 =
    Ok (repeat 0 (Z.to_nat (spec_dst_len (len [0.5]) 16000 48000))).
Proof.
  apply (resample_linear_short_input [0.5] 16000 48000).
  - cbn; lia.
  - discriminate.
  - discriminate.
  - cbn. discriminate.
Defined.

(** C4: with equal source and destination rates [resample_linear] returns
    its input, sample for sample. *)
Theorem resample_linear_same_rate (data : list R) (sr : Z) :
  resample_linear data sr sr = Ok data.
Proof.
  unfold resample_linear. now rewrite Z.eqb_refl.
Qed.

Lemma length_np_linspace01 (n : nat) : length (np_linspace01 n) = n.
Proof. unfold np_linspace01. now rewrite length_map, length_seq. Qed.

(** [int] of a float that is not negative is its integer part. *)
Lemma py_int_floor (q : Q) :
  (0 <= q)%Q ->
  (0 <= py_int q)%Z /\
  (inject_Z (py_int q) <= q)%Q /\ (q < inject_Z (py_int q) + 1)%Q.
Proof.
  destruct q as [n d]. unfold Qle, Qlt, py_int. cbn.
  intros Hn. rewrite Z.mul_1_r in Hn.
  rewrite Z.quot_div_nonneg by lia.
  pose proof (Z.div_mod n (Zpos d) ltac:(lia)) as Hdm.
  pose proof (Z.mod_pos_bound n (Zpos d) ltac:(lia)) as Hmod.
  pose proof (Z.div_pos n (Zpos d) Hn ltac:(lia)) as Hdiv.
  repeat apply conj; nia.
Qed.

(** Two floats less than one apart have integer parts at most one apart. *)
Lemma py_int_near (p e : Q) :
  (0 <= p)%Q -> (0 <= e)%Q -> (e - 1 < p)%Q -> (p < e + 1)%Q ->
  (py_int e - 1 <= py_int p <= py_int e + 1)%Z.
Proof.
  intros Hp He Hlo Hhi.
  destruct (py_int_floor p Hp) as (_ & Hp1 & Hp2).
  destruct (py_int_floor e He) as (_ & He1 & He2).
  assert (H1 : (inject_Z (py_int p) < inject_Z (py_int e) + 2)%Q).
  { generalize dependent (inject_Z (py_int p)).
    generalize dependent (inject_Z (py_int e)). intros; Lqa.lra. }
  assert (H2 : (inject_Z (py_int e) < inject_Z (py_int p) + 2)%Q).
  { generalize dependent (inject_Z (py_int p)).
    generalize dependent (inject_Z (py_int e)). intros; Lqa.lra. }
  change 2%Q with (inject_Z 2) in H1, H2.
  rewrite <- inject_Z_plus in H1, H2.
  rewrite <- Zlt_Qlt in H1, H2. lia.
Qed.

(** The two roundings move a product of at most [2 ^ 51] by less than one. *)
Lemma rounded_product_near (N r rf p pf e : Q) :
  let u := (1 # 2 ^ 53)%Q in
  (0 <= N)%Q -> (0 <= r)%Q ->
  (e == N * r)%Q -> (e <= inject_Z (2 ^ 51))%Q ->
  (r * (1 - u) <= rf)%Q -> (rf <= r * (1 + u))%Q ->
  (p == N * rf)%Q ->
  (p * (1 - u) <= pf)%Q -> (pf <= p * (1 + u))%Q ->
  (0 <= pf)%Q /\ (e - 1 < pf)%Q /\ (pf < e + 1)%Q.
Proof.
  intros u HN Hr He Hmax Hrf1 Hrf2 Hp Hpf1 Hpf2.
  subst u. change (2 ^ 53)%positive with 9007199254740992%positive in *.
  set (u := (1 # 9007199254740992)%Q) in *.
  assert (H1 : (0 <= N * (rf - r * (1 - u)))%Q)
    by (apply Qmult_le_0_compat; [exact HN | Lqa.lra]).
  assert (H2 : (0 <= N * (r * (1 + u) - rf))%Q)
    by (apply Qmult_le_0_compat; [exact HN | Lqa.lra]).
  assert (He0 : (0 <= N * r)%Q) by (apply Qmult_le_0_compat; assumption).
  assert (Hp1 : (e * (1 - u) <= p)%Q) by (rewrite Hp, He; unfold u in *; Lqa.lra).
  assert (Hp2 : (p <= e * (1 + u))%Q) by (rewrite Hp, He; unfold u in *; Lqa.lra).
  rewrite <- He in He0.
  change (inject_Z (2 ^ 51)) with (2251799813685248 # 1)%Q in Hmax.
  unfold u in *. repeat apply conj; Lqa.lra.
Qed.

Ltac eval_pow :=
  repeat match goal with
         | H : context [(2 ^ ?k)%positive] |- _ =>
             let c := eval vm_compute in (2 ^ k)%positive in
             change (2 ^ k)%positive with c in H
         | |- context [(2 ^ ?k)%positive] =>
             let c := eval vm_compute in (2 ^ k)%positive in
             change (2 ^ k)%positive with c
         | H : context [inject_Z (2 ^ ?k)] |- _ =>
             let c := eval vm_compute in (inject_Z (2 ^ k)) in
             change (inject_Z (2 ^ k)) with c in H
         | |- context [inject_Z (2 ^ ?k)] =>
             let c := eval vm_compute in (inject_Z (2 ^ k)) in
             change (inject_Z (2 ^ k)) with c
         end.

(** X4: between two different positive rates, [resample_linear] raises
    nothing and returns a buffer of exactly the destination length it
    computed, and that length is within one sample of
    [int(len(data) * dst_rate / src_rate)].  The two need not be equal: the
    quotient of the rates and its product with the length are each rounded
    to a double before [int] truncates. *)
Theorem rounded_resample_linear_length (fl : Q -> Q) (data : list R)
  (src_sr dst_sr : Z) :
  double_rounding fl ->
  (0 < src_sr < 2 ^ 53)%Z ->
  (0 < dst_sr < 2 ^ 53)%Z ->
  src_sr <> dst_sr ->
  (len data * dst_sr <= 2 ^ 51 * src_sr)%Z ->
  exists out dst_len,
    rounded_resample_dst_len fl (len data) src_sr dst_sr = Ok dst_len /\
    rounded_resample_linear fl data src_sr dst_sr = Ok out /\
    len out = dst_len /\
    (spec_dst_len (len data) src_sr dst_sr - 1 <= dst_len
     <= spec_dst_len (len data) src_sr dst_sr + 1)%Z.
Proof.
  intros [Hzero Hfl] Hsrc Hdst Hne Hprod.
  pose proof (len_nonneg data) as Hn.
  set (n := len data) in *.
  set (S := inject_Z src_sr). set (D := inject_Z dst_sr). set (N := inject_Z n).
  set (r := (D / S)%Q).
  assert (HS1 : (1 <= S)%Q) by (unfold S; change 1%Q with (inject_Z 1);
                               rewrite <- Zle_Qle; lia).
  assert (HS2 : (S <= inject_Z (2 ^ 53))%Q) by (unfold S; rewrite <- Zle_Qle; lia).
  assert (HD1 : (1 <= D)%Q) by (unfold D; change 1%Q with (inject_Z 1);
                               rewrite <- Zle_Qle; lia).
  assert (HD2 : (D <= inject_Z (2 ^ 53))%Q) by (unfold D; rewrite <- Zle_Qle; lia).
  assert (HN0 : (0 <= N)%Q) by (unfold N; change 0%Q with (inject_Z 0);
                               rewrite <- Zle_Qle; lia).
  assert (HND : (N * D <= inject_Z (2 ^ 51) * S)%Q).
  { unfold N, D, S. rewrite <- !inject_Z_mult, <- Zle_Qle. exact Hprod. }
  assert (HS0 : (0 < S)%Q) by Lqa.lra.
  assert (Hr1 : ((1 # 2 ^ 53) <= r)%Q).
  { unfold r. apply Qle_shift_div_l; [exact HS0 |]. eval_pow. Lqa.lra. }
  assert (Hr2 : (r <= inject_Z (2 ^ 53))%Q).
  { unfold r. apply Qle_shift_div_r; [exact HS0 |].
    assert (0 <= (inject_Z (2 ^ 53) - 1) * (S - 1))%Q
      by (apply Qmult_le_0_compat; eval_pow; Lqa.lra).
    eval_pow. Lqa.lra. }
  assert (He : (N * D / S == N * r)%Q) by (unfold r; field; Lqa.lra).
  assert (Hemax : (N * r <= inject_Z (2 ^ 51))%Q).
  { rewrite <- He. apply Qle_shift_div_r; [exact HS0 | exact HND]. }
  assert (Hr0 : (0 <= r)%Q) by (eval_pow; Lqa.lra).
  destruct (Hfl r) as [Hrf1 Hrf2].
  { eval_pow. Lqa.lra. }
  { eval_pow. Lqa.lra. }
  set (rf := fl r) in *.
  assert (Hspec : spec_dst_len n src_sr dst_sr = py_int (N * r)%Q).
  { unfold spec_dst_len. apply py_int_Qeq. exact He. }
  assert (Hlen : rounded_resample_dst_len fl n src_sr dst_sr
                 = Ok (py_int (fl (N * rf)%Q))).
  { unfold rounded_resample_dst_len, py_truediv.
    destruct (Z.eqb_spec src_sr 0) as [E | _]; [lia | reflexivity]. }
  assert (Hnear : (0 <= py_int (fl (N * rf)%Q))%Z /\
                  (py_int (N * r)%Q - 1 <= py_int (fl (N * rf)%Q)
                   <= py_int (N * r)%Q + 1)%Z).
  { destruct (Z.eq_dec n 0) as [E0 | Hn1].
    - assert (HN : (N == 0)%Q) by (unfold N; rewrite E0; reflexivity).
      assert (E1 : py_int (fl (N * rf)%Q) = 0%Z).
      { change 0%Z with (py_int 0). apply py_int_Qeq. apply Hzero.
        rewrite HN. ring. }
      assert (E2 : py_int (N * r)%Q = 0%Z).
      { change 0%Z with (py_int 0). apply py_int_Qeq. rewrite HN. ring. }
      rewrite E1, E2. lia.
    - assert (HN1 : (1 <= N)%Q) by (unfold N; change 1%Q with (inject_Z 1);
                                   rewrite <- Zle_Qle; lia).
      assert (Hrf0 : (0 <= rf)%Q) by (eval_pow; Lqa.lra).
      assert (Hq1 : (0 <= (N - 1) * rf)%Q)
        by (apply Qmult_le_0_compat; Lqa.lra).
      assert (Hq2 : (0 <= N * (r * (1 + (1 # 2 ^ 53)) - rf))%Q)
        by (apply Qmult_le_0_compat; Lqa.lra).
      destruct (Hfl (N * rf)%Q) as [Hpf1 Hpf2].
      { eval_pow. Lqa.lra. }
      { eval_pow. Lqa.lra. }
      destruct (rounded_product_near N r rf (N * rf)%Q (fl (N * rf)%Q) (N * r)%Q
                  HN0 Hr0 ltac:(reflexivity) Hemax Hrf1 Hrf2 ltac:(reflexivity)
                  Hpf1 Hpf2) as (Hpf0 & Hlo & Hhi).
      assert (He0 : (0 <= N * r)%Q) by (apply Qmult_le_0_compat; assumption).
      split; [apply (py_int_floor _ Hpf0) |].
      apply py_int_near; assumption. }
  destruct Hnear as [Hpos Hnear].
  set (dst_len := py_int (fl (N * rf)%Q)) in *.
  assert (Hout : exists out,
             rounded_resample_linear fl data src_sr dst_sr = Ok out /\
             len out = dst_len).
  { unfold rounded_resample_linear. fold n.
    destruct (Z.eqb_spec src_sr dst_sr) as [E | _]; [contradiction |].
    rewrite Hlen. cbn [rbind].
    destruct ((dst_len <=? 1) || (n <=? 1))%Z eqn:Hshort.
    - unfold np_zeros. destruct (Z.ltb_spec dst_len 0); [lia |].
      eexists. split; [reflexivity |]. rewrite len_repeat. lia.
    - apply orb_false_iff in Hshort as [Hd _]. apply Z.leb_gt in Hd.
      eexists. split; [reflexivity |].
      unfold np_interp, len. rewrite length_map, length_np_linspace01. lia. }
  destruct Hout as (out & Hout & Hlo).
  exists out, dst_len. rewrite Hspec. auto.
Qed.

Lemma rounded_resample_linear_length_witness :
  let fl : Q -> Q := fun q => q in
  let data : list R := [0.5; 0.25; -0.5] in
  double_rounding fl /\
  exists out dst_len,
    rounded_resample_dst_len fl (len data) 16000 48000 = Ok dst_len /\
    rounded_resample_linear fl data 16000 48000 = Ok out /\
    len out = dst_len /\
    (spec_dst_len (len data) 16000 48000 - 1 <= dst_len
     <= spec_dst_len (len data) 16000 48000 + 1)%Z.
Proof.
  cbv zeta.
  assert (Hid : double_rounding (fun q => q)).
  { split; [auto |]. intros q H1 H2. eval_pow. split; Lqa.lra. }
  split; [exact Hid |].
  apply (rounded_resample_linear_length (fun q => q) [0.5; 0.25; -0.5] 16000 48000
           Hid); [split; reflexivity | split; reflexivity | discriminate |].
  cbn. discriminate.
Defined.

(** ** The rolling buffer *)

Lemma max_buffer_samples_value : max_buffer_samples = 80000%Z.
Proof. reflexivity. Qed.

Lemma process_samples_value : process_samples = 16000%Z.
Proof. reflexivity. Qed.

Lemma overlap_size_value : overlap_size = 8000%Z.
Proof. reflexivity. Qed.

Lemma window_size_value (b : list R) : window_size b = Z.min 48000 (len b).
Proof. reflexivity. Qed.

Lemma append_and_trim_bounded (buf frame : list R) :
  (len (append_and_trim buf frame) <= max_buffer_samples)%Z.
Proof.
  unfold append_and_trim.
  destruct (Z.ltb_spec max_buffer_samples (len (buf ++ frame))) as [Hgt | Hle].
  - rewrite len_py_slice_from, max_buffer_samples_value. cbn. lia.
  - exact Hle.
Qed.

Lemma remove_front_le (r : Z) (b : list R) : (len (remove_front r b) <= len b)%Z.
Proof.
  unfold remove_front.
  destruct (r <? len b)%Z; [apply len_py_slice_from_le | lia].
Qed.

Lemma capture_iteration_le (buf frame : list R) :
  (len (snd (capture_iteration buf frame)) <= len (append_and_trim buf frame))%Z.
Proof.
  unfold capture_iteration.
  destruct (process_samples <=? len (append_and_trim buf frame))%Z; [| cbn; lia].
  destruct (Rltb silence_threshold _).
  - destruct (window_size _ <=? len _)%Z; cbn [snd]; [apply remove_front_le | lia].
  - cbn [snd]. apply remove_front_le.
Qed.

Lemma capture_run_snoc (frames : list (list R)) (frame : list R) :
  capture_run (frames ++ [frame]) =
  snd (capture_iteration (capture_run frames) frame).
Proof. unfold capture_run. now rewrite fold_left_app. Qed.

(** C5: the append-and-trim step leaves at most [max_buffer_samples]
    samples (five seconds at 16 kHz) in the buffer, whatever the buffer and
    the frame; so does a whole pass of the loop body, and so does any
    number of passes on frames of any size. *)
Theorem rolling_buffer_bounded :
  max_buffer_samples = (5 * TARGET_SR)%Z /\
  (forall buf frame : list R,
      (len (append_and_trim buf frame) <= max_buffer_samples)%Z) /\
  (forall buf frame : list R,
      (len (snd (capture_iteration buf frame)) <= max_buffer_samples)%Z) /\
  (forall frames : list (list R),
      (len (capture_run frames) <= max_buffer_samples)%Z).
Proof.
  split; [reflexivity |].
  split; [exact append_and_trim_bounded |].
  assert (Hit : forall buf frame : list R,
             (len (snd (capture_iteration buf frame)) <= max_buffer_samples)%Z).
  { intros buf frame.
    pose proof (capture_iteration_le buf frame).
    pose proof (append_and_trim_bounded buf frame). lia. }
  split; [exact Hit |].
  intros frames. induction frames as [| frame frames _] using rev_ind.
  - rewrite max_buffer_samples_value. cbn. lia.
  - rewrite capture_run_snoc. apply Hit.
Qed.

(** X5: the trim cuts at the front: what [append_and_trim] leaves is the
    newest part of the buffer with the frame appended. *)
Theorem append_and_trim_keeps_newest (buf frame : list R) :
  exists dropped, buf ++ frame = dropped ++ append_and_trim buf frame.
Proof.
  unfold append_and_trim.
  destruct (max_buffer_samples <? len (buf ++ frame))%Z.
  - unfold py_slice_from. eexists. symmetry. apply firstn_skipn.
  - now exists [].
Qed.

(** What a pass that dispatches a window does to the buffer. *)
Lemma capture_iteration_speech (buf frame win buf' : list R) :
  capture_iteration buf frame = (SpeechWindow win, buf') ->
  let b := append_and_trim buf frame in
  (process_samples <= len b)%Z /\
  silence_threshold < energy (py_slice_from (- process_samples) b) /\
  win = py_slice_from (- window_size b) b /\
  buf' = remove_front (window_size b - overlap_size) b.
Proof.
  intros H b. unfold capture_iteration in H. fold b in H.
  destruct (Z.leb_spec process_samples (len b)) as [Hp | Hp]; [| discriminate].
  destruct (Rltb silence_threshold _) eqn:He; [| discriminate].
  destruct (window_size b <=? len b)%Z; [| discriminate].
  injection H as <- <-.
  repeat split; try assumption. now apply Rltb_true.
Qed.

(** C6: when a pass dispatches a speech window (the last [len(window)]
    samples of the buffer), the buffer loses exactly its first
    [len(window) - overlap_size] samples, [overlap_size] being half a second
    (8000 samples), at least 0 and less than the window.  What the buffer
    still holds of the window, the tail the two share, is at least the
    overlap and less than the window. *)
Theorem dispatch_keeps_overlap (buf frame win buf' : list R) :
  capture_iteration buf frame = (SpeechWindow win, buf') ->
  let b := append_and_trim buf frame in
  let removed := (len b - len buf')%Z in
  let kept := Z.min (len buf') (len win) in
  win = skipn (Z.to_nat (len b - len win)) b /\
  buf' = skipn (Z.to_nat (len win - overlap_size)) b /\
  removed = (len win - overlap_size)%Z /\
  (2 * overlap_size = TARGET_SR)%Z /\
  (0 <= overlap_size < len win)%Z /\
  skipn (Z.to_nat (len win - kept)) win = skipn (Z.to_nat (len buf' - kept)) buf' /\
  (overlap_size <= kept < len win)%Z.
Proof.
  intros H b removed kept. subst removed kept.
  pose proof (append_and_trim_bounded buf frame) as Hmax. fold b in Hmax.
  rewrite max_buffer_samples_value in Hmax.
  apply capture_iteration_speech in H. fold b in H.
  destruct H as (Hp & _ & Hwin & Hbuf).
  rewrite process_samples_value in Hp.
  assert (Hw : len win = Z.min 48000 (len b)).
  { rewrite Hwin, len_py_slice_from, window_size_value.
    destruct (Z.ltb_spec (- Z.min 48000 (len b)) 0); lia. }
  assert (Hwin' : win = skipn (Z.to_nat (len b - len win)) b).
  { rewrite Hw. rewrite Hwin at 1. rewrite window_size_value. unfold py_slice_from.
    destruct (Z.ltb_spec (- Z.min 48000 (len b)) 0); [| lia].
    f_equal. lia. }
  assert (Hb : buf' = skipn (Z.to_nat (len win - overlap_size)) b).
  { rewrite Hbuf, window_size_value, <- Hw. unfold remove_front, py_slice_from.
    rewrite overlap_size_value.
    destruct (Z.ltb_spec (len win - 8000) (len b)); [| lia].
    destruct (Z.ltb_spec (len win - 8000) 0); [lia | reflexivity]. }
  assert (Hl : len buf' = (len b - (len win - overlap_size))%Z).
  { rewrite Hb, len_skipn, overlap_size_value. lia. }
  split; [exact Hwin' |]. split; [exact Hb |].
  rewrite overlap_size_value in *.
  repeat split; try lia.
  set (lw := len win) in *. set (lb := len buf') in *. clearbody lw lb.
  rewrite Hwin', Hb, !skipn_skipn. f_equal. lia.
Qed.

Lemma np_sum_map_repeat (f : R -> R) (c : R) (n : nat) :
  np_sum (map f (repeat c n)) = INR n * f c.
Proof.
  induction n as [| n IH].
  - cbn. lra.
  - rewrite S_INR. cbn [repeat map np_sum fold_right] in *.
    fold (np_sum (map f (repeat c n))). rewrite IH. lra.
Qed.

Lemma energy_repeat (c : R) (n : nat) : (0 < n)%nat -> energy (repeat c n) = c ^ 2.
Proof.
  intros Hn. unfold energy, np_mean, np_square.
  rewrite np_sum_map_repeat. unfold len.
  rewrite length_map, repeat_length, <- INR_IZR_INZ.
  assert (0 < INR n) by (apply lt_0_INR; lia).
  field. lra.
Qed.

Lemma capture_iteration_dispatches (buf frame : list R) :
  let b := append_and_trim buf frame in
  (process_samples <= len b)%Z ->
  silence_threshold < energy (py_slice_from (- process_samples) b) ->
  capture_iteration buf frame =
    (SpeechWindow (py_slice_from (- window_size b) b),
     remove_front (window_size b - overlap_size) b).
Proof.
  intros b Hp He. unfold capture_iteration. fold b.
  destruct (Z.leb_spec process_samples (len b)) as [_ | Hlt]; [| lia].
  apply Rltb_true in He. unfold energy in He. rewrite He.
  rewrite window_size_value.
  destruct (Z.leb_spec (Z.min 48000 (len b)) (len b)); [reflexivity | lia].
Qed.

(** One second of full-scale samples into the empty buffer is dispatched. *)
Lemma one_second_dispatches :
  let frame := repeat 1 (Z.to_nat 16000) in
  capture_iteration [] frame =
    (SpeechWindow (py_slice_from (- window_size frame) frame),
     remove_front (window_size frame - overlap_size) frame).
Proof.
  intros frame.
  assert (Hlen : len frame = 16000%Z) by (unfold frame; rewrite len_repeat; lia).
  assert (Hb : append_and_trim [] frame = frame).
  { unfold append_and_trim. rewrite app_nil_l, Hlen. reflexivity. }
  pose proof (capture_iteration_dispatches [] frame) as H.
  cbv zeta in H. rewrite Hb in H. apply H.
  - rewrite Hlen. discriminate.
  - replace (py_slice_from (- process_samples) frame) with frame
      by (unfold py_slice_from; rewrite Hlen; reflexivity).
    unfold frame. rewrite energy_repeat by lia.
    unfold silence_threshold. lra.
Qed.

Lemma dispatch_keeps_overlap_witness :
  let frame := repeat 1 (Z.to_nat 16000) in
  let b := append_and_trim [] frame in
  let win := py_slice_from (- window_size frame) frame in
  let buf' := remove_front (window_size frame - overlap_size) frame in
  let removed := (len b - len buf')%Z in
  let kept := Z.min (len buf') (len win) in
  win = skipn (Z.to_nat (len b - len win)) b /\
  buf' = skipn (Z.to_nat (len win - overlap_size)) b /\
  removed = (len win - overlap_size)%Z /\
  (2 * overlap_size = TARGET_SR)%Z /\
  (0 <= overlap_size < len win)%Z /\
  skipn (Z.to_nat (len win - kept)) win = skipn (Z.to_nat (len buf' - kept)) buf' /\
  (overlap_size <= kept < len win)%Z.
Proof.
  exact (dispatch_keeps_overlap [] (repeat 1 (Z.to_nat 16000)) _ _ one_second_dispatches).
Defined.

(** ** The enhancer's final normalization *)

Lemma fold_Rmax_ge (xs : list R) (x : R) : x <= fold_left Rmax xs x.
Proof.
  revert x; induction xs as [| y xs IH]; intros x; cbn.
  - lra.
  - eapply Rle_trans; [apply (Rmax_l x y) | apply IH].
Qed.

Lemma fold_Rmax_scale (c : R) (xs : list R) (x : R) :
  0 <= c ->
  fold_left Rmax (map (Rmult c) xs) (c * x) = c * fold_left Rmax xs x.
Proof.
  intros Hc. revert x; induction xs as [| y xs IH]; intros x; cbn.
  - reflexivity.
  - rewrite RmaxRmult by assumption. apply IH.
Qed.

Lemma peak_nonneg (audio : list R) (p : R) : peak audio = Ok p -> 0 <= p.
Proof.
  unfold peak, np_max. destruct audio as [| x xs]; cbn; [discriminate |].
  intros [= <-].
  eapply Rle_trans; [apply (Rabs_pos x) | apply fold_Rmax_ge].
Qed.

Lemma map_Rabs_scale (m h : R) (audio : list R) :
  0 < m -> 0 <= h ->
  map Rabs (map (fun x => x / m * h) audio) = map (Rmult (h / m)) (map Rabs audio).
Proof.
  intros Hm Hh. rewrite !map_map. apply map_ext. intros x.
  replace (x / m * h) with (h / m * x) by (field; lra).
  rewrite Rabs_mult. f_equal. apply Rabs_right.
  apply Rle_ge. unfold Rdiv. apply Rmult_le_pos; [lra |].
  left. now apply Rinv_0_lt_compat.
Qed.

Lemma peak_scale (m h p : R) (audio : list R) :
  0 < m -> 0 <= h ->
  peak audio = Ok p ->
  peak (map (fun x => x / m * h) audio) = Ok (h / m * p).
Proof.
  intros Hm Hh. unfold peak. rewrite map_Rabs_scale by assumption.
  destruct audio as [| x xs]; cbn; [discriminate |].
  intros [= <-]. f_equal. apply fold_Rmax_scale.
  unfold Rdiv. apply Rmult_le_pos; [lra |]. left. now apply Rinv_0_lt_compat.
Qed.

(** A signal with a peak that is not zero leaves [peak_normalize] with its
    peak on the headroom. *)
Lemma peak_normalize_peak (h p : R) (audio : list R) :
  0 <= h -> peak audio = Ok p -> p <> 0 ->
  exists out, peak_normalize h audio = Ok out /\ peak out = Ok h.
Proof.
  intros Hh Hp Hne.
  assert (0 < p) by (pose proof (peak_nonneg _ _ Hp); lra).
  unfold peak_normalize. rewrite Hp. cbn [rbind].
  destruct (Rlt_dec 0 p) as [_ | Hn]; [| contradiction].
  eexists; split; [reflexivity |].
  rewrite (peak_scale p h p) by assumption.
  f_equal. field. lra.
Qed.

(** C8: on a signal whose peak is not zero, the final normalization run
    twice leaves the same peak as run once; in exact arithmetic both peaks
    are the headroom 0.85 itself. *)
Theorem final_normalize_twice_same_peak (audio : list R) (p : R) :
  peak audio = Ok p ->
  p <> 0 ->
  exists once twice,
    final_normalize audio = Ok once /\
    final_normalize once = Ok twice /\
    peak once = Ok 0.85 /\
    peak twice = peak once.
Proof.
  intros Hp Hne. unfold final_normalize.
  destruct (peak_normalize_peak 0.85 p audio)
    as (once & Hon & Hpo); [lra | assumption | assumption |].
  destruct (peak_normalize_peak 0.85 0.85 once)
    as (twice & Htw & Hpt); [lra | assumption | lra |].
  exists once, twice. repeat split; try assumption. congruence.
Qed.

Lemma peak_example : peak [0.5; -1] = Ok 1.
Proof.
  unfold peak, np_max. cbn [map fold_left]. f_equal.
  rewrite (Rabs_right 0.5) by lra.
  rewrite (Rabs_left (-1)) by lra.
  unfold Rmax. destruct (Rle_dec 0.5 (- -1)); lra.
Qed.

Lemma final_normalize_twice_same_peak_witness :
  exists once twice,
    final_normalize [0.5; -1] = Ok once /\
    final_normalize once = Ok twice /\
    peak once = Ok 0.85 /\
    peak twice = peak once.
Proof.
  apply (final_normalize_twice_same_peak [0.5; -1] 1).
  - exact peak_example.
  - lra.
Defined.

Lemma fold_Rmax_upper (xs : list R) (x y : R) :
  In y (x :: xs) -> y <= fold_left Rmax xs x.
Proof.
  revert x; induction xs as [| z xs IH]; intros x [-> | Hin]; cbn.
  - lra.
  - contradiction.
  - eapply Rle_trans; [apply (Rmax_l y z) | apply fold_Rmax_ge].
  - destruct Hin as [-> | Hin].
    + eapply Rle_trans; [apply (Rmax_r x y) | apply fold_Rmax_ge].
    + apply IH. now right.
Qed.

Lemma fold_Rmax_attained (xs : list R) (x : R) : In (fold_left Rmax xs x) (x :: xs).
Proof.
  revert x; induction xs as [| z xs IH]; intros x; cbn.
  - now left.
  - destruct (IH (Rmax x z)) as [E | Hin].
    + rewrite <- E. unfold Rmax. destruct (Rle_dec x z); [right; now left | now left].
    + right; now right.
Qed.

(** The peak is an upper bound of the magnitudes, and one sample has it. *)
Lemma peak_bounds (audio : list R) (p : R) :
  peak audio = Ok p ->
  (forall x, In x audio -> Rabs x <= p) /\ (exists x, In x audio /\ Rabs x = p).
Proof.
  unfold peak, np_max. destruct audio as [| a rest]; cbn [map]; [discriminate |].
  intros [= <-]. split.
  - intros x Hin. apply fold_Rmax_upper.
    change (Rabs a :: map Rabs rest) with (map Rabs (a :: rest)).
    now apply in_map.
  - pose proof (fold_Rmax_attained (map Rabs rest) (Rabs a)) as Hin.
    change (Rabs a :: map Rabs rest) with (map Rabs (a :: rest)) in Hin.
    apply in_map_iff in Hin as (x & E & Hin). now exists x.
Qed.

Lemma peak_intro (audio : list R) (m : R) :
  (forall x, In x audio -> Rabs x <= m) ->
  (exists x, In x audio /\ Rabs x = m) ->
  peak audio = Ok m.
Proof.
  intros Hle (x0 & Hin0 & E0).
  destruct (peak audio) as [p | e] eqn:Hp.
  - destruct (peak_bounds audio p Hp) as (Hub & x1 & Hin1 & E1).
    f_equal. apply Rle_antisym.
    + rewrite <- E1. now apply Hle.
    + rewrite <- E0. now apply Hub.
  - destruct audio; [contradiction | discriminate].
Qed.

Lemma rounding_id : rounding (fun x => x).
Proof. repeat split; auto. Qed.

(** One rounded sample stays within the headroom, and a sample of peak
    magnitude lands on it. *)
Lemma rounded_sample (fl : R -> R) (h m x : R) :
  rounding fl -> fl h = h -> 0 < h -> 0 < m -> Rabs x <= m ->
  Rabs (fl (fl (x / m) * h)) <= h /\
  (Rabs x = m -> Rabs (fl (fl (x / m) * h)) = h).
Proof.
  intros (Hmono & Hsym & H1 & _) Hh Hpos Hm Hx.
  assert (Hm1 : fl (-1) = -1).
  { replace (-1) with (Ropp 1) by lra. now rewrite Hsym, H1. }
  assert (Hmh : fl (- h) = - h) by (rewrite Hsym, Hh; reflexivity).
  assert (Hx' : - m <= x <= m)
    by (revert Hx; unfold Rabs; destruct (Rcase_abs x); lra).
  assert (Hq : -1 <= x / m <= 1).
  { split.
    - apply Rmult_le_reg_r with m; [assumption |].
      unfold Rdiv. rewrite Rmult_assoc, Rinv_l by lra. lra.
    - apply Rmult_le_reg_r with m; [assumption |].
      unfold Rdiv. rewrite Rmult_assoc, Rinv_l by lra. lra. }
  assert (Ht : -1 <= fl (x / m) <= 1).
  { split; [rewrite <- Hm1 | rewrite <- H1]; apply Hmono; lra. }
  assert (Hth : - h <= fl (x / m) * h <= h) by nra.
  split.
  - apply Rabs_le. split; [rewrite <- Hmh | rewrite <- Hh at 2]; apply Hmono; lra.
  - intros E. unfold Rabs in E. destruct (Rcase_abs x) as [Hneg | Hnn].
    + replace (x / m) with (-1) by (field_simplify_eq; lra).
      rewrite Hm1. replace (-1 * h) with (- h) by ring.
      rewrite Hmh, Rabs_Ropp. apply Rabs_right. lra.
    + replace (x / m) with 1 by (field_simplify_eq; lra).
      rewrite H1, Rmult_1_l, Hh. apply Rabs_right. lra.
Qed.

Lemma rounded_peak_normalize_peak (fl : R -> R) (h p : R) (audio : list R) :
  rounding fl -> fl h = h -> 0 < h ->
  peak audio = Ok p -> p <> 0 ->
  exists out, rounded_peak_normalize fl h audio = Ok out /\ peak out = Ok h.
Proof.
  intros Hfl Hh Hpos Hp Hne.
  assert (0 < p) by (pose proof (peak_nonneg _ _ Hp); lra).
  destruct (peak_bounds audio p Hp) as (Hub & x0 & Hin0 & E0).
  unfold rounded_peak_normalize. rewrite Hp. cbn [rbind].
  destruct (Rlt_dec 0 p) as [_ | Hn]; [| contradiction].
  eexists; split; [reflexivity |].
  apply peak_intro.
  - intros y Hy. apply in_map_iff in Hy as (x & <- & Hin).
    destruct (rounded_sample fl h p x) as [Hbound _]; auto.
  - exists (fl (fl (x0 / p) * h)). split.
    + apply in_map_iff. now exists x0.
    + destruct (rounded_sample fl h p x0) as [_ Hpeak]; auto.
Qed.

(** X3: the final normalization under rounding: whatever rounding to floats is
    used, provided it keeps order and sign and leaves 1 and the headroom as
    they are, the peak after two passes is the peak after one pass, both
    being the headroom itself. *)
Theorem rounded_normalize_twice_same_peak (fl : R -> R) (h p : R)
  (audio : list R) :
  rounding fl -> fl h = h -> 0 < h ->
  peak audio = Ok p -> p <> 0 ->
  exists once twice,
    rounded_peak_normalize fl h audio = Ok once /\
    rounded_peak_normalize fl h once = Ok twice /\
    peak once = Ok h /\
    peak twice = peak once.
Proof.
  intros Hfl Hh Hpos Hp Hne.
  destruct (rounded_peak_normalize_peak fl h p audio)
    as (once & Hon & Hpo); auto.
  destruct (rounded_peak_normalize_peak fl h h once)
    as (twice & Htw & Hpt); auto; [lra |].
  exists once, twice. repeat split; try assumption. congruence.
Qed.

Lemma rounded_normalize_twice_same_peak_witness :
  exists once twice,
    rounded_peak_normalize (fun x => x) 0.85 [0.5; -1] = Ok once /\
    rounded_peak_normalize (fun x => x) 0.85 once = Ok twice /\
    peak once = Ok 0.85 /\
    peak twice = peak once.
Proof.
  apply (rounded_normalize_twice_same_peak (fun x => x) 0.85 1 [0.5; -1]).
  - exact rounding_id.
  - reflexivity.
  - lra.
  - exact peak_example.
  - lra.
Defined.

(** ** The other stages of the enhancer *)

Lemma nth_pre_emphasis_tail (a0 : R) (rest : list R) (k : nat) :
  (k < length rest)%nat ->
  nth k (np_subtract rest (map (fun x => 0.95 * x) (removelast (a0 :: rest)))) 0 =
  nth k rest 0 - 0.95 * nth k (a0 :: rest) 0.
Proof.
  revert a0 k. induction rest as [| r rest IH]; intros a0 k Hk; [cbn in Hk; lia |].
  change (removelast (a0 :: r :: rest)) with (a0 :: removelast (r :: rest)).
  destruct k as [| k]; [reflexivity |].
  cbn [map np_subtract nth]. apply IH. cbn in Hk. lia.
Qed.

Lemma length_removelast_cons (a0 : R) (rest : list R) :
  length (removelast (a0 :: rest)) = length rest.
Proof.
  revert a0. induction rest as [| r rest IH]; intros a0; [reflexivity |].
  change (removelast (a0 :: r :: rest)) with (a0 :: removelast (r :: rest)).
  cbn [length]. f_equal. apply IH.
Qed.

Lemma length_np_subtract (a b : list R) :
  length (np_subtract a b) = Nat.min (length a) (length b).
Proof.
  revert b; induction a as [| x a IH]; intros [| y b]; cbn; auto.
Qed.

(** X6: the pre-emphasis stage computes [y[0] = x[0]] and
    [y[n] = x[n] - 0.95 * x[n-1]], on as many samples as it was given. *)
Theorem pre_emphasize_formula (audio out : list R) :
  pre_emphasize audio = Ok out ->
  length out = length audio /\
  nth 0 out 0 = nth 0 audio 0 /\
  (forall n : nat,
      (S n < length audio)%nat ->
      nth (S n) out 0 = nth (S n) audio 0 - 0.95 * nth n audio 0).
Proof.
  unfold pre_emphasize. destruct audio as [| a0 rest]; [discriminate |].
  intros [= <-]. split; [| split].
  - cbn [length]. f_equal. rewrite length_np_subtract, length_map.
    change (match rest with [] => [] | _ :: _ => a0 :: removelast rest end)
      with (removelast (a0 :: rest)).
    rewrite length_removelast_cons. lia.
  - reflexivity.
  - intros n Hn. cbn [nth]. apply nth_pre_emphasis_tail. cbn in Hn. lia.
Qed.

Lemma pre_emphasize_formula_witness :
  let audio : list R := [1; 2; 1.9] in
  let out : list R := [1; 1.05; 0] in
  length out = length audio /\
  nth 0 out 0 = nth 0 audio 0 /\
  (forall n : nat,
      (S n < length audio)%nat ->
      nth (S n) out 0 = nth (S n) audio 0 - 0.95 * nth n audio 0).
Proof.
  apply (pre_emphasize_formula [1; 2; 1.9] [1; 1.05; 0]).
  unfold pre_emphasize. cbn [removelast map np_subtract]. repeat f_equal; lra.
Defined.

(** X7: the padding stage only appends zeros, and brings a short signal up
    to [int(sample_rate * 0.5)] samples. *)
Theorem pad_min_length_spec (audio : list R) (sample_rate : Z) :
  (exists k : nat, pad_min_length audio sample_rate = audio ++ repeat 0 k) /\
  len (pad_min_length audio sample_rate) =
    Z.max (len audio) (py_int (inject_Z sample_rate * 0.5)%Q).
Proof.
  unfold pad_min_length.
  destruct (Z.ltb_spec (len audio) (py_int (inject_Z sample_rate * 0.5)%Q)).
  - split; [eexists; reflexivity |]. rewrite len_app, len_repeat. lia.
  - split; [exists 0%nat; cbn; now rewrite app_nil_r | lia].
Qed.

(** ** [detect_speech_activity] *)

Lemma in_band_spec (lo hi : R) (v : npfloat) :
  in_band lo hi v = true <-> strictly_between lo hi v.
Proof.
  unfold strictly_between. destruct v as [x | |]; cbn.
  - rewrite andb_true_iff, !Rltb_true. split.
    + intros H. exists x. now split.
    + intros (y & [= <-] & H). exact H.
  - split; [discriminate | intros (y & E & _); discriminate].
  - split; [discriminate | intros (y & E & _); discriminate].
Qed.

Lemma np_sum_zero (l : list R) : Forall (fun x => x = 0) l -> np_sum l = 0.
Proof.
  induction 1 as [| x l Hx _ IH]; cbn; [reflexivity |].
  fold (np_sum l). rewrite Hx, IH. lra.
Qed.

Lemma np_sum_nonneg (l : list R) : Forall (fun x => 0 <= x) l -> 0 <= np_sum l.
Proof.
  induction 1 as [| x l Hx _ IH]; cbn; [lra |].
  fold (np_sum l). lra.
Qed.

(** A sum of magnitudes is zero only when every magnitude is. *)
Lemma np_sum_nonneg_zero (l : list R) :
  Forall (fun x => 0 <= x) l -> np_sum l = 0 -> Forall (fun x => x = 0) l.
Proof.
  induction 1 as [| x l Hx Hl IH]; cbn; intros Hs; constructor.
  - fold (np_sum l) in Hs. pose proof (np_sum_nonneg l Hl). lra.
  - apply IH. fold (np_sum l) in Hs. pose proof (np_sum_nonneg l Hl). lra.
Qed.

Lemma np_multiply_zero_r (a b : list R) :
  Forall (fun x => x = 0) b -> Forall (fun x => x = 0) (np_multiply a b).
Proof.
  intros Hb. revert a. induction Hb as [| y b Hy _ IH]; intros [| x a]; cbn;
    constructor.
  - rewrite Hy. lra.
  - apply IH.
Qed.

Lemma Forall_py_slice_to (P : R -> Prop) (i : Z) (l : list R) :
  Forall P l -> Forall P (py_slice_to i l).
Proof.
  unfold py_slice_to. generalize (Z.to_nat (if (i <? 0)%Z then Z.max (len l + i) 0 else i)).
  intros n H. revert n. induction H as [| x l Hx _ IH]; intros [| n]; cbn;
    constructor; auto.
Qed.

Lemma np_fft_abs_nonneg (x : list R) : Forall (fun m => 0 <= m) (np_fft_abs x).
Proof.
  unfold np_fft_abs. apply Forall_map, Forall_forall. intros k _. apply sqrt_pos.
Qed.

Lemma half_spectrum_nonneg (audio : list R) :
  Forall (fun m => 0 <= m) (half_spectrum audio).
Proof. apply Forall_py_slice_to, np_fft_abs_nonneg. Qed.

(** The spectrum of the all-zero window is zero in every bin. *)
Lemma dft_zero (n k : nat) :
  dft_re (repeat 0 n) k = 0 /\ dft_im (repeat 0 n) k = 0.
Proof.
  unfold dft_re, dft_im. split; apply np_sum_zero, Forall_map, Forall_forall;
    intros [i xi] Hin; apply in_combine_r, repeat_spec in Hin; cbn [fst snd];
    rewrite Hin; lra.
Qed.

Lemma np_fft_abs_zero (n : nat) :
  Forall (fun m => m = 0) (np_fft_abs (repeat 0 n)).
Proof.
  unfold np_fft_abs. apply Forall_map, Forall_forall. intros k _.
  destruct (dft_zero n k) as [-> ->].
  replace (0 ^ 2 + 0 ^ 2) with 0 by lra. exact sqrt_0.
Qed.

Lemma fft_sum_zero_window (n : nat) : fft_sum (repeat 0 n) = 0.
Proof.
  unfold fft_sum, half_spectrum.
  apply np_sum_zero, Forall_py_slice_to, np_fft_abs_zero.
Qed.

Lemma centroid_numerator_zero (audio freqs : list R) :
  fft_sum audio = 0 -> centroid_numerator audio freqs = 0.
Proof.
  intros H. unfold centroid_numerator.
  apply np_sum_zero, np_multiply_zero_r, np_sum_nonneg_zero;
    [apply half_spectrum_nonneg | exact H].
Qed.

Lemma Q2R_inject_Z (z : Z) : Q2R (inject_Z z) = IZR z.
Proof. unfold Q2R, inject_Z; cbn. rewrite Rinv_1. ring. Qed.

(** [1/sample_rate] is a number, and not zero, when the rate is not zero. *)
Lemma sample_spacing (sample_rate : Z) :
  sample_rate <> 0%Z ->
  exists d, py_truediv 1 sample_rate = Ok d /\ Q2R d <> 0.
Proof.
  intros H. unfold py_truediv.
  destruct (Z.eqb_spec sample_rate 0) as [E | _]; [contradiction |].
  eexists; split; [reflexivity |].
  rewrite Q2R_div by (unfold Qeq; cbn; lia).
  rewrite !Q2R_inject_Z. unfold Rdiv. rewrite Rmult_1_l.
  apply Rinv_neq_0_compat, not_0_IZR, H.
Qed.

Lemma fft_freqs_defined (audio : list R) (sample_rate : Z) :
  len audio <> 0%Z -> sample_rate <> 0%Z ->
  exists freqs, fft_freqs audio sample_rate = Ok freqs.
Proof.
  intros Hn Hsr. unfold fft_freqs.
  destruct (sample_spacing sample_rate Hsr) as (d & -> & Hd). cbn [rbind].
  unfold np_fftfreq.
  destruct (Req_dec_T (IZR (len audio) * Q2R d) 0) as [E | _].
  - exfalso. revert E. apply Rmult_integral_contrapositive_currified;
      [now apply not_0_IZR | exact Hd].
  - eexists; reflexivity.
Qed.

Lemma centroid_branch_divides (audio : list R) :
  centroid_branch_of audio = Divides <-> 0 < fft_sum audio.
Proof.
  unfold centroid_branch_of. destruct (Rlt_dec 0 (fft_sum audio)); split;
    intros; auto; try discriminate; contradiction.
Qed.

Lemma spectral_centroid_finite (audio freqs : list R) :
  exists c, spectral_centroid audio freqs = Fin c.
Proof.
  unfold spectral_centroid.
  destruct (centroid_branch_of audio) eqn:E; [| now exists 0].
  apply centroid_branch_divides in E. unfold np_true_divide.
  destruct (Req_dec_T (fft_sum audio) 0) as [Z0 | _]; [lra |].
  eexists; reflexivity.
Qed.

(** C7: when the half-spectrum magnitudes of a window sum to zero the
    detector takes the [else] arm and the spectral centroid is 0, where the
    unguarded quotient would be 0/0, a nan.  The division arm runs exactly
    when the sum is strictly positive, so the centroid is always a finite
    number; the all-zero window is such a window. *)
Theorem spectral_centroid_guard (audio freqs : list R) :
  fft_sum audio = 0 ->
  centroid_branch_of audio = Defaults /\
  spectral_centroid audio freqs = Fin 0 /\
  unguarded_centroid audio freqs = NaN /\
  (forall a : list R, centroid_branch_of a = Divides <-> 0 < fft_sum a) /\
  (forall a f : list R, exists c, spectral_centroid a f = Fin c) /\
  (forall sample_rate : Z,
      len audio <> 0%Z -> sample_rate <> 0%Z ->
      centroid_of audio sample_rate = Fin 0) /\
  (forall n : nat, fft_sum (repeat 0 n) = 0).
Proof.
  intros H.
  assert (Hb : centroid_branch_of audio = Defaults).
  { unfold centroid_branch_of. destruct (Rlt_dec 0 (fft_sum audio)); [lra | reflexivity]. }
  split; [exact Hb |].
  split; [unfold spectral_centroid; now rewrite Hb |].
  split.
  { unfold unguarded_centroid, np_true_divide.
    rewrite (centroid_numerator_zero audio freqs H), H.
    destruct (Req_dec_T 0 0); [reflexivity | contradiction]. }
  split; [exact centroid_branch_divides |].
  split; [exact spectral_centroid_finite |].
  split; [| exact fft_sum_zero_window].
  intros sample_rate Hn Hsr. unfold centroid_of.
  destruct (fft_freqs_defined audio sample_rate Hn Hsr) as (fs & ->).
  unfold spectral_centroid. now rewrite Hb.
Qed.

Lemma spectral_centroid_guard_witness :
  centroid_branch_of [0; 0] = Defaults /\
  spectral_centroid [0; 0] [0; -8000] = Fin 0 /\
  unguarded_centroid [0; 0] [0; -8000] = NaN /\
  (forall a : list R, centroid_branch_of a = Divides <-> 0 < fft_sum a) /\
  (forall a f : list R, exists c, spectral_centroid a f = Fin c) /\
  (forall sample_rate : Z,
      len [0; 0] <> 0%Z -> sample_rate <> 0%Z ->
      centroid_of [0; 0] sample_rate = Fin 0) /\
  (forall n : nat, fft_sum (repeat 0 n) = 0).
Proof.
  apply (spectral_centroid_guard [0; 0] [0; -8000]).
  exact (fft_sum_zero_window 2).
Defined.

Lemma energy_empty : energy [] = 0.
Proof. unfold energy, np_mean, np_square, Rdiv. cbn. ring. Qed.

Lemma energy_zero_window (n : nat) : energy (repeat 0 n) = 0.
Proof.
  destruct n as [| n]; [exact energy_empty |].
  rewrite energy_repeat by lia. ring.
Qed.

(** Without the early return and with a rate that is not zero, the
    detector returns the conjunction it computes. *)
Lemma detect_speech_activity_value (audio : list R) (sample_rate : Z) :
  len audio <> 0%Z -> sample_rate <> 0%Z ->
  detect_speech_activity audio sample_rate =
    Ok (Rltb 0.001 (energy audio)
        && (Rltb 0.01 (zero_crossings audio) && Rltb (zero_crossings audio) 0.3
            || in_band 200 4000 (centroid_of audio sample_rate))).
Proof.
  intros Hn Hsr. unfold detect_speech_activity, centroid_of.
  destruct (Z.eqb_spec (len audio) 0) as [E | _]; [contradiction |].
  destruct (fft_freqs_defined audio sample_rate Hn Hsr) as (freqs & ->).
  reflexivity.
Qed.

(** C2: for every window and every sample rate (a positive number of
    samples per second, below [2 ^ 53] so that a float holds it),
    [detect_speech_activity] returns [True] exactly when the mean-square
    energy exceeds 0.001 and either the zero-crossing rate is strictly
    between 0.01 and 0.3 or the spectral centroid is strictly between 200
    and 4000; on a window of zeros of any length it returns [False], the
    energy being 0. *)
Theorem detect_speech_activity_iff (audio : list R) (sample_rate : Z) :
  (0 < sample_rate < 2 ^ 53)%Z ->
  (exists b,
      detect_speech_activity audio sample_rate = Ok b /\
      (b = true <->
       0.001 < energy audio /\
       (0.01 < zero_crossings audio < 0.3 \/
        strictly_between 200 4000 (centroid_of audio sample_rate)))) /\
  (forall n : nat,
      detect_speech_activity (repeat 0 n) sample_rate = Ok false /\
      energy (repeat 0 n) = 0).
Proof.
  intros Hrate.
  assert (Hsr : sample_rate <> 0%Z) by lia.
  split.
  - destruct (Z.eq_dec (len audio) 0) as [E | Hn].
    + exists false. split.
      * unfold detect_speech_activity. now rewrite E.
      * destruct audio as [| x xs]; [| discriminate E].
        rewrite energy_empty. split; [discriminate | intros [H _]; lra].
    + eexists. split; [apply (detect_speech_activity_value _ _ Hn Hsr) |].
      rewrite andb_true_iff, orb_true_iff, andb_true_iff, !Rltb_true, in_band_spec.
      tauto.
  - intros n. split; [| apply energy_zero_window].
    destruct n as [| n]; [reflexivity |].
    rewrite detect_speech_activity_value; [| rewrite len_repeat; lia | exact Hsr].
    rewrite energy_zero_window.
    replace (Rltb 0.001 0) with false; [reflexivity |].
    symmetry. apply Rltb_false. lra.
Qed.

Lemma detect_speech_activity_iff_witness :
  (exists b,
      detect_speech_activity [0.5; -0.5] 16000 = Ok b /\
      (b = true <->
       0.001 < energy [0.5; -0.5] /\
       (0.01 < zero_crossings [0.5; -0.5] < 0.3 \/
        strictly_between 200 4000 (centroid_of [0.5; -0.5] 16000)))) /\
  (forall n : nat,
      detect_speech_activity (repeat 0 n) 16000 = Ok false /\
      energy (repeat 0 n) = 0).
Proof.
  apply (detect_speech_activity_iff [0.5; -0.5] 16000).
  split; reflexivity.
Defined.

(** At the sample rate 0 every non-empty window raises. *)
Lemma detect_speech_activity_zero_rate (audio : list R) :
  len audio <> 0%Z -> detect_speech_activity audio 0 = Raise ZeroDivisionError.
Proof.
  intros Hn. unfold detect_speech_activity.
  destruct (Z.eqb_spec (len audio) 0) as [E | _]; [contradiction | reflexivity].
Qed.

Lemma np_sign_pos (x : R) : 0 < x -> np_sign x = 1.
Proof.
  intros H. unfold np_sign.
  destruct (Rlt_dec x 0); [lra |]. destruct (Rlt_dec 0 x); [reflexivity | lra].
Qed.

Lemma np_sign_neg (x : R) : x < 0 -> np_sign x = -1.
Proof. intros H. unfold np_sign. destruct (Rlt_dec x 0); [reflexivity | lra]. Qed.

(** ** [transcribe_wav_base64] *)

Ltac step_body H :=
  match type of H with
  | context [match ?c with _ => _ end] =>
      let E := fresh "E" in
      destruct c eqn:E; cbn beta iota in H; try discriminate H
  end.

(** Every dict the body returns has its text, its word list and, on the
    faster-whisper branch, a float language probability. *)
Lemma transcribe_body_well_formed (env : whisper_env) (b64_data : string)
  (out out' : stdout) (r : json) :
  transcribe_body env b64_data out = (Ok r, out') ->
  well_formed_result r = true.
Proof.
  unfold transcribe_body, mbind, lift, try_except, mret, mraise, print.
  intros H. cbn beta in H. repeat step_body H; injection H as <- _; reflexivity.
Qed.

Lemma error_result_well_formed (e : exn) : well_formed_result (error_result e) = true.
Proof. reflexivity. Qed.

(** The handler turns every exception of the body into the error dict. *)
Lemma transcribe_wav_base64_cases (env : whisper_env) (b64_data : string)
  (out : stdout) :
  exists result out',
    transcribe_wav_base64 env b64_data out = (Ok result, out') /\
    match transcribe_body env b64_data out with
    | (Ok r, o) => result = r /\ out' = o
    | (Raise e, o) => result = error_result e /\ out' = o
    end /\
    well_formed_result result = true.
Proof.
  unfold transcribe_wav_base64, try_except.
  destruct (transcribe_body env b64_data out) as [[r | e] o] eqn:E.
  - exists r, o. repeat split.
    exact (transcribe_body_well_formed env b64_data out o r E).
  - exists (error_result e), o. repeat split.
Qed.

(** C10: [transcribe_wav_base64] returns a dict on every input and never
    lets an exception out.  When the body of its [try] returns, the dict is
    the body's; when any step of the body raises [e], the dict has the text
    empty, the words [[]] and the error [str(e)].  Either way the text is a
    string and the words are a list. *)
Theorem transcribe_wav_base64_never_raises (env : whisper_env)
  (b64_data : string) (out : stdout) :
  exists result out',
    transcribe_wav_base64 env b64_data out = (Ok result, out') /\
    match transcribe_body env b64_data out with
    | (Ok r, o) => result = r /\ out' = o
    | (Raise e, o) =>
        result = JDict [ ("text", JStr EmptyString); ("words", JList []);
                         ("error", JStr (exn_str e)) ]%string /\
        out' = o
    end /\
    is_str (dict_lookup "text" result) = true /\
    is_list (dict_lookup "words" result) = true.
Proof.
  destruct (transcribe_wav_base64_cases env b64_data out) as (r & o & E & C & W).
  exists r, o. split; [exact E |]. split; [exact C |].
  unfold well_formed_result in W.
  apply andb_true_iff in W as [W _]. now apply andb_true_iff in W.
Qed.

(** ** Transcription events *)

Lemma transcribe_wav_base64_well_formed (env : whisper_env) (b64_data : string)
  (out out' : stdout) (result : json) :
  transcribe_wav_base64 env b64_data out = (Ok result, out') ->
  well_formed_result result = true.
Proof.
  intros H.
  destruct (transcribe_wav_base64_cases env b64_data out)
    as (r & o & E & _ & W).
  rewrite E in H. now injection H as <- _.
Qed.

Lemma loopback_event_record (now : Q) (text : string) (result : json) :
  well_formed_result result = true ->
  transcription_record (loopback_transcription_event now text result) = true.
Proof.
  unfold well_formed_result, transcription_record, loopback_transcription_event,
    dict_get.
  intros H. apply andb_true_iff in H as [H Hp]. apply andb_true_iff in H as [_ Hw].
  cbn. destruct (dict_lookup "words" result) as [[] |]; try discriminate Hw.
  destruct (dict_lookup "language_probability" result) as [[] |];
    try discriminate Hp; reflexivity.
Qed.

(** C9, as the claim states it, fails for
    [loopback_transcribe_deepgram_safe.py]: its event carries no ["id"] and
    no ["confidence"]. *)
Lemma safe_event_not_a_transcription_record :
  transcription_record (safe_transcription_event 1700000000 "hello world") = false /\
  dict_lookup "id" (safe_transcription_event 1700000000 "hello world") = None /\
  dict_lookup "confidence" (safe_transcription_event 1700000000 "hello world") = None.
Proof. repeat split. Qed.

(** C9 (amended): every transcription event of [deepgram_transcribe.py] and
    of [loopback_transcribe.py] is one record with the type
    ["transcription"], a string id, a string text and a float confidence
    (the loopback worker adds the word list).  The event of
    [loopback_transcribe_deepgram_safe.py] is one record with the type, the
    string text and a float timestamp, and has neither id nor confidence. *)
Theorem transcription_events_shape :
  (forall (now : Q) (text : string) (confidence : Q),
      transcription_record (transcription_log now text confidence) = true) /\
  (forall (env : whisper_env) (b64_data : string) (out out' : stdout)
          (result : json) (now : Q) (text : string),
      transcribe_wav_base64 env b64_data out = (Ok result, out') ->
      transcription_record (loopback_transcription_event now text result) = true) /\
  (forall (now : Q) (text : string),
      let e := safe_transcription_event now text in
      dict_lookup "type" e = Some (JStr "transcription") /\
      dict_lookup "text" e = Some (JStr text) /\
      dict_lookup "timestamp" e = Some (JFloat now) /\
      dict_lookup "id" e = None /\
      dict_lookup "confidence" e = None).
Proof.
  split; [reflexivity |]. split.
  - intros env b64_data out out' result now text H.
    apply loopback_event_record.
    exact (transcribe_wav_base64_well_formed env b64_data out out' result H).
  - intros now text. repeat split.
Qed.

Lemma example_run :
  transcribe_wav_base64 example_env EmptyString [] = (Ok example_result, []).
Proof. reflexivity. Qed.

Lemma transcription_events_shape_witness :
  transcription_record
    (loopback_transcription_event 1700000000 "hello world" example_result) = true.
Proof.
  exact (proj1 (proj2 transcription_events_shape)
           example_env EmptyString [] [] example_result 1700000000%Q
           "hello world"%string example_run).
Defined.

(** ** The keepalive and the first real audio *)

Module KeepaliveFacts.
Import Keepalive.

Lemma silent_sends_app (h1 h2 : list event) :
  silent_sends (h1 ++ h2) = (silent_sends h1 + silent_sends h2)%nat.
Proof. unfold silent_sends. now rewrite filter_app, length_app. Qed.

(** A move of the audio thread sends no silent frame, leaves the keepalive
    where it is and never clears the event. *)
Lemma audio_step_keeps (o : outcome) (s s' : state) :
  audio_step o s = Some s' ->
  keepalive s' = keepalive s /\
  silent_sends (history s') = silent_sends (history s) /\
  (audio_streaming_started s = true -> audio_streaming_started s' = true).
Proof.
  unfold audio_step. intros H.
  destruct (audio s); [destruct o | |]; try discriminate H;
    injection H as <-;
    cbn [keepalive audio history audio_streaming_started count];
    repeat split; auto;
    try (rewrite silent_sends_app; cbn; lia).
  destruct (audio_streaming_started s); [reflexivity |].
  rewrite silent_sends_app; cbn; lia.
Qed.

(** A move of the keepalive sends at most one silent frame, and only from
    [K_send]; it never touches the event. *)
Lemma keepalive_step_sends (o : outcome) (s s' : state) :
  keepalive_step o s = Some s' ->
  audio_streaming_started s' = audio_streaming_started s /\
  (silent_sends (history s') <=
     silent_sends (history s) + (match keepalive s with K_send => 1 | _ => 0 end))%nat /\
  keepalive s' <> K_initial_sleep /\
  (audio_streaming_started s = true -> keepalive s' <> K_send).
Proof.
  unfold keepalive_step. intros H.
  destruct (keepalive s) eqn:K; [| | destruct o | |]; try discriminate H;
    injection H as <-;
    cbn [keepalive audio history audio_streaming_started count];
    repeat split; try lia; try discriminate;
    try (rewrite silent_sends_app; cbn; lia).
  - destruct (audio_streaming_started s); discriminate.
  - intros ->. discriminate.
Qed.

(** X1: once [audio_streaming_started] is set it stays set, and the
    keepalive sends at most one more silent frame: the one whose loop test
    had passed before the event was set. *)
Theorem keepalive_one_late_frame (schedule : list action) (s s' : state) :
  audio_streaming_started s = true ->
  run schedule s = Some s' ->
  audio_streaming_started s' = true /\
  (silent_sends (history s') <=
     silent_sends (history s) + (match keepalive s with K_send => 1 | _ => 0 end))%nat.
Proof.
  revert s. induction schedule as [| a rest IH]; intros s Hset Hrun; cbn in Hrun.
  - injection Hrun as <-. split; [assumption | lia].
  - destruct (step a s) as [s1 |] eqn:Hstep; [| discriminate].
    destruct a as [o | o]; cbn in Hstep.
    + destruct (keepalive_step_sends o s s1 Hstep) as (Hf & Hs & _ & Hk).
      assert (Hset1 : audio_streaming_started s1 = true) by congruence.
      destruct (IH s1 Hset1 Hrun) as (Hset' & Hle).
      split; [assumption |].
      specialize (Hk Hset). destruct (keepalive s1); try contradiction; lia.
    + destruct (audio_step_keeps o s s1 Hstep) as (Hk & Hs & Hf).
      destruct (IH s1 (Hf Hset) Hrun) as (Hset' & Hle).
      split; [assumption |]. rewrite Hk, Hs in Hle. exact Hle.
Qed.

(** X2: after [keepalive_loop] has left its loop it sends nothing more,
    whatever the audio thread does. *)
Theorem keepalive_stops_for_good (schedule : list action) (s s' : state) :
  keepalive s = K_stopped ->
  run schedule s = Some s' ->
  keepalive s' = K_stopped /\
  silent_sends (history s') = silent_sends (history s).
Proof.
  revert s. induction schedule as [| a rest IH]; intros s Hk Hrun; cbn in Hrun.
  - injection Hrun as <-. now split.
  - destruct (step a s) as [s1 |] eqn:Hstep; [| discriminate].
    destruct a as [o | o]; cbn in Hstep.
    + unfold keepalive_step in Hstep. rewrite Hk in Hstep. discriminate.
    + destruct (audio_step_keeps o s s1 Hstep) as (Hk1 & Hs & _).
      destruct (IH s1 (eq_trans Hk1 Hk) Hrun) as (Hk' & Hs').
      split; [assumption | congruence].
Qed.

Lemma keepalive_one_late_frame_witness :
  audio_streaming_started keepalive_finished = true /\
  (silent_sends (history keepalive_finished) <=
     silent_sends (history test_passed_event_set) + 1)%nat.
Proof.
  apply (keepalive_one_late_frame
           [KeepaliveMoves Delivered; KeepaliveMoves Skipped; KeepaliveMoves Skipped]
           test_passed_event_set keepalive_finished).
  - reflexivity.
  - reflexivity.
Defined.

Lemma keepalive_stops_for_good_witness :
  keepalive
    {| keepalive := K_stopped; audio := A_capture;
       audio_streaming_started := true; count := 1;
       history := [Sent RealAudio; StreamingStarted; Sent Silent; Sent RealAudio] |}
    = K_stopped /\
  silent_sends [Sent RealAudio; StreamingStarted; Sent Silent; Sent RealAudio]
    = silent_sends (history keepalive_finished).
Proof.
  apply (keepalive_stops_for_good
           [AudioMoves Delivered; AudioMoves Skipped] keepalive_finished).
  - reflexivity.
  - reflexivity.
Defined.

(** C1 fails on the code: the audio thread sets [audio_streaming_started]
    only after its first [send_media] has returned, and the keepalive tests
    the event before its own [send_media], not together with it.  Two
    schedules of the two threads show a silent frame sent after the first
    real-audio frame: in the first it is also sent after the event is set,
    in the second between the real-audio send and the setting. *)
Theorem keepalive_frame_after_real_audio :
  (exists s,
      run late_keepalive_schedule initial = Some s /\
      history s = [Sent RealAudio; StreamingStarted; Sent Silent] /\
      silence_first (history s) = false) /\
  (exists s,
      run keepalive_before_set_schedule initial = Some s /\
      history s = [Sent RealAudio; Sent Silent; StreamingStarted] /\
      silence_first (history s) = false).
Proof.
  split; eexists; (split; [reflexivity |]); split; reflexivity.
Qed.

End KeepaliveFacts.

(** ** Finding the loopback device *)

Lemma first_index_some (p : device_info -> bool) (devices : list device_info) (i : nat) :
  first_index p devices = Some i ->
  (exists di, nth_error devices i = Some di /\ p di = true) /\
  (forall j dj, (j < i)%nat -> nth_error devices j = Some dj -> p dj = false).
Proof.
  revert i. induction devices as [| d rest IH]; intros i H; cbn in H; [discriminate |].
  destruct (p d) eqn:Hp.
  - injection H as <-. split; [exists d; now split | intros j dj Hj; lia].
  - destruct (first_index p rest) as [i' |]; [| discriminate].
    injection H as <-. destruct (IH i' eq_refl) as [Hex Hmin]. split; [exact Hex |].
    intros [| j] dj Hj Hnth; cbn in Hnth.
    + now injection Hnth as <-.
    + apply (Hmin j dj); [lia | exact Hnth].
Qed.

Lemma first_index_none (p : device_info -> bool) (devices : list device_info) :
  first_index p devices = None <-> (forall di, In di devices -> p di = false).
Proof.
  induction devices as [| d rest IH]; cbn.
  - split; [intros _ di [] | reflexivity].
  - destruct (p d) eqn:Hp.
    + split; [discriminate | intros H; rewrite (H d) in Hp; [discriminate | now left]].
    + destruct (first_index p rest) as [i |].
      * split; [discriminate |]. intros H. exfalso.
        assert (Hc : Some i = None) by (apply IH; intros di Hin; apply H; now right).
        discriminate Hc.
      * split; [| reflexivity]. intros _ di [<- | Hin]; [exact Hp |].
        now apply (proj1 IH).
Qed.

Lemma first_index_in_range (p : device_info -> bool) (devices : list device_info) (i : nat) :
  first_index p devices = Some i ->
  exists di, get_device_info_by_index devices (Z.of_nat i) = Ok di /\
             nth_error devices i = Some di /\ p di = true.
Proof.
  intros H. destruct (first_index_some p devices i H) as [(di & Hnth & Hp) _].
  exists di. repeat split; auto.
  unfold get_device_info_by_index.
  destruct (Z.ltb_spec (Z.of_nat i) 0); [lia |].
  now rewrite Nat2Z.id, Hnth.
Qed.

(** The device found by [find_loopback_index]: a WASAPI loopback device; the
    first one whose name holds the default output's name when there is one,
    the first loopback device of the host API otherwise. *)
Lemma find_loopback_index_some (wasapi : host_api_info) (name : string)
  (devices : list device_info) (i : nat) :
  find_loopback_index wasapi name devices = Some i ->
  exists di,
    nth_error devices i = Some di /\
    get_device_info_by_index devices (Z.of_nat i) = Ok di /\
    is_wasapi_loopback wasapi di = true /\
    ((is_default_loopback wasapi name di = true /\
      forall j dj, (j < i)%nat -> nth_error devices j = Some dj ->
                   is_default_loopback wasapi name dj = false)
     \/
     ((forall dj, In dj devices -> is_default_loopback wasapi name dj = false) /\
      forall j dj, (j < i)%nat -> nth_error devices j = Some dj ->
                   is_wasapi_loopback wasapi dj = false)).
Proof.
  unfold find_loopback_index. intros H.
  destruct (first_index (is_default_loopback wasapi name) devices) as [i' |] eqn:E1.
  - injection H as <-.
    destruct (first_index_in_range _ _ _ E1) as (di & Hget & Hnth & Hp).
    destruct (first_index_some _ _ _ E1) as [_ Hmin].
    exists di. repeat split; auto.
    unfold is_default_loopback in Hp. now apply andb_true_iff in Hp as [Hp _].
  - destruct (first_index_in_range _ _ _ H) as (di & Hget & Hnth & Hp).
    destruct (first_index_some _ _ _ H) as [_ Hmin].
    exists di. repeat split; auto. right. split; [| exact Hmin].
    now apply first_index_none.
Qed.

(** X8: when the device search succeeds, the device it returns is a loopback
    device of the WASAPI host API, and the sample rate and the channel count
    (1 or 2) are read from that device.  It is the first device whose name
    holds the name of the default output device if there is such a loopback
    device, and the first loopback device of the host API only if there is
    none. *)
Theorem resolved_device_is_loopback (wasapi : host_api_info)
  (devices : list device_info) (i : nat) (src_sr channels : Z) :
  resolve_loopback_device wasapi devices = Ok (Resolved i src_sr channels) ->
  exists d default_output_device di,
    api_defaultOutputDevice wasapi = Some d /\
    get_device_info_by_index devices d = Ok default_output_device /\
    nth_error devices i = Some di /\
    is_wasapi_loopback wasapi di = true /\
    src_sr = device_sample_rate di /\
    channels = device_channels di /\
    (channels = 1 \/ channels = 2)%Z /\
    let name := dev_name default_output_device in
    ((contains (dev_name di) name = true /\
      forall j dj, (j < i)%nat -> nth_error devices j = Some dj ->
                   is_default_loopback wasapi name dj = false)
     \/
     ((forall dj, In dj devices -> is_default_loopback wasapi name dj = false) /\
      forall j dj, (j < i)%nat -> nth_error devices j = Some dj ->
                   is_wasapi_loopback wasapi dj = false)).
Proof.
  unfold resolve_loopback_device. intros H.
  destruct (api_defaultOutputDevice wasapi) as [d |]; [| discriminate].
  destruct (d =? -1)%Z; [discriminate |].
  destruct (get_device_info_by_index devices d) as [dd | e] eqn:Hd; [| discriminate].
  cbn [rbind] in H.
  destruct (find_loopback_index wasapi (dev_name dd) devices) as [i' |] eqn:Hf;
    [| discriminate].
  destruct (find_loopback_index_some _ _ _ _ Hf) as (di & Hnth & Hget & Hlb & Hpref).
  rewrite Hget in H. cbn [rbind] in H. injection H as <- <- <-.
  exists d, dd, di. repeat split; auto.
  - unfold device_channels. destruct (2 <=? _)%Z; [now right | now left].
  - cbv zeta. destruct Hpref as [[Hp Hmin] | Hnone]; [left | now right].
    split; [| exact Hmin].
    unfold is_default_loopback in Hp. now apply andb_true_iff in Hp as [_ Hp].
Qed.

(** X9: with a valid default output device the search never raises, and it
    reports that no loopback device was found exactly when no device is a
    loopback device of the WASAPI host API. *)
Theorem no_loopback_only_when_none (wasapi : host_api_info)
  (devices : list device_info) (d : Z) (default_output_device : device_info) :
  api_defaultOutputDevice wasapi = Some d ->
  d <> (-1)%Z ->
  get_device_info_by_index devices d = Ok default_output_device ->
  (exists r, resolve_loopback_device wasapi devices = Ok r /\ r <> NoDefaultOutput) /\
  (resolve_loopback_device wasapi devices = Ok NoLoopbackDevice <->
   forall di, In di devices -> is_wasapi_loopback wasapi di = false).
Proof.
  intros Hd Hne Hget. unfold resolve_loopback_device. rewrite Hd.
  destruct (Z.eqb_spec d (-1)) as [E | _]; [contradiction |].
  rewrite Hget. cbn [rbind].
  destruct (find_loopback_index wasapi (dev_name default_output_device) devices)
    as [i |] eqn:Hf.
  - destruct (find_loopback_index_some _ _ _ _ Hf) as (di & Hnth & Hgi & Hlb & _).
    rewrite Hgi. cbn [rbind]. split.
    + eexists; split; [reflexivity | discriminate].
    + split; [discriminate |]. intros Hnone.
      apply nth_error_In in Hnth. rewrite (Hnone di Hnth) in Hlb. discriminate.
  - split; [eexists; split; [reflexivity | discriminate] |].
    split; [| reflexivity]. intros _.
    unfold find_loopback_index in Hf.
    destruct (first_index (is_default_loopback wasapi _) devices); [discriminate |].
    now apply first_index_none.
Qed.

Lemma example_resolution :
  resolve_loopback_device example_wasapi example_devices = Ok (Resolved 2 48000 2).
Proof. reflexivity. Qed.

Lemma resolved_device_is_loopback_witness :
  exists d default_output_device di,
    api_defaultOutputDevice example_wasapi = Some d /\
    get_device_info_by_index example_devices d = Ok default_output_device /\
    nth_error example_devices 2 = Some di /\
    is_wasapi_loopback example_wasapi di = true /\
    48000%Z = device_sample_rate di /\
    2%Z = device_channels di /\
    (2 = 1 \/ 2 = 2)%Z /\
    ((contains (dev_name di) (dev_name default_output_device) = true /\
      forall j dj, (j < 2)%nat -> nth_error example_devices j = Some dj ->
                   is_default_loopback example_wasapi (dev_name default_output_device) dj
                   = false)
     \/
     ((forall dj, In dj example_devices ->
                  is_default_loopback example_wasapi (dev_name default_output_device) dj
                  = false) /\
      forall j dj, (j < 2)%nat -> nth_error example_devices j = Some dj ->
                   is_wasapi_loopback example_wasapi dj = false)).
Proof.
  exact (resolved_device_is_loopback example_wasapi example_devices 2 48000 2
           example_resolution).
Defined.

Lemma no_loopback_only_when_none_witness :
  (exists r, resolve_loopback_device example_wasapi (firstn 1 example_devices) = Ok r /\
             r <> NoDefaultOutput) /\
  (resolve_loopback_device example_wasapi (firstn 1 example_devices) = Ok NoLoopbackDevice <->
   forall di, In di (firstn 1 example_devices) ->
              is_wasapi_loopback example_wasapi di = false).
Proof.
  apply (no_loopback_only_when_none example_wasapi (firstn 1 example_devices) 0
           (nth 0 example_devices
                {| dev_name := EmptyString; dev_hostApi := None;
                   dev_isLoopbackDevice := None; dev_defaultSampleRate := None;
                   dev_maxInputChannels := None |})).
  - reflexivity.
  - discriminate.
  - reflexivity.
Defined.

(** ** Stereo to mono *)

Lemma np_mean_pair (a b : R) : np_mean [a; b] = (a + b) / 2.
Proof. unfold np_mean, len. cbn. lra. Qed.

Lemma rows_stereo (fuel : nat) (audio : list R) (k : nat) :
  (length audio <= fuel)%nat ->
  length audio = (2 * k)%nat ->
  length (rows fuel 2 audio) = k /\
  (forall i : nat,
      (i < k)%nat ->
      nth i (map np_mean (rows fuel 2 audio)) 0 =
        (nth (2 * i) audio 0 + nth (2 * i + 1) audio 0) / 2).
Proof.
  revert audio k. induction fuel as [| fuel IH]; intros audio k Hfuel Hlen.
  - destruct audio; [| cbn in Hfuel; lia]. cbn in Hlen.
    split; [cbn; lia | intros i Hi; lia].
  - destruct audio as [| a [| b rest]].
    + cbn in Hlen. split; [cbn; lia | intros i Hi; lia].
    + cbn in Hlen. lia.
    + destruct k as [| k]; [cbn in Hlen; lia |].
      cbn [rows firstn skipn map length].
      destruct (IH rest k) as [Hl Hn]; [cbn in Hfuel; lia | cbn in Hlen; lia |].
      split; [now rewrite Hl |].
      intros [| i] Hi.
      * cbn [nth Nat.mul Nat.add]. apply np_mean_pair.
      * replace (2 * S i)%nat with (S (S (2 * i))) by lia.
        cbn [nth Nat.add]. rewrite (Hn i) by lia. reflexivity.
Qed.

(** X10: the stereo downmix averages each left/right pair: a frame with an
    even number of interleaved samples gives half as many samples, the
    [i]-th being [(audio[2i] + audio[2i+1]) / 2]; a frame with an odd number
    raises [ValueError]. *)
Theorem to_mono_stereo (audio : list R) :
  ((len audio mod 2 = 1)%Z ->
   to_mono 2 audio = Raise (ValueError "cannot reshape array")) /\
  ((len audio mod 2 = 0)%Z ->
   exists out,
     to_mono 2 audio = Ok out /\
     length audio = (2 * length out)%nat /\
     forall i : nat,
       (i < length out)%nat ->
       nth i out 0 = (nth (2 * i) audio 0 + nth (2 * i + 1) audio 0) / 2).
Proof.
  unfold to_mono, np_reshape_rows.
  change (1 <? 2)%Z with true. change (2 <=? 0)%Z with false. cbn [orb].
  split; intros Hmod; rewrite Hmod; [reflexivity |].
  cbn [negb rbind Z.eqb].
  set (k := Z.to_nat (len audio / 2)).
  assert (Hk : length audio = (2 * k)%nat).
  { pose proof (Z.div_mod (len audio) 2). unfold k, len in *. lia. }
  destruct (rows_stereo (length audio) audio k) as [Hl Hn]; [lia | exact Hk |].
  change (Z.to_nat 2) with 2%nat.
  eexists. split; [reflexivity |].
  rewrite length_map, Hl. split; [exact Hk | exact Hn].
Qed.

(** ** 16-bit PCM and the WAV container *)

Lemma byte_of_Z_to_N (z : Z) : Byte.to_N (byte_of_Z z) = Z.to_N (z mod 256).
Proof.
  unfold byte_of_Z.
  destruct (Byte.of_N (Z.to_N (z mod 256))) as [b |] eqn:E.
  - now apply Byte.to_of_N.
  - apply Byte.of_N_None_iff in E.
    pose proof (Z.mod_pos_bound z 256 ltac:(lia)). lia.
Qed.

(** Two bytes written by [tobytes] read back as the integer they came from. *)
Lemma int16_of_tobytes (z : Z) :
  (-32768 <= z <= 32767)%Z ->
  int16_of (byte_of_Z z) (byte_of_Z (z / 256)) = z.
Proof.
  intros Hz. unfold int16_of. rewrite !byte_of_Z_to_N.
  rewrite !Z2N.id by (apply Z.mod_pos_bound; lia).
  destruct (Z.ltb_spec (z mod 256 + 256 * ((z / 256) mod 256)) 32768);
    Z.to_euclidean_division_equations; lia.
Qed.

Lemma frombuffer_tobytes (a : list Z) :
  Forall (fun z => (-32768 <= z <= 32767)%Z) a ->
  np_frombuffer_int16 (np_tobytes_int16 a) = Ok a.
Proof.
  induction 1 as [| z a Hz _ IH]; [reflexivity |].
  cbn [np_tobytes_int16 flat_map int16_tobytes app np_frombuffer_int16].
  fold (np_tobytes_int16 a). rewrite IH. now rewrite int16_of_tobytes.
Qed.

Lemma len_np_tobytes_int16 (a : list Z) : len (np_tobytes_int16 a) = (2 * len a)%Z.
Proof.
  unfold len. induction a as [| z a IH]; [reflexivity |].
  cbn [np_tobytes_int16 flat_map int16_tobytes app length] in *.
  fold (np_tobytes_int16 a). lia.
Qed.

Lemma np_clip_bounds (x : R) : -1 <= np_clip (-1) 1 x <= 1.
Proof.
  unfold np_clip, Rmin, Rmax.
  destruct (Rle_dec x (-1)); destruct (Rle_dec _ 1); lra.
Qed.

Lemma np_clip_inside (x : R) : -1 <= x <= 1 -> np_clip (-1) 1 x = x.
Proof.
  intros H. unfold np_clip, Rmin, Rmax.
  destruct (Rle_dec x (-1)); destruct (Rle_dec _ 1); lra.
Qed.

(** Truncation moves a real by less than one, towards zero. *)
Lemma R_trunc_spec (x : R) :
  Rabs (IZR (R_trunc x) - x) < 1 /\ Rabs (IZR (R_trunc x)) <= Rabs x.
Proof.
  unfold R_trunc. destruct (Rle_dec 0 x) as [Hx | Hx].
  - destruct (base_Int_part x) as [H1 H2].
    assert (0 <= IZR (Int_part x)).
    { apply IZR_le. apply Z.lt_succ_r. apply lt_IZR. rewrite succ_IZR. lra. }
    split.
    + apply Rabs_def1; lra.
    + rewrite !Rabs_right by lra. lra.
  - destruct (base_Int_part (- x)) as [H1 H2].
    assert (0 <= IZR (Int_part (- x))).
    { apply IZR_le. apply Z.lt_succ_r. apply lt_IZR. rewrite succ_IZR. lra. }
    rewrite opp_IZR. split.
    + apply Rabs_def1; lra.
    + rewrite Rabs_Ropp, (Rabs_right (IZR _)) by lra. rewrite Rabs_left by lra. lra.
Qed.

Lemma R_trunc_range (x : R) (n : Z) :
  Rabs x <= IZR n -> (- n <= R_trunc x <= n)%Z.
Proof.
  intros H. destruct (R_trunc_spec x) as [_ Hle].
  assert (Hb : Rabs (IZR (R_trunc x)) <= IZR n) by lra.
  assert (- IZR n <= IZR (R_trunc x) <= IZR n)
    by (revert Hb; unfold Rabs; destruct (Rcase_abs _); lra).
  split; apply le_IZR; [rewrite opp_IZR |]; lra.
Qed.

(** Truncation towards zero keeps the order and leaves whole numbers as
    they are. *)
Lemma R_trunc_monotone (x y : R) : x <= y -> (R_trunc x <= R_trunc y)%Z.
Proof.
  intros Hxy. unfold R_trunc.
  assert (Hmono : forall a b, a <= b -> (Int_part a <= Int_part b)%Z).
  { intros a b Hab. destruct (base_Int_part a) as [Ha _].
    destruct (base_Int_part b) as [_ Hb].
    assert (Hlt : IZR (Int_part a) < IZR (Int_part b + 1))
      by (rewrite plus_IZR; lra).
    apply lt_IZR in Hlt. lia. }
  assert (Hpos : forall a, 0 <= a -> (0 <= Int_part a)%Z).
  { intros a Ha. destruct (base_Int_part a) as [_ Hb].
    assert (Hlt : IZR (-1) < IZR (Int_part a)) by lra.
    apply lt_IZR in Hlt. lia. }
  destruct (Rle_dec 0 x) as [Hx | Hx]; destruct (Rle_dec 0 y) as [Hy | Hy].
  - now apply Hmono.
  - lra.
  - pose proof (Hpos (- x) ltac:(lra)). pose proof (Hpos y Hy). lia.
  - pose proof (Hmono (- y) (- x) ltac:(lra)). lia.
Qed.

Lemma R_trunc_whole (n : Z) : R_trunc (IZR n) = n.
Proof.
  assert (Hint : forall m, Int_part (IZR m) = m).
  { intros m. destruct (base_Int_part (IZR m)) as [Hle Hgt].
    apply le_IZR in Hle.
    assert (Hlt : IZR (m - 1) < IZR (Int_part (IZR m)))
      by (rewrite minus_IZR; lra).
    apply lt_IZR in Hlt. lia. }
  unfold R_trunc. destruct (Rle_dec 0 (IZR n)); [apply Hint |].
  rewrite <- opp_IZR, Hint. lia.
Qed.

(** A product within 16 bits, rounded to a float and then truncated, is a
    16-bit value less than one away from the product. *)
Lemma rounded_trunc_near (fl : R -> R) (y : R) :
  float_rounding fl ->
  Rabs y <= 32767 ->
  (- (32767) <= R_trunc (fl y) <= 32767)%Z /\
  Rabs (IZR (R_trunc (fl y)) - y) < 1.
Proof.
  intros [Hmono Hfix] Hy.
  assert (Hy' : - (32767) <= y <= 32767)
    by (revert Hy; unfold Rabs; destruct (Rcase_abs y); lra).
  assert (Hg : forall n : Z, (- 16777216 <= n <= 16777216)%Z ->
                             R_trunc (fl (IZR n)) = n)
    by (intros n Hn; rewrite (Hfix n Hn); apply R_trunc_whole).
  assert (Hgm : forall a b, a <= b -> (R_trunc (fl a) <= R_trunc (fl b))%Z)
    by (intros a b Hab; apply R_trunc_monotone, Hmono, Hab).
  split.
  - pose proof (Hgm (IZR (- (32767))) y ltac:(rewrite opp_IZR; lra)) as H1.
    pose proof (Hgm y (IZR 32767) ltac:(lra)) as H2.
    rewrite Hg in H1, H2 by lia. lia.
  - destruct (base_Int_part y) as [Hlo Hhi].
    set (n := Int_part y) in *.
    assert (Hn : (- (32768) <= n <= 32767)%Z).
    { split.
      - assert (Hlt : IZR (- (32769)) < IZR n) by (rewrite opp_IZR; lra).
        apply lt_IZR in Hlt. lia.
      - apply le_IZR. lra. }
    pose proof (Hgm (IZR n) y Hlo) as H1.
    pose proof (Hgm y (IZR (n + 1)) ltac:(rewrite plus_IZR; lra)) as H2.
    rewrite Hg in H1, H2 by lia.
    destruct (Z.eq_dec (R_trunc (fl y)) n) as [E | Hne].
    + rewrite E. apply Rabs_def1; lra.
    + assert (E : R_trunc (fl y) = (n + 1)%Z) by lia.
      rewrite E, plus_IZR.
      assert (Hyn : IZR n < y).
      { destruct (Rle_lt_or_eq_dec _ _ Hlo) as [Hlt | Heq]; [exact Hlt |].
        exfalso. rewrite <- Heq, Hg in E by lia. lia. }
      apply Rabs_def1; lra.
Qed.

(** A clipped sample times 32767 always fits 16 bits. *)
Lemma pcm16_sample (fl : R -> R) (overflow : R -> Z) (x : R) :
  float_rounding fl ->
  let q := np_astype_int16 overflow (fl (np_clip (-1) 1 x * 32767)) in
  q = R_trunc (fl (np_clip (-1) 1 x * 32767)%R) /\ (-32767 <= q <= 32767)%Z.
Proof.
  intros Hfl. cbv zeta. unfold np_astype_int16.
  pose proof (np_clip_bounds x) as Hc.
  destruct (rounded_trunc_near fl (np_clip (-1) 1 x * 32767) Hfl) as [Hr _];
    [apply Rabs_le; lra |].
  destruct (Z.leb_spec (-32768) (R_trunc (fl (np_clip (-1) 1 x * 32767)%R))); [| lia].
  destruct (Z.leb_spec (R_trunc (fl (np_clip (-1) 1 x * 32767)%R)) 32767); [| lia].
  cbn [andb]. split; [reflexivity | lia].
Qed.

Lemma pcm16_of_float_range (fl : R -> R) (overflow : R -> Z) (audio : list R) :
  float_rounding fl ->
  Forall (fun z => (-32768 <= z <= 32767)%Z) (pcm16_of_float fl overflow audio).
Proof.
  intros Hfl. unfold pcm16_of_float. apply Forall_map, Forall_forall. intros x _.
  pose proof (pcm16_sample fl overflow x Hfl) as [_ H]. lia.
Qed.

Lemma convert_to_pcm16_parts (fl : R -> R) (overflow : R -> Z) (audio : list R) :
  float_rounding fl ->
  len (convert_to_pcm16 fl overflow audio) = (2 * len audio)%Z /\
  np_frombuffer_int16 (convert_to_pcm16 fl overflow audio) =
    Ok (map (fun x => R_trunc (fl (np_clip (-1) 1 x * 32767)%R)) audio) /\
  Forall (fun x => (-32767 <= R_trunc (fl (np_clip (-1) 1 x * 32767)%R) <= 32767)%Z)
         audio.
Proof.
  intros Hfl. unfold convert_to_pcm16. split; [| split].
  - rewrite len_np_tobytes_int16. unfold pcm16_of_float, len.
    now rewrite length_map.
  - rewrite frombuffer_tobytes by now apply pcm16_of_float_range.
    f_equal. unfold pcm16_of_float. apply map_ext. intros x.
    apply (pcm16_sample fl overflow x Hfl).
  - apply Forall_forall. intros x _.
    destruct (pcm16_sample fl overflow x Hfl) as [E H]. cbv zeta in *.
    now rewrite <- E.
Qed.

(** The identity rounds nothing: exact arithmetic is one instance. *)
Lemma float_rounding_exact : float_rounding (fun x => x).
Proof. split; auto. Qed.

(** X11: [convert_to_pcm16] writes two bytes per sample, and read back as
    little-endian signed 16-bit integers they are the clipped samples times
    32767, the product rounded to a float as the array arithmetic leaves it
    and then truncated towards zero: values between -32767 and 32767 that
    do not depend on what the platform does with casts that overflow. *)
Theorem convert_to_pcm16_round_trip (fl : R -> R) (overflow : R -> Z)
  (audio : list R) :
  float_rounding fl ->
  len (convert_to_pcm16 fl overflow audio) = (2 * len audio)%Z /\
  np_frombuffer_int16 (convert_to_pcm16 fl overflow audio) =
    Ok (map (fun x => R_trunc (fl (np_clip (-1) 1 x * 32767)%R)) audio) /\
  Forall (fun x => (-32767 <= R_trunc (fl (np_clip (-1) 1 x * 32767)%R) <= 32767)%Z)
         audio.
Proof. intros Hfl. exact (convert_to_pcm16_parts fl overflow audio Hfl). Qed.

Lemma convert_to_pcm16_round_trip_witness :
  let fl : R -> R := fun x => x in
  let audio : list R := [0.5; -1; 1.5] in
  float_rounding fl /\
  len (convert_to_pcm16 fl Int_part audio) = (2 * len audio)%Z /\
  np_frombuffer_int16 (convert_to_pcm16 fl Int_part audio) =
    Ok (map (fun x => R_trunc (fl (np_clip (-1) 1 x * 32767)%R)) audio) /\
  Forall (fun x => (-32767 <= R_trunc (fl (np_clip (-1) 1 x * 32767)%R) <= 32767)%Z)
         audio.
Proof.
  cbv zeta. split; [exact float_rounding_exact |].
  exact (convert_to_pcm16_round_trip (fun x => x) Int_part [0.5; -1; 1.5]
           float_rounding_exact).
Defined.

Lemma struct_pack_le_ok (width : nat) (n : Z) :
  (0 <= n < 256 ^ Z.of_nat width)%Z ->
  exists b, struct_pack_le width n = Ok b /\ length b = width.
Proof.
  intros H. unfold struct_pack_le.
  destruct (Z.leb_spec 0 n); [| lia].
  destruct (Z.ltb_spec n (256 ^ Z.of_nat width)); [| lia].
  eexists. split; [reflexivity |]. now rewrite length_map, length_seq.
Qed.

Ltac pack_side :=
  change (256 ^ Z.of_nat 4)%Z with 4294967296%Z;
  change (256 ^ Z.of_nat 2)%Z with 65536%Z; lia.

(** With a rate and a length that fit their header fields, the WAV file is
    a header of 44 bytes, opening with the RIFF and WAVE tags, and then the
    frames. *)
Lemma wav_file_bytes_ok (fl : R -> R) (overflow : R -> Z) (mono : list R)
  (sample_rate : Z) :
  (0 < sample_rate < 2 ^ 31)%Z ->
  (2 * len mono + 36 < 2 ^ 32)%Z ->
  exists header,
    wav_file_bytes fl overflow mono sample_rate =
      Ok (header ++ convert_to_pcm16 fl overflow mono) /\
    length header = 44%nat /\
    firstn 4 header = list_byte_of_string "RIFF" /\
    firstn 4 (skipn 8 header) = list_byte_of_string "WAVE".
Proof.
  intros Hsr Hlen. unfold wav_file_bytes, wave_header, convert_to_pcm16.
  change (2 ^ 31)%Z with 2147483648%Z in Hsr.
  change (2 ^ 32)%Z with 4294967296%Z in Hlen.
  assert (Hframes : len (np_tobytes_int16 (pcm16_of_float fl overflow mono)) = (2 * len mono)%Z).
  { rewrite len_np_tobytes_int16. unfold pcm16_of_float, len. now rewrite length_map. }
  rewrite Hframes. pose proof (len_nonneg mono) as Hn.
  destruct (Z.leb_spec sample_rate 0); [lia |].
  destruct (struct_pack_le_ok 4 (36 + 2 * len mono)) as (b1 & -> & L1); [pack_side |].
  destruct (struct_pack_le_ok 4 16) as (b2 & -> & L2); [pack_side |].
  destruct (struct_pack_le_ok 2 1) as (b3 & -> & L3); [pack_side |].
  destruct (struct_pack_le_ok 2 1) as (b4 & E4 & L4); [pack_side |].
  destruct (struct_pack_le_ok 4 sample_rate) as (b5 & -> & L5); [pack_side |].
  destruct (struct_pack_le_ok 4 (1 * sample_rate * 2)) as (b6 & -> & L6); [pack_side |].
  destruct (struct_pack_le_ok 2 (1 * 2)) as (b7 & -> & L7); [pack_side |].
  destruct (struct_pack_le_ok 2 (2 * 8)) as (b8 & -> & L8); [pack_side |].
  destruct (struct_pack_le_ok 4 (2 * len mono)) as (b9 & -> & L9); [pack_side |].
  cbn [rbind]. eexists. split; [reflexivity |].
  destruct b1 as [| ? [| ? [| ? [| ? [| ? ?]]]]]; try discriminate L1.
  split; [| split; reflexivity].
  rewrite !length_app. cbn [length list_byte_of_string].
  rewrite L2, L3, L5, L6, L7, L8, L9. reflexivity.
Qed.

Lemma py_slice_from_app_exact {A} (n : nat) (l1 l2 : list A) :
  length l1 = n -> py_slice_from (Z.of_nat n) (l1 ++ l2) = l2.
Proof.
  intros H. unfold py_slice_from.
  destruct (Z.ltb_spec (Z.of_nat n) 0); [lia |].
  rewrite Nat2Z.id, skipn_app, <- H, skipn_all, Nat.sub_diag. reflexivity.
Qed.

(** X12: for a sample rate and a length that fit the header fields,
    [float_to_wav_base64] encodes a file of 44 header bytes, starting with
    the tags RIFF and WAVE, followed by two bytes per sample; what
    [transcribe_wav_base64] reads after skipping 44 bytes is exactly the
    16-bit samples that were written: the clipped samples times 32767,
    rounded to a float and truncated. *)
Theorem wav_file_layout (fl : R -> R) (overflow : R -> Z) (mono : list R)
  (sample_rate : Z) :
  float_rounding fl ->
  (0 < sample_rate < 2 ^ 31)%Z ->
  (2 * len mono + 36 < 2 ^ 32)%Z ->
  exists wav,
    wav_file_bytes fl overflow mono sample_rate = Ok wav /\
    (forall b64encode,
        float_to_wav_base64 b64encode fl overflow mono sample_rate
          = Ok (b64encode wav)) /\
    len wav = (44 + 2 * len mono)%Z /\
    py_slice_to 4 wav = list_byte_of_string "RIFF" /\
    py_slice_to 4 (py_slice_from 8 wav) = list_byte_of_string "WAVE" /\
    np_frombuffer_int16 (py_slice_from 44 wav) =
      Ok (map (fun x => R_trunc (fl (np_clip (-1) 1 x * 32767))) mono).
Proof.
  intros Hfl Hsr Hlen.
  destruct (wav_file_bytes_ok fl overflow mono sample_rate Hsr Hlen)
    as (header & Hw & Hh & Hriff & Hwave).
  destruct (convert_to_pcm16_parts fl overflow mono Hfl) as (Hl & Hdec & _).
  exists (header ++ convert_to_pcm16 fl overflow mono).
  split; [exact Hw |]. split; [| split; [| split; [| split]]].
  - intros b64encode. unfold float_to_wav_base64. now rewrite Hw.
  - rewrite len_app, Hl. unfold len. rewrite Hh. lia.
  - unfold py_slice_to. cbn [Z.ltb Z.compare]. change (Z.to_nat 4) with 4%nat.
    rewrite firstn_app, Hh. cbn [Nat.sub firstn app]. rewrite app_nil_r. exact Hriff.
  - unfold py_slice_to, py_slice_from. cbn [Z.ltb Z.compare].
    change (Z.to_nat 4) with 4%nat. change (Z.to_nat 8) with 8%nat.
    rewrite skipn_app, Hh. change (8 - 44)%nat with 0%nat. rewrite skipn_O.
    rewrite firstn_app, length_skipn, Hh. change (4 - (44 - 8))%nat with 0%nat.
    rewrite firstn_O, app_nil_r. exact Hwave.
  - rewrite (py_slice_from_app_exact 44 header _ Hh). exact Hdec.
Qed.

Lemma wav_file_layout_witness :
  let fl : R -> R := fun x => x in
  float_rounding fl /\
  exists wav,
    wav_file_bytes fl (fun _ => 0%Z) [0.5; -1] 16000 = Ok wav /\
    (forall b64encode,
        float_to_wav_base64 b64encode fl (fun _ => 0%Z) [0.5; -1] 16000
          = Ok (b64encode wav)) /\
    len wav = (44 + 2 * len [0.5%R; (-1)%R])%Z /\
    py_slice_to 4 wav = list_byte_of_string "RIFF" /\
    py_slice_to 4 (py_slice_from 8 wav) = list_byte_of_string "WAVE" /\
    np_frombuffer_int16 (py_slice_from 44 wav) =
      Ok (map (fun x => R_trunc (fl (np_clip (-1) 1 x * 32767))) [0.5; -1]).
Proof.
  cbv zeta. split; [exact float_rounding_exact |].
  apply (wav_file_layout (fun x => x) (fun _ => 0%Z) [0.5; -1] 16000
           float_rounding_exact).
  - split; reflexivity.
  - reflexivity.
Defined.

(** One sample through the 16-bit quantisation and the division by 32768. *)
Lemma quantised_sample_accuracy (fl : R -> R) (x : R) :
  float_rounding fl ->
  let c := np_clip (-1) 1 x in
  let d := IZR (R_trunc (fl (c * 32767))) / 32768 in
  Rabs (d - c) < 2 / 32768 /\ Rabs d < 1.
Proof.
  intros Hfl. cbv zeta. pose proof (np_clip_bounds x) as Hc.
  set (c := np_clip (-1) 1 x) in *.
  destruct (rounded_trunc_near fl (c * 32767) Hfl) as [Hrange Hnear];
    [apply Rabs_le; lra |].
  set (q := IZR (R_trunc (fl (c * 32767)))) in *.
  assert (Hq : -1 < q - c * 32767 < 1)
    by (revert Hnear; unfold Rabs; destruct (Rcase_abs _); lra).
  assert (Hqa : - (32767) <= q <= 32767).
  { unfold q. destruct Hrange as [H1 H2].
    apply IZR_le in H1, H2. rewrite opp_IZR in H1. lra. }
  split; apply Rabs_def1; lra.
Qed.

(** X13: a signal sent through [float_to_wav_base64] and read back the way
    [transcribe_wav_base64] reads it comes out with as many samples, each
    below 1 in magnitude and within 2/32768 of the original clipped to
    [-1, 1], however the product with 32767 is rounded. *)
Theorem wav_round_trip_accuracy (fl : R -> R) (overflow : R -> Z)
  (mono : list R) (sample_rate : Z) :
  float_rounding fl ->
  (0 < sample_rate < 2 ^ 31)%Z ->
  (2 * len mono + 36 < 2 ^ 32)%Z ->
  exists wav decoded,
    wav_file_bytes fl overflow mono sample_rate = Ok wav /\
    wav_payload_samples wav = Ok decoded /\
    length decoded = length mono /\
    forall i : nat,
      (i < length mono)%nat ->
      Rabs (nth i decoded 0 - np_clip (-1) 1 (nth i mono 0)) < 2 / 32768 /\
      Rabs (nth i decoded 0) < 1.
Proof.
  intros Hfl Hsr Hlen.
  destruct (wav_file_bytes_ok fl overflow mono sample_rate Hsr Hlen)
    as (header & Hw & Hh & _).
  destruct (convert_to_pcm16_parts fl overflow mono Hfl) as (_ & Hdec & _).
  set (dq := fun x => IZR (R_trunc (fl (np_clip (-1) 1 x * 32767))) / 32768).
  exists (header ++ convert_to_pcm16 fl overflow mono), (map dq mono).
  split; [exact Hw |]. split; [| split].
  - unfold wav_payload_samples.
    rewrite (py_slice_from_app_exact 44 header _ Hh), Hdec. cbn [rbind].
    now rewrite map_map.
  - apply length_map.
  - intros i Hi.
    rewrite (nth_indep (map dq mono) 0 (dq 0)) by now rewrite length_map.
    rewrite map_nth. apply (quantised_sample_accuracy fl (nth i mono 0) Hfl).
Qed.

Lemma wav_round_trip_accuracy_witness :
  let fl : R -> R := fun x => x in
  float_rounding fl /\
  exists wav decoded,
    wav_file_bytes fl (fun _ => 0%Z) [0.5; -1] 16000 = Ok wav /\
    wav_payload_samples wav = Ok decoded /\
    length decoded = length [0.5%R; (-1)%R] /\
    forall i : nat,
      (i < length [0.5%R; (-1)%R])%nat ->
      Rabs (nth i decoded 0 - np_clip (-1) 1 (nth i [0.5; -1] 0)) < 2 / 32768 /\
      Rabs (nth i decoded 0) < 1.
Proof.
  cbv zeta. split; [exact float_rounding_exact |].
  apply (wav_round_trip_accuracy (fun x => x) (fun _ => 0%Z) [0.5; -1] 16000
           float_rounding_exact).
  - split; reflexivity.
  - reflexivity.
Defined.

(** ** What leaves the enhancers *)

Lemma peak_zero_all_zero (audio : list R) :
  peak audio = Ok 0 -> Forall (fun x => x = 0) audio.
Proof.
  intros H. destruct (peak_bounds audio 0 H) as [Hub _].
  apply Forall_forall. intros x Hin. specialize (Hub x Hin).
  revert Hub. unfold Rabs. destruct (Rcase_abs x); lra.
Qed.

Lemma all_zero_peak (audio : list R) :
  audio <> [] -> Forall (fun x => x = 0) audio -> peak audio = Ok 0.
Proof.
  intros Hne Hz. apply peak_intro.
  - intros x Hin. rewrite (proj1 (Forall_forall _ _) Hz x Hin), Rabs_R0. lra.
  - destruct audio as [| a rest]; [contradiction |].
    exists a. split; [now left |].
    rewrite (proj1 (Forall_forall _ _) Hz a (or_introl eq_refl)). apply Rabs_R0.
Qed.

(** A normalization that returns leaves a signal of the same length whose
    peak is the headroom, unless the signal is all zeros. *)
Lemma peak_normalize_cases (h : R) (audio out : list R) :
  0 <= h ->
  peak_normalize h audio = Ok out ->
  length out = length audio /\
  out <> [] /\
  (peak out = Ok h \/ (peak out = Ok 0 /\ Forall (fun x => x = 0) out)).
Proof.
  intros Hh H.
  destruct (peak audio) as [p | e] eqn:Hp;
    [| unfold peak_normalize in H; rewrite Hp in H; discriminate].
  assert (Hne : audio <> []) by (intros ->; discriminate Hp).
  pose proof (peak_nonneg _ _ Hp) as Hp0.
  destruct (Req_dec_T p 0) as [-> | Hnz].
  - unfold peak_normalize in H. rewrite Hp in H. cbn [rbind] in H.
    destruct (Rlt_dec 0 0); [lra |]. injection H as <-.
    repeat split; auto. right. split; [exact Hp | now apply peak_zero_all_zero].
  - destruct (peak_normalize_peak h p audio Hh Hp Hnz) as (o & Ho & Hpo).
    rewrite Ho in H. injection H as <-.
    assert (Hlen : length o = length audio).
    { unfold peak_normalize in Ho. rewrite Hp in Ho. cbn [rbind] in Ho.
      injection Ho as <-. destruct (Rlt_dec 0 p); [apply length_map | reflexivity]. }
    repeat split; auto.
    intros ->. destruct audio; [contradiction | discriminate Hlen].
Qed.

Lemma peak_app_zeros (audio : list R) (p : R) (k : nat) :
  peak audio = Ok p -> peak (audio ++ repeat 0 k) = Ok p.
Proof.
  intros Hp. pose proof (peak_nonneg _ _ Hp) as Hp0.
  destruct (peak_bounds audio p Hp) as (Hub & x0 & Hin0 & E0).
  apply peak_intro.
  - intros x Hin. apply in_app_or in Hin as [Hin | Hin]; [now apply Hub |].
    apply repeat_spec in Hin. subst x. now rewrite Rabs_R0.
  - exists x0. split; [apply in_or_app; now left | exact E0].
Qed.

Ltac step_result H :=
  match type of H with
  | context [rbind ?r _] =>
      let E := fresh "E" in
      destruct r eqn:E; cbn [rbind] in H; try discriminate H
  end.

(** Whatever [enhance_audio_for_speech] returns for a non-empty window came
    out of the final normalization and the padding. *)
Lemma enhance_audio_for_speech_tail (L : dsp_libs) (audio out : list R)
  (sample_rate : Z) :
  len audio <> 0%Z ->
  enhance_audio_for_speech L audio sample_rate = Ok out ->
  exists a b, final_normalize a = Ok b /\ out = pad_min_length b sample_rate.
Proof.
  intros Hn H. unfold enhance_audio_for_speech in H.
  destruct (Z.eqb_spec (len audio) 0) as [E | _]; [contradiction |].
  repeat step_result H. injection H as <-. eauto.
Qed.

(** X14: a non-empty window that [enhance_audio_for_speech] returns has peak
    exactly 0.85 or is all zeros; so the volume gate of [main],
    [max_audio_val > 0.01], turns away exactly the windows that are all
    zeros. *)
Theorem enhanced_peak_and_volume_gate (L : dsp_libs) (audio out : list R)
  (sample_rate : Z) :
  len audio <> 0%Z ->
  enhance_audio_for_speech L audio sample_rate = Ok out ->
  exists pass,
    volume_gate out = Ok pass /\
    (pass = true <-> peak out = Ok 0.85) /\
    (pass = false <-> Forall (fun x => x = 0) out).
Proof.
  intros Hn H.
  destruct (enhance_audio_for_speech_tail L audio out sample_rate Hn H)
    as (a & b & Hfin & ->).
  unfold final_normalize in Hfin.
  destruct (peak_normalize_cases 0.85 a b ltac:(lra) Hfin) as (_ & Hne & Hcases).
  assert (Hpad : exists k, pad_min_length b sample_rate = b ++ repeat 0 k).
  { unfold pad_min_length. destruct (len b <? _)%Z; [eexists; reflexivity |].
    exists 0%nat. cbn. now rewrite app_nil_r. }
  destruct Hpad as (k & ->).
  unfold volume_gate.
  destruct Hcases as [Hp | [Hp Hz]]; rewrite (peak_app_zeros b _ k Hp); cbn [rbind].
  - exists true. split; [f_equal; apply Rltb_true; lra |].
    split; [tauto |]. split; [discriminate |]. intros Hall.
    assert (Hc : peak (b ++ repeat 0 k) = Ok 0).
    { apply all_zero_peak; [| exact Hall]. destruct b; [contradiction | discriminate]. }
    rewrite (peak_app_zeros b _ k Hp) in Hc. injection Hc as Hc. lra.
  - exists false. split; [f_equal; apply Rltb_false; lra |].
    split; [split; [discriminate | intros [= Hc]; lra] |].
    split; [intros _ | reflexivity].
    apply Forall_app. split; [exact Hz |].
    apply Forall_forall. intros x Hin. now apply repeat_spec in Hin.
Qed.


Lemma example_enhanced :
  exists out, enhance_audio_for_speech example_dsp [1; -1] 4 = Ok out.
Proof.
  unfold enhance_audio_for_speech, suppress_noise, final_normalize,
    peak_normalize, peak, compress, example_dsp.
  cbn.
  repeat match goal with
         | |- context [Rlt_dec ?a ?b] => destruct (Rlt_dec a b); cbn
         end;
    eexists; reflexivity.
Qed.

Lemma enhanced_peak_and_volume_gate_witness :
  exists out pass,
    enhance_audio_for_speech example_dsp [1; -1] 4 = Ok out /\
    volume_gate out = Ok pass /\
    (pass = true <-> peak out = Ok 0.85) /\
    (pass = false <-> Forall (fun x => x = 0) out).
Proof.
  destruct example_enhanced as (out & H).
  destruct (enhanced_peak_and_volume_gate example_dsp [1; -1] out 4
              ltac:(discriminate) H) as (pass & Hp).
  exists out, pass. split; [exact H | exact Hp].
Defined.


(** ** [enhance_audio_for_deepgram] *)

(** X15: without SciPy and noisereduce, [enhance_audio_for_deepgram] never
    raises on a non-empty window and returns as many samples as it got,
    all within [[-0.95, 0.95]].  Its peak is exactly 0.95 as soon as one
    sample differs from the mean that [np.mean] computed, and the output is
    all zeros only when every sample equals that mean (which rounding can
    keep from happening even on a constant window). *)
Theorem enhance_audio_for_deepgram_minimal (L : dsp_libs)
  (nr_reduce_noise : list R -> Z -> Q -> Z -> Z -> result (list R))
  (float_mean : list R -> R) (audio : list R) (sample_rate : Z) :
  audio <> [] ->
  exists out,
    enhance_audio_for_deepgram false L nr_reduce_noise float_mean audio sample_rate
      = Ok out /\
    length out = length audio /\
    Forall (fun y => - (0.95) <= y <= 0.95) out /\
    ((exists x, In x audio /\ x <> float_mean audio) -> peak out = Ok 0.95) /\
    (Forall (fun x => x = float_mean audio) audio <-> Forall (fun y => y = 0) out).
Proof.
  intros Hne.
  unfold enhance_audio_for_deepgram.
  destruct (Z.eqb_spec (len audio) 0) as [E | _].
  { unfold len in E. destruct audio; [contradiction | cbn in E; lia]. }
  cbn [negb].
  set (centered := map (fun x => x - float_mean audio) audio).
  assert (Hcne : centered <> []).
  { unfold centered. destruct audio; [contradiction | discriminate]. }
  destruct (peak centered) as [p | e] eqn:Hp;
    [| destruct centered; [contradiction | discriminate Hp]].
  assert (Hout : exists out, peak_normalize 0.95 centered = Ok out).
  { unfold peak_normalize. rewrite Hp. cbn [rbind]. eauto. }
  destruct Hout as (out & Hout). exists out. split; [exact Hout |].
  destruct (peak_normalize_cases 0.95 centered out ltac:(lra) Hout)
    as (Hlen & Hone & Hcases).
  assert (Hdiff : (exists x, In x audio /\ x <> float_mean audio) ->
                  peak out = Ok 0.95).
  { intros (x & Hin & Hx).
    assert (Hnz : p <> 0).
    { intros ->. apply peak_zero_all_zero in Hp.
      apply Hx. assert (x - float_mean audio = 0); [| lra].
      apply (proj1 (Forall_forall _ _) Hp). unfold centered.
      apply (in_map (fun x => x - float_mean audio)), Hin. }
    destruct (peak_normalize_peak 0.95 p centered ltac:(lra) Hp Hnz)
      as (o & Ho & Hpo).
    rewrite Ho in Hout. now injection Hout as <-. }
  split; [rewrite Hlen; apply length_map |].
  split; [| split; [exact Hdiff |]].
  - assert (Hb : exists q, peak out = Ok q /\ 0 <= q <= 0.95).
    { destruct Hcases as [Hc | [Hc _]]; eexists; (split; [exact Hc | lra]). }
    destruct Hb as (q & Hq & Hr).
    destruct (peak_bounds out q Hq) as [Hub _].
    apply Forall_forall. intros y Hin. specialize (Hub y Hin).
    revert Hub. unfold Rabs. destruct (Rcase_abs y); lra.
  - split.
    + intros Hall.
      assert (Hz : Forall (fun x => x = 0) centered).
      { unfold centered. apply Forall_map. revert Hall. apply Forall_impl.
        intros a ->. lra. }
      pose proof (all_zero_peak centered Hcne Hz) as Hp0.
      unfold peak_normalize in Hout. rewrite Hp0 in Hout. cbn [rbind] in Hout.
      destruct (Rlt_dec 0 0); [lra |]. now injection Hout as <-.
    + intros Hzero. apply Forall_forall. intros x Hin.
      destruct (Req_dec_T x (float_mean audio)) as [E | Hx]; [exact E |].
      exfalso.
      pose proof (Hdiff (ex_intro _ x (conj Hin Hx))) as Hpk.
      rewrite (all_zero_peak out Hone Hzero) in Hpk.
      injection Hpk as Hpk. lra.
Qed.

Lemma enhance_audio_for_deepgram_minimal_witness :
  let audio : list R := [1; -1] in
  audio <> [] /\
  exists out,
    enhance_audio_for_deepgram false example_dsp (fun y _ _ _ _ => Ok y)
      np_mean audio 16000 = Ok out /\
    length out = length audio /\
    Forall (fun y => - (0.95) <= y <= 0.95) out /\
    ((exists x, In x audio /\ x <> np_mean audio) -> peak out = Ok 0.95) /\
    (Forall (fun x => x = np_mean audio) audio <-> Forall (fun y => y = 0) out).
Proof.
  split; [discriminate |].
  apply (enhance_audio_for_deepgram_minimal example_dsp
           (fun y _ _ _ _ => Ok y) np_mean [1; -1] 16000).
  discriminate.
Defined.

(** X16: with the libraries, a non-empty window that
    [enhance_audio_for_deepgram] returns has peak exactly 0.9 or is all
    zeros: whatever the mean, the filters and the noise reduction gave,
    every sample lies in [[-0.9, 0.9]]. *)
Theorem enhance_audio_for_deepgram_peak (L : dsp_libs)
  (nr_reduce_noise : list R -> Z -> Q -> Z -> Z -> result (list R))
  (float_mean : list R -> R) (audio out : list R) (sample_rate : Z) :
  audio <> [] ->
  enhance_audio_for_deepgram true L nr_reduce_noise float_mean audio sample_rate
    = Ok out ->
  (peak out = Ok 0.9 \/ Forall (fun x => x = 0) out) /\
  Forall (fun x => - (0.9) <= x <= 0.9) out.
Proof.
  intros Hne H. unfold enhance_audio_for_deepgram in H.
  destruct (Z.eqb_spec (len audio) 0) as [E | _].
  { unfold len in E. destruct audio; [contradiction | cbn in E; lia]. }
  cbn [negb] in H.
  repeat step_result H.
  destruct (peak_normalize_cases 0.9 _ out ltac:(lra) H) as (_ & _ & Hc).
  assert (Hp : exists p, peak out = Ok p /\ 0 <= p <= 0.9).
  { destruct Hc as [Hc | [Hc _]]; eexists; (split; [exact Hc | lra]). }
  split; [destruct Hc as [Hc | [_ Hc]]; [now left | now right] |].
  destruct Hp as (p & Hp & Hr).
  destruct (peak_bounds out p Hp) as [Hub _].
  apply Forall_forall. intros x Hin. specialize (Hub x Hin).
  revert Hub. unfold Rabs. destruct (Rcase_abs x); lra.
Qed.

Lemma example_deepgram_enhanced :
  exists out,
    enhance_audio_for_deepgram true example_dsp (fun y _ _ _ _ => Ok y)
      np_mean [1; -1] 16000 = Ok out.
Proof.
  unfold enhance_audio_for_deepgram, peak_normalize, peak, example_dsp.
  cbn.
  repeat match goal with
         | |- context [Rlt_dec ?a ?b] => destruct (Rlt_dec a b); cbn
         end;
    eexists; reflexivity.
Qed.

Lemma enhance_audio_for_deepgram_peak_witness :
  exists out,
    enhance_audio_for_deepgram true example_dsp (fun y _ _ _ _ => Ok y)
      np_mean [1; -1] 16000 = Ok out /\
    (peak out = Ok 0.9 \/ Forall (fun x => x = 0) out) /\
    Forall (fun x => - (0.9) <= x <= 0.9) out.
Proof.
  destruct example_deepgram_enhanced as (out & H).
  exists out. split; [exact H |].
  apply (enhance_audio_for_deepgram_peak example_dsp (fun y _ _ _ _ => Ok y)
           np_mean [1; -1] out 16000); [discriminate | exact H].
Defined.

(** ** The two compressors *)

(** X17: the compressor of [enhance_audio_for_speech] keeps the sign of every
    sample and never makes it louder; it leaves a sample alone up to 0.4 and
    halves the excess above. *)
Theorem compress_spec (audio : list R) :
  Forall2 (fun x y =>
             np_sign y = np_sign x /\
             Rabs y <= Rabs x /\
             (Rabs x <= 0.4 -> y = x) /\
             (0.4 < Rabs x -> Rabs y = 0.4 + (Rabs x - 0.4) / 2))
          audio (compress audio).
Proof.
  unfold compress. induction audio as [| x audio IH]; cbn [map]; constructor;
    [| exact IH].
  destruct (Rlt_dec 0.4 (Rabs x)) as [Hgt | Hle].
  - assert (Hy : (x < 0 /\ Rabs x = - x /\ np_sign x = -1) \/
                 (0 < x /\ Rabs x = x /\ np_sign x = 1)).
    { revert Hgt. unfold Rabs, np_sign.
      destruct (Rcase_abs x); destruct (Rlt_dec x 0); destruct (Rlt_dec 0 x);
        intros; try lra;
        first [left; repeat split; lra | right; repeat split; lra]. }
    destruct Hy as [(Hx & Ha & Hs) | (Hx & Ha & Hs)]; rewrite Hs, Ha in *.
    + set (y := -1 * (0.4 + (- x - 0.4) / 2.0)).
      assert (Hyn : y < 0) by (unfold y; lra).
      repeat split.
      * unfold np_sign. destruct (Rlt_dec y 0); lra.
      * rewrite (Rabs_left y Hyn). unfold y. lra.
      * intros; lra.
      * intros _. rewrite (Rabs_left y Hyn). unfold y. lra.
    + set (y := 1 * (0.4 + (x - 0.4) / 2.0)).
      assert (Hyp : 0 < y) by (unfold y; lra).
      repeat split.
      * unfold np_sign. destruct (Rlt_dec y 0); destruct (Rlt_dec 0 y); lra.
      * rewrite (Rabs_right y) by lra. unfold y. lra.
      * intros; lra.
      * intros _. rewrite (Rabs_right y) by lra. unfold y. lra.
  - repeat split; lra.
Qed.

(** X18: the compressor of the safe worker adds the signed excess to the
    positive threshold, so it does not keep the sign: a sample below -0.3
    comes out as [0.3 - (|x| - 0.3) / 4], which is positive for every sample
    above -1.5; samples up to the threshold are left alone and samples above
    0.3 have their excess divided by four. *)
Theorem safe_compress_spec (audio_data : list R) :
  Forall2 (fun x y =>
             (Rabs x <= 0.3 -> y = x) /\
             (0.3 < x -> y = 0.3 + (x - 0.3) / 4) /\
             (x < - (0.3) -> y = 0.3 - (- x - 0.3) / 4) /\
             (- (1.5) < x < - (0.3) -> 0 < y))
          audio_data (safe_compress audio_data).
Proof.
  unfold safe_compress.
  induction audio_data as [| x audio_data IH]; cbn [map]; constructor;
    [| exact IH].
  unfold np_sign, Rabs.
  destruct (Rlt_dec 0.3 (if Rcase_abs x then - x else x)) as [Hgt | Hle];
    destruct (Rcase_abs x); destruct (Rlt_dec x 0); destruct (Rlt_dec 0 x);
    repeat split; intros; lra.
Qed.


(** ** The streaming loop *)

Lemma min_send_samples_nat : min_send_samples = Z.of_nat chunk_samples.
Proof. reflexivity. Qed.

Lemma chunk_samples_pos : (0 < chunk_samples)%nat.
Proof. unfold chunk_samples. change min_send_samples with 1600%Z. lia. Qed.

Lemma py_slice_to_chunk {A} (l : list A) :
  py_slice_to min_send_samples l = firstn chunk_samples l.
Proof. reflexivity. Qed.

Lemma py_slice_from_chunk {A} (l : list A) :
  py_slice_from min_send_samples l = skipn chunk_samples l.
Proof. reflexivity. Qed.

Lemma stream_pcm16_app (fl : R -> R) (overflow : R -> Z) (a b : list R) :
  stream_pcm16 fl overflow (a ++ b) = stream_pcm16 fl overflow a ++ stream_pcm16 fl overflow b.
Proof. unfold stream_pcm16, np_tobytes_int16. now rewrite map_app, flat_map_app. Qed.

Lemma len_stream_pcm16 (fl : R -> R) (overflow : R -> Z) (chunk : list R) :
  len (stream_pcm16 fl overflow chunk) = (2 * len chunk)%Z.
Proof.
  unfold stream_pcm16. rewrite len_np_tobytes_int16. unfold len.
  now rewrite length_map.
Qed.

Lemma firstn_plus {A} (n m : nat) (l : list A) :
  firstn (n + m) l = firstn n l ++ firstn m (skipn n l).
Proof.
  revert l; induction n as [| n IH]; intros l; [reflexivity |].
  destruct l as [| a l]; cbn [Nat.add firstn skipn app].
  - now rewrite firstn_nil.
  - now rewrite IH.
Qed.

(** The inner loop on an open connection: [j] chunks were sent, in order
    and from the front of the buffer; at most one more chunk has left the
    buffer, the one whose send raised. *)
Lemma send_chunks_loop_spec {C} (fl : R -> R) (overflow : R -> Z)
  (send_media : C -> list Byte.byte -> result unit * C) (fuel : nat) :
  forall (st : stream_state C) (c : C),
    connection st = Some c ->
    (length (audio_buffer st) < fuel * chunk_samples)%nat ->
    exists (j : nat) (dropped : bool) (frames : list (list Byte.byte)),
      let final := send_chunks_loop fl overflow send_media fuel st in
      let k := (j + if dropped then 1 else 0)%nat in
      (chunk_samples * k <= length (audio_buffer st))%nat /\
      audio_buffer final = skipn (chunk_samples * k) (audio_buffer st) /\
      sent final = sent st ++ frames /\
      length frames = j /\
      concat frames =
        stream_pcm16 fl overflow (firstn (chunk_samples * j) (audio_buffer st)) /\
      Forall (fun f => len f = (2 * min_send_samples)%Z) frames /\
      send_count final = (send_count st + Z.of_nat j)%Z /\
      streaming_started final = (streaming_started st || negb (j =? 0)%nat)%bool /\
      (exists c', connection final = Some c') /\
      (dropped = false -> (length (audio_buffer final) < chunk_samples)%nat) /\
      ((forall c b, fst (send_media c b) = Ok tt) -> dropped = false).
Proof.
  pose proof chunk_samples_pos as HN.
  induction fuel as [| fuel IH]; intros st c Hc Hfuel; [cbn in Hfuel; lia |].
  cbn [send_chunks_loop].
  destruct (Z.leb_spec min_send_samples (len (audio_buffer st))) as [Hge | Hlt].
  - rewrite min_send_samples_nat in Hge. unfold len in Hge.
    rewrite py_slice_to_chunk, py_slice_from_chunk.
    set (chunk := firstn chunk_samples (audio_buffer st)).
    assert (Hchunk : length chunk = chunk_samples)
      by (unfold chunk; rewrite length_firstn; lia).
    assert (Hbytes : len (stream_pcm16 fl overflow chunk) = (2 * min_send_samples)%Z).
    { rewrite len_stream_pcm16, min_send_samples_nat. unfold len. lia. }
    assert (Hpos : (0 <? len (stream_pcm16 fl overflow chunk))%Z = true).
    { apply Z.ltb_lt. rewrite Hbytes, min_send_samples_nat. lia. }
    rewrite Hpos, Hc.
    destruct (send_media c (stream_pcm16 fl overflow chunk)) as [[u | e] c'] eqn:Es.
    + match goal with
      | |- context [send_chunks_loop _ _ _ fuel ?s] => set (st' := s)
      end.
      specialize (IH st' c' eq_refl).
      subst st'.
      cbn [audio_buffer sent send_count streaming_started] in IH.
      rewrite Nat.mul_succ_l in Hfuel.
      destruct IH as (j & dropped & frames & H);
        [rewrite length_skipn; lia |].
      cbv zeta in H.
      destruct H as (Hk & Hbuf & Hsent & Hlen & Hcat & Hall & Hcount & Hst
                     & Hconn & Hleft & Hok).
      rewrite length_skipn in Hk.
      exists (S j), dropped, (stream_pcm16 fl overflow chunk :: frames). cbv zeta.
      repeat apply conj.
      * cbn [Nat.add]. lia.
      * rewrite Hbuf, skipn_skipn. f_equal. cbn [Nat.add]. lia.
      * rewrite Hsent, <- app_assoc. reflexivity.
      * cbn [length]. now rewrite Hlen.
      * cbn [concat]. rewrite Hcat.
        replace (chunk_samples * S j)%nat with (chunk_samples + chunk_samples * j)%nat
          by lia.
        now rewrite firstn_plus, stream_pcm16_app.
      * constructor; assumption.
      * rewrite Hcount. lia.
      * rewrite Hst. cbn. now rewrite orb_true_r.
      * exact Hconn.
      * exact Hleft.
      * exact Hok.
    + exists 0%nat, true, []. cbv zeta.
      cbn [audio_buffer sent send_count streaming_started connection].
      repeat apply conj.
      * cbn [Nat.add]. lia.
      * cbn [Nat.add]. now rewrite Nat.mul_1_r.
      * now rewrite app_nil_r.
      * reflexivity.
      * now rewrite Nat.mul_0_r.
      * constructor.
      * lia.
      * cbn. now rewrite orb_false_r.
      * eauto.
      * discriminate.
      * intros Hok. specialize (Hok c (stream_pcm16 fl overflow chunk)).
        rewrite Es in Hok. discriminate Hok.
  - rewrite min_send_samples_nat in Hlt. unfold len in Hlt.
    exists 0%nat, false, []. cbv zeta.
    repeat apply conj.
    + cbn [Nat.add]. lia.
    + cbn [Nat.add]. now rewrite Nat.mul_0_r.
    + now rewrite app_nil_r.
    + reflexivity.
    + now rewrite Nat.mul_0_r.
    + constructor.
    + lia.
    + cbn. now rewrite orb_false_r.
    + eauto.
    + intros _. lia.
    + reflexivity.
Qed.





(** One pass of the outer loop keeps the frames sent and the buffer in step
    with the samples that have arrived. *)
Lemma stream_iteration_in_step {C} (fl : R -> R) (overflow : R -> Z)
  (send_media : C -> list Byte.byte -> result unit * C)
  (channels src_sr : Z) (audio frame all : list R) (st : stream_state C) :
  (forall c b, fst (send_media c b) = Ok tt) ->
  stream_frame channels src_sr audio = Ok frame ->
  (exists c, connection st = Some c) ->
  (chunk_samples * length (sent st) <= length all)%nat ->
  audio_buffer st = skipn (chunk_samples * length (sent st)) all ->
  concat (sent st) =
    stream_pcm16 fl overflow (firstn (chunk_samples * length (sent st)) all) ->
  Forall (fun f => len f = 3200%Z) (sent st) ->
  send_count st = len (sent st) ->
  streaming_started st = negb (length (sent st) =? 0)%nat ->
  exists st',
    stream_iteration fl overflow send_media channels src_sr audio st = Ok st' /\
    (exists c, connection st' = Some c) /\
    (chunk_samples * length (sent st') <= length (all ++ frame))%nat /\
    audio_buffer st' = skipn (chunk_samples * length (sent st')) (all ++ frame) /\
    concat (sent st') =
      stream_pcm16 fl overflow
        (firstn (chunk_samples * length (sent st')) (all ++ frame)) /\
    Forall (fun f => len f = 3200%Z) (sent st') /\
    send_count st' = len (sent st') /\
    streaming_started st' = negb (length (sent st') =? 0)%nat /\
    (length (audio_buffer st') < chunk_samples)%nat.
Proof.
  intros Hok Hframe (c & Hc) Hle Hbuf Hcat Hall Hcount Hst.
  pose proof chunk_samples_pos as HN.
  unfold stream_iteration. rewrite Hframe. cbn [rbind].
  eexists. split; [reflexivity |].
  unfold send_chunks.
  match goal with
  | |- context [send_chunks_loop _ _ _ ?f ?s] => set (st1 := s); set (fuel := f)
  end.
  destruct (send_chunks_loop_spec fl overflow send_media fuel st1 c Hc)
    as (j & dropped & frames & H).
  { unfold fuel, st1. cbn [audio_buffer]. nia. }
  cbv zeta in H.
  destruct H as (Hk & Hbuf' & Hsent & Hlen & Hcat' & Hall' & Hcount' & Hst'
                 & Hconn & Hleft & Hnodrop).
  specialize (Hnodrop Hok). subst dropped. specialize (Hleft eq_refl).
  rewrite Nat.add_0_r in Hk, Hbuf'.
  subst fuel.
  change (audio_buffer st1) with (audio_buffer st ++ frame) in *.
  change (sent st1) with (sent st) in *.
  change (send_count st1) with (send_count st) in *.
  change (streaming_started st1) with (streaming_started st) in *.
  set (final := send_chunks_loop fl overflow send_media _ st1) in *.
  set (m := length (sent st)) in *.
  assert (Hm : length (sent final) = (m + j)%nat)
    by (rewrite Hsent, length_app, Hlen; reflexivity).
  assert (Hskip : skipn (chunk_samples * m) all ++ frame =
                  skipn (chunk_samples * m) (all ++ frame)).
  { rewrite skipn_app.
    replace (chunk_samples * m - length all)%nat with 0%nat by lia.
    reflexivity. }
  assert (Hfirst : firstn (chunk_samples * m) (all ++ frame) =
                   firstn (chunk_samples * m) all).
  { rewrite firstn_app.
    replace (chunk_samples * m - length all)%nat with 0%nat by lia.
    cbn [firstn]. now rewrite app_nil_r. }
  rewrite Hbuf, Hskip in Hk, Hbuf', Hcat'.
  rewrite length_skipn in Hk.
  repeat apply conj.
  - exact Hconn.
  - rewrite Hm. rewrite length_app in *. lia.
  - rewrite Hbuf', skipn_skipn, Hm. f_equal. lia.
  - rewrite Hm, Hsent, concat_app, Hcat, Hcat'.
    replace (chunk_samples * (m + j))%nat
      with (chunk_samples * m + chunk_samples * j)%nat by lia.
    rewrite (firstn_plus (chunk_samples * m) (chunk_samples * j) (all ++ frame)).
    rewrite stream_pcm16_app, Hfirst. reflexivity.
  - rewrite Hsent. apply Forall_app. split; [exact Hall | exact Hall'].
  - rewrite Hcount', Hcount. unfold len. rewrite Hm. fold m. lia.
  - rewrite Hst', Hst, Hm. fold m. destruct m, j; reflexivity.
  - exact Hleft.
Qed.

(** X20: as long as every send is accepted, the streaming loop sends the
    incoming audio without a gap and without a repeat.  After any number of
    reads, the frames sent, put end to end, are the conversion of the first
    [1600 * n] samples that arrived, [n] being the number of frames; every
    frame has 3200 bytes; the buffer holds the samples after those and less
    than one chunk of them; [send_count] is [n], and the event
    [audio_streaming_started] is set exactly when a frame has been sent. *)
Theorem stream_run_no_gap {C} (fl : R -> R) (overflow : R -> Z)
  (send_media : C -> list Byte.byte -> result unit * C)
  (channels src_sr : Z) (reads frames : list (list R)) (c0 : C) :
  (forall c b, fst (send_media c b) = Ok tt) ->
  Forall2 (fun audio frame => stream_frame channels src_sr audio = Ok frame)
          reads frames ->
  let final :=
    stream_run fl overflow send_media channels src_sr reads (initial_stream c0) in
  let all := concat frames in
  let n := (chunk_samples * length (sent final))%nat in
  concat (sent final) = stream_pcm16 fl overflow (firstn n all) /\
  audio_buffer final = skipn n all /\
  (len all = min_send_samples * len (sent final) + len (audio_buffer final))%Z /\
  (len (audio_buffer final) < min_send_samples)%Z /\
  Forall (fun f => len f = 3200%Z) (sent final) /\
  send_count final = len (sent final) /\
  streaming_started final = negb (length (sent final) =? 0)%nat.
Proof.
  intros Hok Hframes. pose proof chunk_samples_pos as HN.
  assert (Hgen : forall (st : stream_state C) (all0 : list R),
    (exists c, connection st = Some c) ->
    (chunk_samples * length (sent st) <= length all0)%nat ->
    audio_buffer st = skipn (chunk_samples * length (sent st)) all0 ->
    concat (sent st) =
      stream_pcm16 fl overflow (firstn (chunk_samples * length (sent st)) all0) ->
    Forall (fun f => len f = 3200%Z) (sent st) ->
    send_count st = len (sent st) ->
    streaming_started st = negb (length (sent st) =? 0)%nat ->
    (length (audio_buffer st) < chunk_samples)%nat ->
    let final := stream_run fl overflow send_media channels src_sr reads st in
    let all := all0 ++ concat frames in
    (chunk_samples * length (sent final) <= length all)%nat /\
    audio_buffer final = skipn (chunk_samples * length (sent final)) all /\
    concat (sent final) =
      stream_pcm16 fl overflow (firstn (chunk_samples * length (sent final)) all) /\
    Forall (fun f => len f = 3200%Z) (sent final) /\
    send_count final = len (sent final) /\
    streaming_started final = negb (length (sent final) =? 0)%nat /\
    (length (audio_buffer final) < chunk_samples)%nat).
  { induction Hframes as [| audio frame reads frames Hframe _ IH];
      intros st all0 Hc Hle Hbuf Hcat Hall Hcount Hst Hshort; cbv zeta.
    - cbn [stream_run concat]. rewrite app_nil_r. repeat apply conj; assumption.
    - cbn [stream_run concat]. destruct Hc as (c & Hc). rewrite Hc.
      destruct (stream_iteration_in_step fl overflow send_media channels src_sr
                  audio frame all0 st Hok Hframe (ex_intro _ c Hc) Hle Hbuf Hcat
                  Hall Hcount Hst)
        as (st' & Hit & Hc' & Hle' & Hbuf' & Hcat' & Hall' & Hcount' & Hst'
            & Hshort').
      rewrite Hit, app_assoc.
      exact (IH st' (all0 ++ frame) Hc' Hle' Hbuf' Hcat' Hall' Hcount' Hst'
               Hshort'). }
  specialize (Hgen (initial_stream c0) []).
  cbv zeta in Hgen. cbn [app] in Hgen.
  destruct Hgen as (Hle & Hbuf & Hcat & Hall & Hcount & Hst & Hshort);
    try reflexivity.
  { eexists; reflexivity. }
  { constructor. }
  { exact HN. }
  cbv zeta. repeat apply conj; try assumption.
  - rewrite Hbuf at 1. rewrite min_send_samples_nat. unfold len.
    rewrite length_skipn. lia.
  - rewrite min_send_samples_nat. unfold len. lia.
Qed.

Lemma stream_run_no_gap_witness :
  let send_media : unit -> list Byte.byte -> result unit * unit :=
    fun c _ => (Ok tt, c) in
  let reads : list (list R) := [repeat 0.5 1000; repeat 0.25 1000] in
  (forall c b, fst (send_media c b) = Ok tt) /\
  Forall2 (fun audio frame => stream_frame 1 TARGET_SR audio = Ok frame)
          reads reads /\
  let final :=
    stream_run (fun x => x) Int_part send_media 1 TARGET_SR reads
      (initial_stream tt) in
  let all := concat reads in
  let n := (chunk_samples * length (sent final))%nat in
  (concat (sent final) = stream_pcm16 (fun x => x) Int_part (firstn n all) /\
   audio_buffer final = skipn n all /\
   (len all = min_send_samples * len (sent final) + len (audio_buffer final))%Z /\
   (len (audio_buffer final) < min_send_samples)%Z /\
   Forall (fun f => len f = 3200%Z) (sent final) /\
   send_count final = len (sent final) /\
   streaming_started final = negb (length (sent final) =? 0)%nat) /\
  length (sent final) = 1%nat /\
  streaming_started final = true.
Proof.
  cbv zeta.
  assert (Hok : forall (c : unit) (b : list Byte.byte),
             fst ((fun c _ => (Ok tt, c)) c b : result unit * unit) = Ok tt)
    by reflexivity.
  assert (Hframes : Forall2
            (fun audio frame => stream_frame 1 TARGET_SR audio = Ok frame)
            [repeat 0.5 1000; repeat 0.25 1000]
            [repeat 0.5 1000; repeat 0.25 1000])
    by (repeat constructor).
  split; [exact Hok |]. split; [exact Hframes |].
  pose proof (stream_run_no_gap (fun x => x) Int_part (fun c _ => (Ok tt, c))
                1 TARGET_SR [repeat 0.5 1000; repeat 0.25 1000]
                [repeat 0.5 1000; repeat 0.25 1000] tt Hok Hframes) as H.
  cbv zeta in H. split; [exact H |].
  destruct H as (_ & _ & Hall & Hshort & _ & _ & Hst).
  assert (Hone : length
                   (sent (stream_run (fun x => x) Int_part
                            (fun (c : unit) (_ : list Byte.byte) => (Ok tt, c))
                            1 TARGET_SR [repeat 0.5 1000; repeat 0.25 1000]
                            (initial_stream tt))) = 1%nat).
  { revert Hall Hshort. unfold len. cbn [concat].
    rewrite !length_app, !repeat_length. cbn [length].
    change min_send_samples with 1600%Z.
    generalize (length (sent (stream_run (fun x => x) Int_part
                    (fun (c : unit) (_ : list Byte.byte) => (Ok tt, c))
                    1 TARGET_SR [repeat 0.5 1000; repeat 0.25 1000]
                    (initial_stream tt)))).
    generalize (length (audio_buffer (stream_run (fun x => x) Int_part
                    (fun (c : unit) (_ : list Byte.byte) => (Ok tt, c))
                    1 TARGET_SR [repeat 0.5 1000; repeat 0.25 1000]
                    (initial_stream tt)))).
    intros b k. lia. }
  split; [exact Hone |]. rewrite Hst, Hone. reflexivity.
Defined.


(** X21: the streaming loop converts a chunk without clipping it.  On
    samples within [[-1, 1]] it gives the bytes of [convert_to_pcm16]; a
    sample of [1 + 1/32767] or more falls outside [int16], where the cast
    is left to the platform, while [convert_to_pcm16] saturates at 32767.
    Neither depends on how the product with 32767 is rounded. *)
Theorem stream_pcm16_unclipped (fl : R -> R) (overflow : R -> Z) :
  float_rounding fl ->
  (forall chunk,
      Forall (fun x => -1 <= x <= 1) chunk ->
      stream_pcm16 fl overflow chunk = convert_to_pcm16 fl overflow chunk) /\
  (forall x,
      32768 <= x * 32767 ->
      stream_pcm16 fl overflow [x] =
        int16_tobytes (wrap_int16 (overflow (fl (x * 32767)))) /\
      convert_to_pcm16 fl overflow [x] = int16_tobytes 32767).
Proof.
  intros [Hmono Hfix]. split.
  - intros chunk Hin. unfold stream_pcm16, convert_to_pcm16, pcm16_of_float.
    f_equal. apply map_ext_in. intros x Hx.
    rewrite np_clip_inside; [reflexivity |].
    exact (proj1 (Forall_forall _ _) Hin x Hx).
  - intros x Hx.
    unfold stream_pcm16, convert_to_pcm16, pcm16_of_float, np_tobytes_int16.
    cbn [map flat_map]. rewrite !app_nil_r. split; f_equal.
    + unfold np_astype_int16.
      assert (Ht : (32768 <= R_trunc (fl (x * 32767)%R))%Z).
      { pose proof (R_trunc_monotone _ _ (Hmono _ _ Hx)) as H.
        rewrite (Hfix 32768%Z), R_trunc_whole in H by lia. exact H. }
      destruct (Z.leb_spec (R_trunc (fl (x * 32767))) 32767); [lia |].
      now rewrite andb_false_r.
    + assert (Hc : np_clip (-1) 1 x = 1).
      { unfold np_clip, Rmin, Rmax.
        destruct (Rle_dec x (-1)); destruct (Rle_dec _ 1); lra. }
      rewrite Hc. replace (1 * 32767) with (IZR 32767) by lra.
      unfold np_astype_int16. rewrite Hfix by lia. rewrite R_trunc_whole.
      reflexivity.
Qed.

Lemma stream_pcm16_unclipped_witness :
  let fl : R -> R := fun x => x in
  float_rounding fl /\
  (forall chunk,
      Forall (fun x => -1 <= x <= 1) chunk ->
      stream_pcm16 fl Int_part chunk = convert_to_pcm16 fl Int_part chunk) /\
  (forall x,
      32768 <= x * 32767 ->
      stream_pcm16 fl Int_part [x] =
        int16_tobytes (wrap_int16 (Int_part (fl (x * 32767)))) /\
      convert_to_pcm16 fl Int_part [x] = int16_tobytes 32767).
Proof.
  cbv zeta. split; [exact float_rounding_exact |].
  exact (stream_pcm16_unclipped (fun x => x) Int_part float_rounding_exact).
Defined.

(** ** [str.strip] and [handle_transcript] *)

Lemma lstrip_head (s : string) :
  lstrip s = EmptyString \/
  exists c s', lstrip s = String c s' /\ py_isspace c = false.
Proof.
  induction s as [| c s IH]; [now left |].
  cbn [lstrip]. destruct (py_isspace c) eqn:E; [exact IH | right; eauto].
Qed.

Lemma lstrip_empty (s : string) :
  lstrip s = EmptyString <->
  forall c, In c (list_ascii_of_string s) -> py_isspace c = true.
Proof.
  induction s as [| c s IH]; cbn [lstrip list_ascii_of_string].
  - split; [intros _ c [] | reflexivity].
  - destruct (py_isspace c) eqn:E.
    + rewrite IH. split.
      * intros H d [<- | Hin]; [exact E | now apply H].
      * intros H d Hin. apply H. now right.
    + split; [discriminate |]. intros H.
      specialize (H c (or_introl eq_refl)). congruence.
Qed.

Lemma rstrip_head (c : ascii) (s : string) :
  py_isspace c = false -> exists r, rstrip (String c s) = String c r.
Proof.
  intros E. cbn [rstrip]. destruct (rstrip s); [rewrite E |]; eauto.
Qed.

Lemma rstrip_idempotent (s : string) : rstrip (rstrip s) = rstrip s.
Proof.
  induction s as [| c s IH]; [reflexivity |].
  cbn [rstrip]. destruct (rstrip s) as [| d r] eqn:E.
  - destruct (py_isspace c) eqn:Ec; [reflexivity |].
    cbn [rstrip]. now rewrite Ec.
  - change (rstrip (String c (String d r)))
      with (match rstrip (String d r) with
            | EmptyString =>
                if py_isspace c then EmptyString else String c EmptyString
            | String a r' => String c (String a r')
            end).
    now rewrite IH.
Qed.

(** Stripping a stripped text changes nothing: it has no white space left
    at either end. *)
Lemma strip_idempotent (s : string) : strip (strip s) = strip s.
Proof.
  unfold strip.
  destruct (lstrip_head s) as [E | (c & s' & E & Ec)]; rewrite E.
  - reflexivity.
  - destruct (rstrip_head c s' Ec) as (r & Er). rewrite Er.
    cbn [lstrip]. rewrite Ec, <- Er. apply rstrip_idempotent.
Qed.

(** The stripped text is empty exactly when every character is white
    space. *)
Lemma strip_visible (s : string) :
  py_bool_str (strip s) = true <->
  exists c, In c (list_ascii_of_string s) /\ py_isspace c = false.
Proof.
  unfold strip. split.
  - intros H. destruct (lstrip s) as [| c s'] eqn:E; [discriminate H |].
    destruct (existsb (fun c => negb (py_isspace c)) (list_ascii_of_string s))
      eqn:Ex.
    + apply existsb_exists in Ex as (d & Hin & Hd). exists d.
      split; [exact Hin | now apply negb_true_iff].
    + assert (Hall : lstrip s = EmptyString).
      { apply lstrip_empty. intros d Hin.
        destruct (py_isspace d) eqn:Ed; [reflexivity |].
        assert (Ht : existsb (fun c => negb (py_isspace c))
                       (list_ascii_of_string s) = true)
          by (apply existsb_exists; exists d; now rewrite Ed).
        congruence. }
      congruence.
  - intros (d & Hin & Hd).
    destruct (lstrip_head s) as [E | (c & s' & E & Ec)].
    + rewrite (proj1 (lstrip_empty s) E d Hin) in Hd. discriminate Hd.
    + rewrite E. destruct (rstrip_head c s' Ec) as (r & ->). reflexivity.
Qed.

Lemma ascii_text_lstrip (s : string) :
  ascii_text s = true -> ascii_text (lstrip s) = true.
Proof.
  unfold ascii_text. induction s as [| c s IH]; [reflexivity |].
  cbn [lstrip list_ascii_of_string forallb]. intros H.
  apply andb_true_iff in H as [Hc Hs].
  destruct (py_isspace c); [now apply IH |].
  cbn [list_ascii_of_string forallb]. now rewrite Hc, Hs.
Qed.

Lemma ascii_text_rstrip (s : string) :
  ascii_text s = true -> ascii_text (rstrip s) = true.
Proof.
  unfold ascii_text. induction s as [| c s IH]; [reflexivity |].
  cbn [rstrip list_ascii_of_string forallb]. intros H.
  apply andb_true_iff in H as [Hc Hs]. specialize (IH Hs).
  destruct (rstrip s) as [| d r].
  - destruct (py_isspace c); [reflexivity |].
    cbn [list_ascii_of_string forallb]. now rewrite Hc.
  - cbn [list_ascii_of_string forallb] in *. now rewrite Hc.
Qed.

(** Stripping ASCII text leaves ASCII text. *)
Lemma ascii_text_strip (s : string) :
  ascii_text s = true -> ascii_text (strip s) = true.
Proof. intros H. unfold strip. now apply ascii_text_rstrip, ascii_text_lstrip. Qed.

(** The transcriptions among the lines [handle_transcript] prints. *)
Lemma handle_transcript_cases (now : Q) (result : dg_message) (out : stdout) :
  exists events,
    handle_transcript now result out = (Ok tt, out ++ events) /\
    let transcriptions := filter transcription_record events in
    (transcriptions = [] \/
     exists alternative others text,
       channel result = Some (Some (alternative :: others)) /\
       text = strip (transcript alternative) /\
       text <> EmptyString /\
       strip text = text /\
       transcriptions =
         [transcription_log now text
            (match confidence alternative with Some c => c | None => 0.9%Q end)]) /\
    (transcriptions <> [] <->
     exists alternative others c,
       channel result = Some (Some (alternative :: others)) /\
       In c (list_ascii_of_string (transcript alternative)) /\
       py_isspace c = false).
Proof.
  unfold handle_transcript, try_except.
  destruct (channel result) as [[[| a others] |] |] eqn:Ech.
  - (* no alternative: the IndexError is reported *)
    eexists. split; [reflexivity |]. cbn. split; [now left |].
    split; [intros H; now contradiction H |].
    intros (a & o & c & [=] & _).
  - destruct (Nat.eqb_spec (String.length (transcript a)) 0) as [E0 | Hn0].
    + eexists. split; [cbn; rewrite app_nil_r; reflexivity |].
      cbn. split; [now left |].
      split; [intros H; now contradiction H |].
      intros (a' & o & c & [= <- _] & Hin & _).
      destruct (transcript a); [destruct Hin | discriminate E0].
    + pose proof (strip_visible (transcript a)) as Hvis.
      destruct (py_bool_str (strip (transcript a))) eqn:Eb.
      * assert (Hrec : forall conf,
                   transcription_record
                     (transcription_log now (strip (transcript a)) conf) = true)
          by reflexivity.
        assert (Hres : exists rest,
                   filter transcription_record rest = [] /\
                   (print (transcription_log now (strip (transcript a))
                             (match confidence a with Some c => c | None => 0.9%Q end)) ;;
                    if has_true (is_final result) || has_true (speech_final result)
                    then debug_log ("Final: " ++ substring 0 50 (strip (transcript a))
                                     ++ "...")
                    else mret tt)%io out =
                   (Ok tt, out ++ transcription_log now (strip (transcript a))
                             (match confidence a with Some c => c | None => 0.9%Q end)
                           :: rest)).
        { unfold debug_log. unfold mbind, print, mret.
          destruct (has_true (is_final result) || has_true (speech_final result)).
          - eexists. split; [| rewrite <- app_assoc; reflexivity]. reflexivity.
          - exists []. split; reflexivity. }
        destruct Hres as (rest & Hrest & Hrun). rewrite Hrun.
        eexists. split; [reflexivity |].
        cbv zeta. cbn [filter]. rewrite Hrec, Hrest.
        split.
        -- right. exists a, others, (strip (transcript a)).
           repeat apply conj; try reflexivity.
           ++ intros Hs. rewrite Hs in Eb. discriminate Eb.
           ++ apply strip_idempotent.
        -- split; [intros _ | discriminate].
           destruct (proj1 Hvis eq_refl) as (c & Hin & Hc).
           exists a, others, c. auto.
      * eexists. split; [cbn; rewrite app_nil_r; reflexivity |].
        cbn. split; [now left |].
        split; [intros H; now contradiction H |].
        intros (a' & o & c & [= <- _] & Hin & Hc).
        assert (Ht : false = true) by (apply Hvis; eauto). discriminate Ht.
  - eexists. split; [cbn; rewrite app_nil_r; reflexivity |].
    cbn. split; [now left |].
    split; [intros H; now contradiction H |].
    intros (a & o & c & [=] & _).
  - eexists. split; [cbn; rewrite app_nil_r; reflexivity |].
    cbn. split; [now left |].
    split; [intros H; now contradiction H |].
    intros (a & o & c & [=] & _).
Qed.


(** Every line [handle_transcript] prints is a transcription, a debug line
    or an error line. *)
Lemma handle_transcript_lines (now : Q) (result : dg_message) (out : stdout) :
  exists events,
    handle_transcript now result out = (Ok tt, out ++ events) /\
    forallb (fun e => log_line e || transcription_record e) events = true.
Proof.
  unfold handle_transcript, try_except, debug_log, error_log, mbind, print,
    mret, mraise.
  destruct (channel result) as [[[| a others] |] |];
    try (eexists; split;
         [first [reflexivity | rewrite app_nil_r; reflexivity] | reflexivity]).
  destruct (String.length (transcript a) =? 0)%nat;
    [exists []; rewrite app_nil_r; split; reflexivity |].
  destruct (py_bool_str (strip (transcript a)));
    [| exists []; rewrite app_nil_r; split; reflexivity].
  destruct (has_true (is_final result) || has_true (speech_final result)).
  - eexists. split; [rewrite <- app_assoc; reflexivity | reflexivity].
  - eexists. split; [reflexivity | reflexivity].
Qed.

(** X22: on a message whose transcript is ASCII text, [handle_transcript]
    never raises, looks at the first alternative only and prints at most
    one transcription; every other line it prints is a debug or an error
    line.  It prints a transcription exactly when the transcript of that
    alternative has a character that is not white space; the text of the
    event is the stripped transcript, which is not empty and has no white
    space at either end, and the confidence is the one of the alternative,
    0.9 without one. *)
Theorem handle_transcript_events (now : Q) (result : dg_message) (out : stdout) :
  (forall alternative others,
      channel result = Some (Some (alternative :: others)) ->
      ascii_text (transcript alternative) = true) ->
  exists events,
    handle_transcript now result out = (Ok tt, out ++ events) /\
    forallb (fun e => log_line e || transcription_record e) events = true /\
    let transcriptions := filter transcription_record events in
    (transcriptions = [] \/
     exists alternative others text,
       channel result = Some (Some (alternative :: others)) /\
       text = strip (transcript alternative) /\
       text <> EmptyString /\
       strip text = text /\
       ascii_text text = true /\
       transcriptions =
         [transcription_log now text
            (match confidence alternative with Some c => c | None => 0.9%Q end)]) /\
    (transcriptions <> [] <->
     exists alternative others c,
       channel result = Some (Some (alternative :: others)) /\
       In c (list_ascii_of_string (transcript alternative)) /\
       py_isspace c = false).
Proof.
  intros Hascii.
  destruct (handle_transcript_cases now result out) as (events & Hrun & Hcases).
  destruct (handle_transcript_lines now result out) as (events' & Hrun' & Hlines).
  rewrite Hrun in Hrun'. injection Hrun' as Hsame.
  apply app_inv_head in Hsame. subst events'.
  exists events. split; [exact Hrun |]. split; [exact Hlines |].
  cbv zeta in *. destruct Hcases as [Hone Hiff]. split; [| exact Hiff].
  destruct Hone as [Hnone | (a & others & text & Hch & Htext & Hne & Hstrip & Hts)];
    [now left |].
  right. exists a, others, text. repeat apply conj; try assumption.
  subst text. apply ascii_text_strip. exact (Hascii a others Hch).
Qed.

Lemma handle_transcript_events_witness :
  let result : dg_message :=
    {| channel := Some (Some [ {| transcript := "  hello world ";
                                  confidence := Some 0.98%Q |} ]);
       is_final := Some true;
       speech_final := None |} in
  (forall alternative others,
      channel result = Some (Some (alternative :: others)) ->
      ascii_text (transcript alternative) = true) /\
  exists events,
    handle_transcript 1700000000 result [] = (Ok tt, [] ++ events) /\
    forallb (fun e => log_line e || transcription_record e) events = true /\
    let transcriptions := filter transcription_record events in
    (transcriptions = [] \/
     exists alternative others text,
       channel result = Some (Some (alternative :: others)) /\
       text = strip (transcript alternative) /\
       text <> EmptyString /\
       strip text = text /\
       ascii_text text = true /\
       transcriptions =
         [transcription_log 1700000000 text
            (match confidence alternative with Some c => c | None => 0.9%Q end)]) /\
    (transcriptions <> [] <->
     exists alternative others c,
       channel result = Some (Some (alternative :: others)) /\
       In c (list_ascii_of_string (transcript alternative)) /\
       py_isspace c = false).
Proof.
  cbv zeta.
  assert (Hascii : forall alternative others,
             channel {| channel := Some (Some [ {| transcript := "  hello world ";
                                                   confidence := Some 0.98%Q |} ]);
                        is_final := Some true;
                        speech_final := None |}
               = Some (Some (alternative :: others)) ->
             ascii_text (transcript alternative) = true).
  { intros a o H. cbn in H. injection H as <- _. reflexivity. }
  split; [exact Hascii |].
  exact (handle_transcript_events 1700000000
           {| channel := Some (Some [ {| transcript := "  hello world ";
                                         confidence := Some 0.98%Q |} ]);
              is_final := Some true;
              speech_final := None |} [] Hascii).
Defined.


(** ** What a speech window prints *)

Lemma quiet_ret {A} (a : A) : prints_only_logs (mret a).
Proof. intros out. exists []. now rewrite app_nil_r. Qed.

Lemma quiet_raise {A} (e : exn) : prints_only_logs (@mraise A e).
Proof. intros out. exists []. now rewrite app_nil_r. Qed.

Lemma quiet_lift {A} (r : result A) : prints_only_logs (lift r).
Proof. intros out. exists []. now rewrite app_nil_r. Qed.

Lemma quiet_print (event : json) :
  log_line event = true -> prints_only_logs (print event).
Proof. intros H out. exists [event]. cbn. now rewrite H. Qed.

Lemma quiet_debug_log (message : string) : prints_only_logs (debug_log message).
Proof. now apply quiet_print. Qed.

Lemma quiet_bind {A B} (c : M A) (k : A -> M B) :
  prints_only_logs c ->
  (forall a, prints_only_logs (k a)) ->
  prints_only_logs (mbind c k).
Proof.
  intros Hc Hk out. unfold mbind.
  destruct (Hc out) as (ev1 & E1 & F1).
  destruct (c out) as [[a | e] o]; cbn [snd] in E1; subst o.
  - destruct (Hk a (out ++ ev1)) as (ev2 & E2 & F2).
    exists (ev1 ++ ev2). rewrite E2, app_assoc, forallb_app, F1, F2. now split.
  - exists ev1. now split.
Qed.

Lemma quiet_try_except {A} (body : M A) (handler : exn -> M A) :
  prints_only_logs body ->
  (forall e, prints_only_logs (handler e)) ->
  prints_only_logs (try_except body handler).
Proof.
  intros Hc Hk out. unfold try_except.
  destruct (Hc out) as (ev1 & E1 & F1).
  destruct (body out) as [[a | e] o]; cbn [snd] in E1; subst o.
  - exists ev1. now split.
  - destruct (Hk e (out ++ ev1)) as (ev2 & E2 & F2).
    exists (ev1 ++ ev2). rewrite E2, app_assoc, forallb_app, F1, F2. now split.
Qed.

Ltac quiet :=
  repeat first
    [ apply quiet_ret | apply quiet_raise | apply quiet_lift
    | apply quiet_debug_log
    | apply quiet_print; reflexivity
    | apply quiet_bind; [| intros ?]
    | apply quiet_try_except; [| intros ?]
    | match goal with
      | |- prints_only_logs (if ?b then _ else _) => destruct b
      | |- prints_only_logs (match ?x with _ => _ end) => destruct x
      end ].

(** [transcribe_wav_base64] prints error lines at most. *)
Lemma transcribe_wav_base64_quiet (env : whisper_env) (b64_data : string) :
  prints_only_logs (transcribe_wav_base64 env b64_data).
Proof. unfold transcribe_wav_base64, transcribe_body. quiet. Qed.

Lemma list_ascii_of_string_app (a b : string) :
  list_ascii_of_string (a ++ b) = list_ascii_of_string a ++ list_ascii_of_string b.
Proof. induction a as [| c a IH]; [reflexivity |]. cbn. now rewrite IH. Qed.

Lemma ascii_text_app (a b : string) :
  ascii_text (a ++ b) = ascii_text a && ascii_text b.
Proof. unfold ascii_text. now rewrite list_ascii_of_string_app, forallb_app. Qed.

Lemma ascii_text_concat (l : list string) :
  forallb ascii_text l = true -> ascii_text (String.concat " " l) = true.
Proof.
  induction l as [| x l IH]; [reflexivity |].
  cbn [forallb]. intros H. apply andb_true_iff in H as [Hx Hl].
  specialize (IH Hl). destruct l as [| y l]; [exact Hx |].
  change (String.concat " " (x :: y :: l))
    with (x ++ " " ++ String.concat " " (y :: l))%string.
  rewrite !ascii_text_app, Hx, IH. reflexivity.
Qed.

Lemma forallb_map_compose {A B} (f : A -> B) (p : B -> bool) (l : list A) :
  forallb p (map f l) = forallb (fun a => p (f a)) l.
Proof. induction l as [| a l IH]; [reflexivity |]. cbn. now rewrite IH. Qed.

(** With ASCII engines the text of every dict the body returns is ASCII. *)
Lemma transcribe_body_ascii (env : whisper_env) (b64_data : string)
  (out out' : stdout) (r : json) (t : string) :
  ascii_engines env ->
  transcribe_body env b64_data out = (Ok r, out') ->
  dict_lookup "text" r = Some (JStr t) ->
  ascii_text t = true.
Proof.
  intros [Hfw How].
  unfold transcribe_body, mbind, lift, try_except, mret, mraise, print.
  intros H Ht. cbn beta in H. repeat step_body H; injection H as <- _;
    match type of Ht with
    | dict_lookup _ (JDict ((_, JStr ?x) :: _)) = _ =>
        assert (Hx : t = x) by (cbn in Ht; now injection Ht as <-);
        rewrite Hx; clear Hx Ht
    end;
    apply ascii_text_strip; try reflexivity.
  - match goal with
    | Hf : match match faster_model env with _ => _ end with _ => _ end
           = (Ok ?si, _),
      Hc : collect_fw (fst ?si) = Ok _ |- _ =>
        destruct (faster_model env) as [f |] eqn:Hm; [| discriminate Hf];
        match type of Hf with
        | context [f ?audio] =>
            destruct (f audio) as [si' |] eqn:Hr; [| discriminate Hf]
        end;
        injection Hf as Hsi _; subst si';
        destruct si as [segs info]; cbn [fst] in Hc;
        pose proof (Hfw _ _ _ _ eq_refl Hr) as Hseg;
        unfold collect_fw in Hc; destruct (snd segs); [discriminate Hc |];
        injection Hc as <-; cbn [fst]
    end.
    apply ascii_text_concat. rewrite forallb_map_compose. exact Hseg.
  - match goal with
    | Hf : match model env with _ => _ end = Ok ?m,
      Hr : snd ?m _ _ = Ok ?res, Ho : ow_text ?res = Some _ |- _ =>
        destruct (model env) as [m0 |] eqn:Hm; [| discriminate Hf];
        injection Hf as ->; exact (How _ _ _ _ _ eq_refl Hr Ho)
    end.
  - match goal with
    | Hf : match model env with _ => _ end = Ok ?m,
      Hr : snd ?m _ _ = Ok ?res, Ho : ow_text ?res = Some _ |- _ =>
        destruct (model env) as [m0 |] eqn:Hm; [| discriminate Hf];
        injection Hf as ->; exact (How _ _ _ _ _ eq_refl Hr Ho)
    end.
Qed.

Lemma enhanced_peak_cases (L : dsp_libs) (audio out : list R) (sample_rate : Z) :
  enhance_audio_for_speech L audio sample_rate = Ok out ->
  forall p, peak out = Ok p -> p = 0.85 \/ p = 0.
Proof.
  intros H p Hp.
  assert (Hn : len audio <> 0%Z).
  { intros E. unfold enhance_audio_for_speech in H.
    rewrite (proj2 (Z.eqb_eq _ _) E) in H. injection H as <-.
    destruct audio; [discriminate Hp | discriminate E]. }
  destruct (enhance_audio_for_speech_tail L audio out sample_rate Hn H)
    as (a & b & Hfin & ->).
  unfold final_normalize in Hfin.
  destruct (peak_normalize_cases 0.85 a b ltac:(lra) Hfin) as (_ & _ & Hcases).
  assert (Hpad : exists k, pad_min_length b sample_rate = b ++ repeat 0 k).
  { unfold pad_min_length. destruct (len b <? _)%Z; [eexists; reflexivity |].
    exists 0%nat. cbn. now rewrite app_nil_r. }
  destruct Hpad as (k & Hk). rewrite Hk in Hp.
  destruct Hcases as [Hb | [Hb _]];
    rewrite (peak_app_zeros b _ k Hb) in Hp; injection Hp as <-; auto.
Qed.

(** X23: with engines that return ASCII text, every line [main] prints for
    a speech window is a debug or an error line, except for at most one
    transcription, which then comes last.  A transcription is printed only
    when the enhanced window has peak 0.85 (a window that comes out all
    zeros is turned away by the volume test), the body of
    [transcribe_wav_base64] returned without raising, and the stripped
    text, which is ASCII, has at least three characters; the event is a
    transcription record that carries that text. *)
Theorem process_window_events (env : whisper_env)
  (b64encode : list Byte.byte -> string) (fl : R -> R) (overflow : R -> Z)
  (fmt_4f : R -> string) (py_str : json -> string) (now : Q)
  (process_audio : list R) (out : stdout) :
  ascii_engines env ->
  exists r logs,
    forallb log_line logs = true /\
    (process_window env b64encode fl overflow fmt_4f py_str now process_audio out
       = (r, out ++ logs) \/
     exists enhanced_audio b64 result t o1 o2,
       r = Ok tt /\
       process_window env b64encode fl overflow fmt_4f py_str now process_audio out
         = (Ok tt,
            out ++ logs ++ [loopback_transcription_event now (strip t) result]) /\
       enhance_audio_for_speech (dsp env) process_audio TARGET_SR
         = Ok enhanced_audio /\
       peak enhanced_audio = Ok 0.85 /\
       float_to_wav_base64 b64encode fl overflow enhanced_audio TARGET_SR = Ok b64 /\
       transcribe_body env b64 o1 = (Ok result, o2) /\
       dict_lookup "text" result = Some (JStr t) /\
       ascii_text (strip t) = true /\
       (3 <= String.length (strip t))%nat /\
       transcription_record (loopback_transcription_event now (strip t) result)
         = true).
Proof.
  intros Hascii.
  unfold process_window, debug_log, mbind, print, lift. cbv beta iota.
  destruct (enhance_audio_for_speech (dsp env) process_audio TARGET_SR)
    as [enh | e] eqn:Eenh; cbv beta iota;
    [| do 2 eexists; split; [| left; reflexivity]; reflexivity].
  destruct (peak enh) as [mx | e] eqn:Epk; cbv beta iota;
    [| do 2 eexists; split; [| left; reflexivity]; reflexivity].
  destruct (Rltb 0.01 mx) eqn:Egate; cbv beta iota;
    [| do 2 eexists; split;
       [| left; rewrite <- !app_assoc; reflexivity]; reflexivity].
  destruct (float_to_wav_base64 b64encode fl overflow enh TARGET_SR)
    as [b64 | e] eqn:Eb64; cbv beta iota;
    [| do 2 eexists; split;
       [| left; rewrite <- !app_assoc; reflexivity]; reflexivity].
  match goal with
  | |- context [transcribe_wav_base64 env b64 ?o] => set (o1 := o)
  end.
  destruct (transcribe_wav_base64_cases env b64 o1) as (result & o2 & Etr & Hbody & Wf).
  destruct (transcribe_wav_base64_quiet env b64 o1) as (evs & Eo & Fq).
  rewrite Etr in Eo. cbn [snd] in Eo. subst o2. rewrite Etr. cbv beta iota.
  assert (Htext : exists t, dict_lookup "text" result = Some (JStr t)).
  { unfold well_formed_result in Wf.
    apply andb_true_iff in Wf as [Wf _]. apply andb_true_iff in Wf as [Wf _].
    destruct (dict_lookup "text" result) as [[] |]; try discriminate Wf. eauto. }
  destruct Htext as (t & Ht). unfold dict_get. rewrite Ht. cbv beta iota.
  assert (Hd : forall m,
             log_line
               (JDict [("type"%string, JStr "debug"); ("message"%string, JStr m)])
             = true) by reflexivity.
  destruct (py_bool_str (strip t) && (2 <? String.length (strip t))%nat) eqn:Et;
    cbv beta iota; subst o1.
  - apply andb_true_iff in Et as [Hne Hlen]. apply Nat.ltb_lt in Hlen.
    destruct (transcribe_body env b64
                (((out ++ [JDict [("type"%string, JStr "debug");
                                  ("message"%string,
                                   JStr "Speech activity detected, processing...")]])
                  ++ [JDict [("type"%string, JStr "debug");
                             ("message"%string,
                              JStr ("Max audio value: " ++ fmt_4f mx
                                    ++ ", threshold: 0.01"))]])
                 ++ [JDict [("type"%string, JStr "debug");
                            ("message"%string,
                             JStr "Audio volume sufficient, transcribing...")]]))
      as [[rb | eb] ob] eqn:Ebody.
    + destruct Hbody as [-> _].
      exists (Ok tt).
      exists ([JDict [("type"%string, JStr "debug");
                      ("message"%string,
                       JStr "Speech activity detected, processing...")];
               JDict [("type"%string, JStr "debug");
                      ("message"%string,
                       JStr ("Max audio value: " ++ fmt_4f mx
                             ++ ", threshold: 0.01"))];
               JDict [("type"%string, JStr "debug");
                      ("message"%string,
                       JStr "Audio volume sufficient, transcribing...")]]
              ++ evs
              ++ [JDict [("type"%string, JStr "debug");
                         ("message"%string,
                          JStr ("Transcription result: " ++ py_str rb))];
                  JDict [("type"%string, JStr "debug");
                         ("message"%string,
                          JStr ("Valid text found: '" ++ strip t ++ "'"))]]).
      split.
      { rewrite !forallb_app, Fq. cbn [forallb]. rewrite !Hd. reflexivity. }
      right. exists enh, b64, rb, t. do 2 eexists.
      repeat apply conj; try reflexivity; try eassumption.
      * rewrite <- !app_assoc. cbn [app]. reflexivity.
      * destruct (enhanced_peak_cases (dsp env) process_audio enh TARGET_SR
                    Eenh mx Epk) as [-> | ->]; [exact Epk |].
        unfold Rltb in Egate. destruct (Rlt_dec 0.01 0); [lra | discriminate].
      * apply ascii_text_strip.
        exact (transcribe_body_ascii env b64 _ _ rb t Hascii Ebody Ht).
      * now apply loopback_event_record.
    + destruct Hbody as [-> _]. cbn in Ht. injection Ht as <-.
      discriminate Hne.
  - do 2 eexists. split; [| left; rewrite <- !app_assoc; reflexivity].
    cbn [app]. cbn [forallb]. rewrite !Hd. cbn [andb].
    rewrite forallb_app, Fq. cbn [forallb andb]. rewrite !Hd. reflexivity.
Qed.

Lemma example_engines_ascii : ascii_engines example_env.
Proof.
  split.
  - intros transcribe audio segments info Hm Hr. cbn in Hm.
    injection Hm as <-. injection Hr as <- _. reflexivity.
  - intros m audio fp16 r t Hm. discriminate Hm.
Qed.

Lemma process_window_events_witness :
  let b64encode : list Byte.byte -> string := fun _ => "UklGRg"%string in
  let fl : R -> R := fun x => x in
  let fmt_4f : R -> string := fun _ => "0.8500"%string in
  let py_str : json -> string := fun _ => "{...}"%string in
  let process_audio : list R := [1; -1] in
  ascii_engines example_env /\
  exists r logs,
    forallb log_line logs = true /\
    (process_window example_env b64encode fl Int_part fmt_4f py_str 1700000000
       process_audio [] = (r, [] ++ logs) \/
     exists enhanced_audio b64 result t o1 o2,
       r = Ok tt /\
       process_window example_env b64encode fl Int_part fmt_4f py_str 1700000000
         process_audio []
         = (Ok tt,
            [] ++ logs
               ++ [loopback_transcription_event 1700000000 (strip t) result]) /\
       enhance_audio_for_speech (dsp example_env) process_audio TARGET_SR
         = Ok enhanced_audio /\
       peak enhanced_audio = Ok 0.85 /\
       float_to_wav_base64 b64encode fl Int_part enhanced_audio TARGET_SR = Ok b64 /\
       transcribe_body example_env b64 o1 = (Ok result, o2) /\
       dict_lookup "text" result = Some (JStr t) /\
       ascii_text (strip t) = true /\
       (3 <= String.length (strip t))%nat /\
       transcription_record
         (loopback_transcription_event 1700000000 (strip t) result) = true).
Proof.
  cbv zeta. split; [exact example_engines_ascii |].
  exact (process_window_events example_env (fun _ => "UklGRg"%string)
           (fun x => x) Int_part (fun _ => "0.8500"%string)
           (fun _ => "{...}"%string) 1700000000%Q [1; -1] []
           example_engines_ascii).
Defined.


(** ** The replies of the Moonshine worker *)

(** [decode_wav_base64] never raises; it prints one error line without an
    id exactly when it gives [None]. *)
Lemma decode_wav_base64_cases (env : moonshine_env) (b64 : json) (out : stdout) :
  (exists tmp_path, decode_wav_base64 env b64 out = (Ok (Some tmp_path), out)) \/
  (exists error, decode_wav_base64 env b64 out = (Ok None, out ++ [moon_error error])).
Proof.
  unfold decode_wav_base64, try_except, mbind, lift, print, mret.
  destruct (moon_b64decode env b64) as [data | e]; [| right; eauto].
  destruct (_ && _ && _).
  - destruct (write_temp_file env data) as [p | e]; [left | right]; eauto.
  - destruct (np_frombuffer_int16 _) as [a | e]; [| right; eauto].
    destruct (write_wave_file env a) as [p | e]; [left | right]; eauto.
Qed.

(** X24: what the Moonshine worker prints for one line of input.  A line
    that is no JSON gets one error line and the loop goes on.  A request of
    type ["transcribe"] always gets exactly one reply that carries its id
    (the empty string without one), a result or an error, after at most one
    error line without id; the loop goes on.  Any other JSON object prints
    nothing, and only ["shutdown"] leaves the loop.  JSON that is not an
    object raises an [AttributeError] out of the loop. *)
Theorem handle_line_replies (env : moonshine_env) (raw : string) (out : stdout) :
  exists r events,
    handle_line env raw out = (r, out ++ events) /\
    match json_loads env raw with
    | Raise e =>
        r = Ok Continue /\
        events = [moon_error ("Invalid JSON: " ++ exn_str e)]
    | Ok (JDict kv) =>
        let msg := JDict kv in
        let mtype := dict_lookup "type" msg in
        if py_eq_str mtype "shutdown" then r = Ok Break /\ events = []
        else if py_eq_str mtype "keepalive" then r = Ok Continue /\ events = []
        else if py_eq_str mtype "transcribe" then
          r = Ok Continue /\
          exists errors reply,
            events = errors ++ [reply] /\
            (errors = [] \/ exists error, errors = [moon_error error]) /\
            dict_lookup "id" reply = Some (dict_get "id" (JStr EmptyString) msg) /\
            (dict_lookup "type" reply = Some (JStr "result") \/
             dict_lookup "type" reply = Some (JStr "error"))
        else r = Ok Continue /\ events = []
    | Ok msg =>
        events = [] /\
        r = Raise (AttributeError ("'" ++ py_type_name msg
                                   ++ "' object has no attribute 'get'"))
    end.
Proof.
  unfold handle_line.
  destruct (json_loads env raw) as [msg | e].
  2: { do 2 eexists. split; [reflexivity |]. split; reflexivity. }
  destruct msg as [| b | z | q | s | l | kv];
    try (eexists; exists [];
         split; [unfold mraise; rewrite app_nil_r; reflexivity
                | split; reflexivity]).
  cbv zeta.
  destruct (py_eq_str (dict_lookup "type" (JDict kv)) "shutdown");
    [exists (Ok Break), []; unfold mret; rewrite app_nil_r; auto |].
  destruct (py_eq_str (dict_lookup "type" (JDict kv)) "keepalive");
    [exists (Ok Continue), []; unfold mret; rewrite app_nil_r; auto |].
  destruct (py_eq_str (dict_lookup "type" (JDict kv)) "transcribe");
    [| exists (Ok Continue), []; unfold mret; rewrite app_nil_r; auto].
  set (uid := dict_get "id" (JStr EmptyString) (JDict kv)).
  assert (Hmissing :
    exists r events,
      (print (JDict [ ("type", JStr "error"); ("id", uid);
                      ("error", JStr "Missing audio_base64") ]%string) ;;
       mret Continue)%io out = (r, out ++ events) /\
      r = Ok Continue /\
      exists errors reply,
        events = errors ++ [reply] /\
        (errors = [] \/ exists error, errors = [moon_error error]) /\
        dict_lookup "id" reply = Some uid /\
        (dict_lookup "type" reply = Some (JStr "result") \/
         dict_lookup "type" reply = Some (JStr "error"))).
  { do 2 eexists. split; [reflexivity |]. split; [reflexivity |].
    exists []. eexists. split; [reflexivity |]. cbn. auto. }
  destruct (dict_lookup "audio_base64" (JDict kv)) as [b64 |]; [| exact Hmissing].
  destruct (py_truthy b64); [| exact Hmissing].
  clear Hmissing.
  unfold try_except, mbind, lift, print, mret.
  destruct (decode_wav_base64_cases env b64 out)
    as [(p & ->) | (error & ->)].
  - destruct p as [| c p].
    + do 2 eexists. split; [reflexivity |]. split; [reflexivity |].
      exists []. eexists. split; [reflexivity |]. cbn. auto.
    + destruct (moon_transcribe_audio env (String c p)) as [res | e].
      * do 2 eexists. split; [reflexivity |]. split; [reflexivity |].
        exists []. eexists. split; [reflexivity |]. cbn. auto.
      * do 2 eexists. split; [reflexivity |]. split; [reflexivity |].
        exists []. eexists. split; [reflexivity |]. cbn. auto.
  - do 2 eexists. split; [rewrite <- app_assoc; reflexivity |].
    split; [reflexivity |].
    exists [moon_error error]. eexists. split; [reflexivity |]. cbn.
    repeat apply conj; [right; eauto | reflexivity | now left].
Qed.
